(** * call-swapper: feasibility rules, pressure scoring and batch evaluation

    A shallow embedding of the swap engine of the call-swapper repository
    ([src/domain/rules.ts], [src/domain/shabbos.ts], [src/domain/calendar.ts],
    [src/domain/simipar.ts], [src/utils/rotations.ts],
    [src/engine/contextTransfer.ts], [src/engine/worker.ts] and
    [src/engine/workerPool.ts]) together with the properties the
    specification states about it.

    Conventions of the embedding.
    - A JavaScript [number] is an element of an arithmetic structure
      ([JsNumber]).  Two structures are provided: IEEE-754 binary64
      ([Float64], what the program runs on) and exact rationals ([Exact]).
      A [NaN] that comes from an unparseable date is tracked separately as
      [None], so that the exact structure needs no [NaN].
    - A [Dayjs] value is [Some t] for the instant [t] (milliseconds since the
      epoch) or [None] for an invalid date.
    - What the host provides (date parsing, the local time zone and string
      collation) is a [Host] structure; every general theorem holds for every
      host.
    - [Map<string, V>] of the shared context is a [gmap string V], a
      [Set<string>] a [gset string]; the local, insertion-ordered maps of the
      scoring engine are association lists.
    - Strings are byte strings; case mapping and character classes are the
      ASCII ones. *)

From Stdlib Require Import ZArith QArith Qcanon String Ascii List Sorted Floats Lia Lqa
  Bool.
From Stdlib Require Uint63 DecimalString.
From stdpp Require Import gmap strings.

Local Open Scope string_scope.
Local Open Scope list_scope.
Local Open Scope Z_scope.

(** ** JavaScript numbers *)

(** The operations the engine uses on numbers. *)
Class JsNumber := {
  num : Type;
  ofZ : Z -> num;                 (* an integer literal or integer value *)
  add : num -> num -> num;
  sub : num -> num -> num;
  mul : num -> num -> num;
  div : num -> num -> num;
  opp : num -> num;
  abs : num -> num;               (* Math.abs *)
  max : num -> num -> num;        (* Math.max *)
  ltb : num -> num -> bool;       (* <   *)
  leb : num -> num -> bool;       (* <=  *)
  eqb : num -> num -> bool;       (* === *)
  isFinite : num -> bool          (* Number.isFinite *)
}.

(** The order facts the rule engine's theorems rely on.  They hold of both
    structures below. *)
Class JsNumberLaws (N : JsNumber) : Prop := {
  ltb_irrefl : forall x : num, ltb x x = false;
  leb_zero_zero : leb (ofZ 0) (ofZ 0) = true;
  nonpos_not_pos : forall x : num, leb x (ofZ 0) = true -> ltb (ofZ 0) x = false;
  max_zero_nonpos : forall x : num, leb x (ofZ 0) = true -> max (ofZ 0) x = ofZ 0
}.

Declare Scope num_scope.
Delimit Scope num_scope with num.
Infix "+" := add : num_scope.
Infix "-" := sub : num_scope.
Infix "*" := mul : num_scope.
Infix "/" := div : num_scope.
Infix "<?" := ltb : num_scope.
Infix "<=?" := leb : num_scope.
Infix "=?" := eqb : num_scope.
Notation "- x" := (opp x) : num_scope.

(** [a > b] and [a >= b] are [b < a] and [b <= a]. *)
Definition gtb {N : JsNumber} (a b : num) : bool := ltb b a.
Definition geb {N : JsNumber} (a b : num) : bool := leb b a.

(** *** IEEE-754 binary64 *)

Module Float64.

(** Integers of magnitude below 2^53 (every valid [Date] time value is one)
    convert exactly. *)
Definition of_int (z : Z) : float :=
  if z <? 0 then PrimFloat.opp (PrimFloat.of_uint63 (Uint63.of_Z (- z)))
  else PrimFloat.of_uint63 (Uint63.of_Z z).

(** [Math.max] on two arguments: [NaN] if either is, and [+0] above [-0]. *)
Definition math_max (a b : float) : float :=
  if PrimFloat.is_nan a || PrimFloat.is_nan b then PrimFloat.nan
  else if PrimFloat.ltb a b then b
  else if PrimFloat.ltb b a then a
  else if PrimFloat.get_sign a then b else a.

Definition number : JsNumber := {|
  num := float;
  ofZ := of_int;
  add := PrimFloat.add;
  sub := PrimFloat.sub;
  mul := PrimFloat.mul;
  div := PrimFloat.div;
  opp := PrimFloat.opp;
  abs := PrimFloat.abs;
  max := math_max;
  ltb := PrimFloat.ltb;
  leb := PrimFloat.leb;
  eqb := PrimFloat.eqb;
  isFinite := PrimFloat.is_finite
|}.

End Float64.

(** *** Exact rationals *)

Module Exact.

Definition of_int (z : Z) : Qc := Q2Qc (inject_Z z).

Definition lt (a b : Qc) : bool :=
  match Qccompare a b with Lt => true | _ => false end.

Definition le (a b : Qc) : bool :=
  match Qccompare a b with Gt => false | _ => true end.

Definition math_max (a b : Qc) : Qc := if lt a b then b else a.

Definition math_abs (a : Qc) : Qc := if lt a (of_int 0) then Qcopp a else a.

Definition number : JsNumber := {|
  num := Qc;
  ofZ := of_int;
  add := Qcplus;
  sub := Qcminus;
  mul := Qcmult;
  div := Qcdiv;
  opp := Qcopp;
  abs := math_abs;
  max := math_max;
  ltb := lt;
  leb := le;
  eqb := Qc_eq_bool;
  isFinite := fun _ => true
|}.

End Exact.

(** ** The host: dates, time zone, collation *)

(** [parseDate s] is the time value of [dayjs(s)] in milliseconds since the
    epoch, [None] when dayjs reports an invalid date.  [utcOffset t] is what
    the local time zone adds to the instant [t] to obtain local wall-clock
    time (it may depend on [t]: daylight saving).  [localeCompare] is
    [String.prototype.localeCompare]. *)
Class Host := {
  parseDate : string -> option Z;
  utcOffset : Z -> Z;
  localeCompare : string -> string -> Z
}.

Definition MILLISECONDS_A_HOUR : Z := 3600000.
Definition MILLISECONDS_A_DAY : Z := 86400000.

(** A dayjs object: its time value, or [None] when invalid. *)
Definition Dayjs : Type := option Z.

Definition isValid (d : Dayjs) : bool :=
  match d with Some _ => true | None => false end.

(** [a.isBefore(b)]: a comparison of time values, false when either is [NaN]. *)
Definition isBefore (a b : Dayjs) : bool :=
  match a, b with
  | Some x, Some y => x <? y
  | _, _ => false
  end.

Section Calendar.
Context {H : Host}.

Definition dayjs (iso : string) : Dayjs := parseDate iso.

(** The number of the local calendar day of an instant (day 0 is
    1970-01-01).  [startOf('day')], [add(n, 'day')], [format('YYYY-MM-DD')]
    and comparisons at 'day' granularity all act on this number: adding
    [n] days to a dayjs object and taking its calendar day gives the day
    number plus [n]. *)
Definition localDay (t : Z) : Z := (t + utcOffset t) / MILLISECONDS_A_DAY.

(** [.hour()] of a valid local time. *)
Definition localHour (t : Z) : Z :=
  ((t + utcOffset t) mod MILLISECONDS_A_DAY) / MILLISECONDS_A_HOUR.

(** The calendar day in UTC. *)
Definition utcDay (t : Z) : Z := t / MILLISECONDS_A_DAY.

(** Day of the week of a day number, Sunday = 0 (1970-01-01 was a
    Thursday). *)
Definition weekday (d : Z) : Z := (d + 4) mod 7.

(** [.day()]: [None] stands for [NaN] (invalid date). *)
Definition day (d : Dayjs) : option Z := option_map (fun t => weekday (localDay t)) d.

(** [a.isSame(b, 'day')] *)
Definition isSameDay (a b : Dayjs) : bool :=
  match a, b with
  | Some x, Some y => localDay x =? localDay y
  | _, _ => false
  end.

(** [a.diff(b, 'hour', true)]: the difference of the time values divided
    by the milliseconds of an hour; [None] stands for [NaN]. *)
Definition diffHours {N : JsNumber} (a b : Dayjs) : option num :=
  match a, b with
  | Some x, Some y => Some (div (ofZ (x - y)) (ofZ MILLISECONDS_A_HOUR))
  | _, _ => None
  end.

End Calendar.

(** The civil date (year, month, day of month) of a day number, proleptic
    Gregorian calendar. *)
Definition civilFromDays (d : Z) : Z * Z * Z :=
  let z := d + 719468 in
  let era := z / 146097 in
  let doe := z - era * 146097 in
  let yoe := (doe - doe / 1460 + doe / 36524 - doe / 146096) / 365 in
  let doy := doe - (365 * yoe + yoe / 4 - yoe / 100) in
  let mp := (5 * doy + 2) / 153 in
  let dd := doy - (153 * mp + 2) / 5 + 1 in
  let m := if mp <? 10 then mp + 3 else mp - 9 in
  let y := yoe + era * 400 + (if m <=? 2 then 1 else 0) in
  (y, m, dd).

(** The day number of a civil date. *)
Definition daysFromCivil (y m d : Z) : Z :=
  let y' := if m <=? 2 then y - 1 else y in
  let era := y' / 400 in
  let yoe := y' - era * 400 in
  let mp := if m <=? 2 then m + 9 else m - 3 in
  let doy := (153 * mp + 2) / 5 + d - 1 in
  let doe := yoe * 365 + yoe / 4 - yoe / 100 + doy in
  era * 146097 + doe - 719468.

(** ** Strings *)

(** [String(n)] for an integer. *)
Definition stringOfZ (z : Z) : string :=
  DecimalString.NilZero.string_of_int (Z.to_int z).

Fixpoint repeatChar (c : ascii) (n : nat) : string :=
  match n with
  | O => EmptyString
  | S k => String c (repeatChar c k)
  end.

(** [s.padStart(n, c)] *)
Definition padStart (s : string) (n : nat) (c : ascii) : string :=
  repeatChar c (n - String.length s) +:+ s.

(** [format('YYYY-MM-DD')] of a day number. *)
Definition formatYMD (d : Z) : string :=
  let '(y, m, dd) := civilFromDays d in
  padStart (stringOfZ y) 4 "0" +:+ "-" +:+ padStart (stringOfZ m) 2 "0"
    +:+ "-" +:+ padStart (stringOfZ dd) 2 "0".

(** The year as [toISOString] prints it. *)
Definition isoYear (y : Z) : string :=
  if (0 <=? y) && (y <=? 9999) then padStart (stringOfZ y) 4 "0"
  else if y <? 0 then "-" +:+ padStart (stringOfZ (- y)) 6 "0"
  else "+" +:+ padStart (stringOfZ y) 6 "0".

Definition isUpper (c : ascii) : bool :=
  let n := nat_of_ascii c in (65 <=? n)%nat && (n <=? 90)%nat.

Definition lowerChar (c : ascii) : ascii :=
  if isUpper c then ascii_of_nat (nat_of_ascii c + 32) else c.

(** [s.toLowerCase()] *)
Fixpoint toLowerCase (s : string) : string :=
  match s with
  | EmptyString => EmptyString
  | String c r => String (lowerChar c) (toLowerCase r)
  end.

(** [hay.includes(needle)] *)
Definition includes (hay needle : string) : bool :=
  match String.index 0 needle hay with Some _ => true | None => false end.

(** White space ([\s], and what [trim] removes). *)
Definition isSpace (c : ascii) : bool :=
  let n := nat_of_ascii c in (n =? 32)%nat || ((9 <=? n)%nat && (n <=? 13)%nat).

Fixpoint trimStart (s : string) : string :=
  match s with
  | String c r => if isSpace c then trimStart r else s
  | EmptyString => EmptyString
  end.

Fixpoint revString (s acc : string) : string :=
  match s with
  | EmptyString => acc
  | String c r => revString r (String c acc)
  end.

(** [s.trim()] *)
Definition trim (s : string) : string :=
  revString (trimStart (revString (trimStart s) EmptyString)) EmptyString.

(** *** Regular expressions

    The patterns of the source are sequences of the items below, all with
    the [i] flag; [test] searches for a match at any position. *)

Inductive CharClass := SpaceClass | SpaceOrDash.

Inductive RegExpItem :=
| Lit (c : ascii)              (* a literal character, case-insensitive *)
| Opt (c : ascii)              (* c? *)
| Boundary                     (* \b *)
| Star (k : CharClass)         (* [k]* *)
| Plus (k : CharClass).        (* [k]+ *)

Definition RegExp : Type := list RegExpItem.

Definition inClass (k : CharClass) (c : ascii) : bool :=
  match k with
  | SpaceClass => isSpace c
  | SpaceOrDash => isSpace c || Ascii.eqb c "-"
  end.

(** [\w] *)
Definition isWordChar (c : ascii) : bool :=
  let n := nat_of_ascii c in
  ((48 <=? n)%nat && (n <=? 57)%nat) || ((65 <=? n)%nat && (n <=? 90)%nat)
  || ((97 <=? n)%nat && (n <=? 122)%nat) || (n =? 95)%nat.

Definition isWordOpt (c : option ascii) : bool :=
  match c with Some x => isWordChar x | None => false end.

Definition headChar (s : string) : option ascii :=
  match s with String c _ => Some c | EmptyString => None end.

(** [matchHere items prev s]: some prefix of [s] matches [items], where
    [prev] is the character before [s]. *)
Fixpoint matchHere (items : RegExp) (prev : option ascii) (s : string) : bool :=
  match items with
  | [] => true
  | Lit c :: rest =>
      match s with
      | String x r => Ascii.eqb (lowerChar x) (lowerChar c) && matchHere rest (Some x) r
      | EmptyString => false
      end
  | Opt c :: rest =>
      matchHere rest prev s ||
      match s with
      | String x r => Ascii.eqb (lowerChar x) (lowerChar c) && matchHere rest (Some x) r
      | EmptyString => false
      end
  | Boundary :: rest =>
      xorb (isWordOpt prev) (isWordOpt (headChar s)) && matchHere rest prev s
  | Star k :: rest =>
      (fix star (prev : option ascii) (s : string) : bool :=
         matchHere rest prev s ||
         match s with
         | String x r => inClass k x && star (Some x) r
         | EmptyString => false
         end) prev s
  | Plus k :: rest =>
      match s with
      | String x r =>
          inClass k x &&
          (fix star (prev : option ascii) (s : string) : bool :=
             matchHere rest prev s ||
             match s with
             | String x r => inClass k x && star (Some x) r
             | EmptyString => false
             end) (Some x) r
      | EmptyString => false
      end
  end.

Fixpoint searchFrom (items : RegExp) (prev : option ascii) (s : string) : bool :=
  matchHere items prev s ||
  match s with
  | String x r => searchFrom items (Some x) r
  | EmptyString => false
  end.

(** [pattern.test(s)] *)
Definition test (pattern : RegExp) (s : string) : bool := searchFrom pattern None s.

Fixpoint lits (s : string) : RegExp :=
  match s with
  | EmptyString => []
  | String c r => Lit c :: lits r
  end.

(** ** Data model ([src/domain/types.ts]) *)

Inductive ShiftType := MOSES | WEILER | IP_CONSULT | NIGHT_FLOAT | BACKUP.

#[export] Instance ShiftType_eq_dec : EqDecision ShiftType.
Proof. solve_decision. Defined.

(** [types.includes(t)] *)
Definition includesType (types : list ShiftType) (t : ShiftType) : bool :=
  bool_decide (t ∈ types).

Module Shift.
Record t := mk {
  id : string;
  residentId : string;
  startISO : string;
  endISO : string;
  type : ShiftType;
  location : option string;
  isHoliday : option bool
}.

(** [{ ...shift, residentId: r }] *)
Definition withResidentId (s : t) (r : string) : t :=
  mk (id s) r (startISO s) (endISO s) (type s) (location s) (isHoliday s).
End Shift.

Module RotationAssignment.
Record t := mk {
  weekStartISO : string;
  rotation : string;
  rawRotation : string;
  vacationDates : list string
}.
End RotationAssignment.

Module AcademicYearAssignment.
Record t := mk {
  academicYearStartISO : string;
  label : string
}.
End AcademicYearAssignment.

Module Resident.
Record t := mk {
  id : string;
  name : string;
  eligibleShiftTypes : list ShiftType;
  rotations : list RotationAssignment.t;
  academicYears : list AcademicYearAssignment.t
}.
End Resident.

Module RuleConfig.
Record t {N : JsNumber} := mk {
  restHoursMin : num;
  typeWhitelist : list ShiftType
}.
Arguments mk {N}.
End RuleConfig.

Module Context.
Record t {N : JsNumber} := mk {
  ruleConfig : RuleConfig.t;
  residentsById : gmap string Resident.t;
  shiftsByResident : gmap string (list Shift.t);
  shabbosObservers : gset string
}.
Arguments mk {N}.
End Context.

Inductive RuleViolationCode := OVERLAP | REST_WINDOW | ELIGIBILITY | TYPE_WHITELIST.

Inductive SwapAdvisoryCode := ADVISORY_REST_WINDOW | ADVISORY_OVERLAP.

(** The texts of the messages, as the template and the values it is filled
    with. *)
Inductive Message {N : JsNumber} :=
| MsgBackupOverlap (otherId backupId : string)
    (* `Shift ${other.id} overlaps with backup shift ${backup.id}. ...` *)
| MsgBackupRest (restHours restHoursMin : num) (prevId currentId backupId : string)
    (* `Rest window ${restHours.toFixed(2)}h between ... because of backup shift ...` *)
| MsgTypeNotInWhitelist (shiftId : string) (type : ShiftType)
    (* `Shift ${shift.id} type ${shift.type} is not in whitelist` *)
| MsgNotEligible (residentId : string) (type : ShiftType)
    (* `Resident ${resident.id} is not eligible for shift type ${shift.type}` *)
| MsgOverlap (prevId currentId residentId : string)
    (* `Shifts ${prev.id} and ${current.id} overlap for resident ${resident.id}` *)
| MsgRestWindow (restHours restHoursMin : num) (prevId currentId : string)
    (* `Rest window ${restHours.toFixed(2)}h between ... is below minimum ...h` *)
| MsgText (text : string).

Module SwapAdvisory.
(** [kind] is always ['backup-conflict']. *)
Record t {N : JsNumber} := mk {
  code : SwapAdvisoryCode;
  residentId : string;
  backupShiftId : string;
  otherShiftId : string;
  message : Message;
  restHours : option num;
  minimumRestHours : option num
}.
Arguments mk {N}.
End SwapAdvisory.

Inductive CalendarContext := weekend | holiday.

Module SwapPressureCall.
(** [calendarContext] is ['weekend'], ['holiday'] or [null]; [rotationLabel]
    is absent ([None]), [null] ([Some None]) or a string. *)
Record t {N : JsNumber} := mk {
  shiftId : string;
  shiftType : ShiftType;
  startISO : string;
  endISO : string;
  weight : num;
  baseline : num;
  swapped : num;
  delta : num;
  calendarContext : option CalendarContext;
  rotationLabel : option (option string)
}.
Arguments mk {N}.
End SwapPressureCall.

Module SwapPressureSection.
Record t {N : JsNumber} := mk {
  residentId : string;
  focusShiftId : string;
  windowHours : num;
  calls : list SwapPressureCall.t;
  baselineTotal : num;
  swappedTotal : num;
  deltaTotal : num
}.
Arguments mk {N}.
End SwapPressureSection.

Module SwapPressureBreakdown.
Record t {N : JsNumber} := mk {
  score : num;
  baselineScore : num;
  swappedScore : num;
  original : SwapPressureSection.t;
  counterpart : SwapPressureSection.t
}.
Arguments mk {N}.
End SwapPressureBreakdown.

Module SwapCandidate.
Record t {N : JsNumber} := mk {
  a : Shift.t;
  b : Shift.t;
  score : num;
  pressure : SwapPressureBreakdown.t;
  advisories : option (list SwapAdvisory.t)
}.
Arguments mk {N}.
End SwapCandidate.

(** ** Results of computations *)

(** A call returns a value or, where a loop of the source has no exit, does
    not return (the loop runs until the engine is out of memory). *)
Inductive outcome (A : Type) :=
| Returns (a : A)
| Diverges.
Arguments Returns {A} a.
Arguments Diverges {A}.

Definition bindOutcome {A B : Type} (o : outcome A) (k : A -> outcome B) : outcome B :=
  match o with
  | Returns a => k a
  | Diverges => Diverges
  end.

(** What a [throw] inside [validateResidentTimeline] carries: a
    [RuleViolationError] or any other value. *)
Inductive Thrown {N : JsNumber} :=
| RuleViolationError (code : RuleViolationCode) (residentId : string) (message : Message)
| OtherError (message : string).

(** A block that may throw. *)
Inductive attempt {N : JsNumber} (A : Type) :=
| Ok (a : A)
| Throw (e : Thrown).
Arguments Ok {N A} a.
Arguments Throw {N A} e.

Definition bindAttempt {N : JsNumber} {A B : Type} (x : attempt A) (k : A -> attempt B)
  : attempt B :=
  match x with
  | Ok a => k a
  | Throw e => Throw e
  end.

(** Stable sorting with a comparator, as [Array.prototype.sort] does:
    [gt y x] says that the comparator puts [y] strictly after [x]. *)
Fixpoint insertSorted {A : Type} (gt : A -> A -> bool) (x : A) (l : list A) : list A :=
  match l with
  | [] => [x]
  | y :: r => if gt y x then x :: y :: r else y :: insertSorted gt x r
  end.

Definition stableSort {A : Type} (gt : A -> A -> bool) (l : list A) : list A :=
  fold_left (fun acc x => insertSorted gt x acc) l [].

(** ** [src/domain/calendar.ts] and [src/domain/shabbos.ts] *)

Inductive ShabbosRestriction :=
| observer_friday_call
| observer_saturday_daytime
| observer_night_float
| nonobserver_night_float.

Section Shabbos.
Context {H : Host}.

Definition isWeekend (iso : string) : bool :=
  match day (dayjs iso) with
  | Some d => (d =? 0) || (d =? 6)
  | None => false
  end.

Definition isWeekendOrHoliday (shift : Shift.t) : bool :=
  match Shift.isHoliday shift with
  | Some true => true
  | _ => isWeekend (Shift.startISO shift) || isWeekend (Shift.endISO shift)
  end.

Definition FRIDAY : Z := 5.
Definition SATURDAY : Z := 6.
Definition SATURDAY_DAYTIME_TYPES : list ShiftType := [MOSES; WEILER].

Definition isFridayCall (shift : Shift.t) : bool :=
  match dayjs (Shift.startISO shift) with
  | None => false
  | Some t => weekday (localDay t) =? FRIDAY
  end.

Definition isNightFloat (shift : Shift.t) : bool :=
  bool_decide (Shift.type shift = NIGHT_FLOAT).

Definition isSaturdayNightFloat (shift : Shift.t) : bool :=
  if negb (isNightFloat shift) then false
  else match dayjs (Shift.startISO shift) with
       | None => false
       | Some t => weekday (localDay t) =? SATURDAY
       end.

Definition isSaturdayDaytimeCall (shift : Shift.t) : bool :=
  if negb (includesType SATURDAY_DAYTIME_TYPES (Shift.type shift)) then false
  else match dayjs (Shift.startISO shift) with
       | None => false
       | Some t =>
           if negb (weekday (localDay t) =? SATURDAY) then false
           else localHour t <? 17
       end.

Definition resolveShabbosObservers (shiftsByResident : gmap string (list Shift.t))
  : gset string :=
  map_fold
    (fun residentId shifts observers =>
       let hasSaturdayDaytimeCall := existsb isSaturdayDaytimeCall shifts in
       if negb hasSaturdayDaytimeCall then {[residentId]} ∪ observers else observers)
    ∅ shiftsByResident.

End Shabbos.

(** ** [src/domain/rules.ts] *)

Inductive MosesTier := junior | senior.

#[export] Instance MosesTier_eq_dec : EqDecision MosesTier.
Proof. solve_decision. Defined.

Module RotationBlockConflict.
Record t := mk {
  rotation : string;
  rotationWeekStartISO : string;
  conflictDates : list string
}.
End RotationBlockConflict.

Inductive SwapRejectionReason {N : JsNumber} :=
| missing_input (shiftA shiftB : option string)
| identical_shift (shiftId : string)
| same_resident (residentId shiftA shiftB : string)
| resident_missing (residentA residentB shiftA shiftB : string)
| type_whitelist (whitelist : list ShiftType)
    (shiftA : string * ShiftType) (shiftB : string * ShiftType)
| moses_tier_mismatch (shiftA shiftB : string) (tierA tierB : MosesTier)
| weekend_mismatch (shiftA shiftB : string) (weekendOrHolidayA weekendOrHolidayB : bool)
| eligibility_a (residentId : string) (attemptedType : ShiftType)
    (eligibleTypes : list ShiftType) (shiftA shiftB : string)
| eligibility_b (residentId : string) (attemptedType : ShiftType)
    (eligibleTypes : list ShiftType) (shiftA shiftB : string)
| rule_violation (code : RuleViolationCode) (message : Message)
    (residentId shiftA shiftB : string)
| vacation_conflict (residentId shiftId : string) (conflictDates : list string)
| rotation_block (residentId shiftId rotation rotationWeekStartISO : string)
    (conflictDates : list string)
| shabbos_restriction (residentId shiftId : string) (shiftType : ShiftType)
    (shiftStartISO : string) (restriction : ShabbosRestriction)
| unexpected_error (message shiftA shiftB : string).

Inductive SwapEvaluation {N : JsNumber} :=
| Feasible (advisories : option (list SwapAdvisory.t))
| Infeasible (reason : SwapRejectionReason) (advisories : option (list SwapAdvisory.t)).

Module TimelineValidationOptions.
Record t := mk {
  focusShiftIds : option (gset string);
  softTypes : option (list ShiftType)
}.
End TimelineValidationOptions.

Module PreparedSwap.
Record t {N : JsNumber} := mk {
  ctx : Context.t;
  shiftA : Shift.t;
  shiftB : Shift.t;
  residentA : Resident.t;
  residentB : Resident.t
}.
Arguments mk {N}.
End PreparedSwap.

Definition EMPTY_SOFT_TYPES : list ShiftType := [].
Definition BACKUP_SOFT_TYPES : list ShiftType := [BACKUP].

Definition word (s : string) : RegExp := (Boundary :: lits s ++ [Boundary])%list.

Definition CALL_BLOCK_ROTATION_PATTERNS : list RegExp := [
  word "vacation";                                                     (* /\bvacation\b/i *)
  word "research";                                                     (* /\bresearch\b/i *)
  word "nf";                                                           (* /\bnf\b/i *)
  word "airp";                                                         (* /\bairp\b/i *)
  (Boundary :: lits "ed" ++ [Star SpaceOrDash] ++ lits "night" ++ [Opt "s"%char])%list;
                                                                       (* /\bed[\s-]*nights?/i *)
  word "rsna";                                                         (* /\brsna\b/i *)
  (Boundary :: lits "physics" ++ [Plus SpaceClass] ++ lits "review" ++ [Boundary])%list;
                                                                       (* /\bphysics\s+review\b/i *)
  (Boundary :: lits "nyrs" ++ [Plus SpaceClass] ++ lits "review" ++ [Boundary])%list;
                                                                       (* /\bnyrs\s+review\b/i *)
  (Boundary :: lits "mmc" ++ [Plus SpaceClass] ++ lits "board" ++ [Plus SpaceClass]
     ++ lits "review" ++ [Plus SpaceClass] ++ lits "prep" ++ [Boundary])%list;
                                                                       (* /\bmmc\s+board\s+review\s+prep\b/i *)
  (Boundary :: lits "non-interpretive" ++ [Plus SpaceClass] ++ lits "skills"
     ++ [Plus SpaceClass] ++ lits "review" ++ [Boundary])%list;
                                                                       (* /\bnon-interpretive\s+skills\s+review\b/i *)
  (Boundary :: lits "abr" ++ [Plus SpaceClass] ++ lits "board" ++ [Plus SpaceClass]
     ++ lits "exam" ++ [Boundary])%list;                               (* /\babr\s+board\s+exam\b/i *)
  (Boundary :: lits "us" ++ [Plus SpaceClass] ++ lits "scanning" ++ [Boundary])%list
                                                                       (* /\bus\s+scanning\b/i *)
].

(* /\bmri\s+course\b/i *)
Definition MRI_COURSE_PATTERN : RegExp :=
  (Boundary :: lits "mri" ++ [Plus SpaceClass] ++ lits "course" ++ [Boundary])%list.

Definition selectBackupPair (first second : Shift.t) (softTypes : list ShiftType)
  : Shift.t * Shift.t :=                                   (* (backup, other) *)
  let firstIsSoft := includesType softTypes (Shift.type first) in
  let secondIsSoft := includesType softTypes (Shift.type second) in
  if firstIsSoft && negb secondIsSoft then (first, second)
  else if negb firstIsSoft && secondIsSoft then (second, first)
  else (first, second).

Definition shouldEvaluatePair (prev current : Shift.t) (focusShiftIds : option (gset string))
  : bool :=
  match focusShiftIds with
  | None => true
  | Some ids => bool_decide (Shift.id prev ∈ ids) || bool_decide (Shift.id current ∈ ids)
  end.

Definition getMosesTier (shift : Shift.t) : option MosesTier :=
  if negb (bool_decide (Shift.type shift = MOSES)) then None
  else
    let location := toLowerCase (default "" (Shift.location shift)) in
    let id := toLowerCase (Shift.id shift) in
    if includes location "junior" || includes id "moses_jr" then Some junior
    else if includes location "senior" || includes id "moses_sr" then Some senior
    else None.

Definition collectVacationDates (resident : Resident.t) : gset string :=
  fold_left
    (fun dates assignment =>
       fold_left (fun dates date => {[date]} ∪ dates)
         (RotationAssignment.vacationDates assignment) dates)
    (Resident.rotations resident) ∅.

Definition isCallBlockedRotation (rotation : string) : bool :=
  let trimmed := trim rotation in
  if String.eqb trimmed "" then false
  else existsb (fun pattern => test pattern trimmed) CALL_BLOCK_ROTATION_PATTERNS.

Definition matchesRotationPattern (value : string) (pattern : RegExp) : bool :=
  test pattern value.

Section Rules.
Context {N : JsNumber} {H : Host}.

Definition hasOverlap (aStartISO aEndISO bStartISO bEndISO : string) : bool :=
  let aStart := dayjs aStartISO in
  let aEnd := dayjs aEndISO in
  let bStart := dayjs bStartISO in
  let bEnd := dayjs bEndISO in
  isBefore aStart bEnd && isBefore bStart aEnd.

(** The academic year (starting on July 1, UTC) that contains the date,
    as the ISO string of its first instant.  The source builds July 1 from
    the four-digit year of the date. *)
Definition resolveAcademicYearStartForDate (isoDate : string) : option string :=
  match dayjs isoDate with
  | None => None
  | Some t =>
      let '(year, month, _) := civilFromDays (utcDay t) in
      let academicYear := if month <? 7 then year - 1 else year in
      Some (isoYear academicYear +:+ "-07-01T00:00:00.000Z")
  end.

Definition findResidentAcademicYearLabel (resident : Resident.t) (shift : Shift.t)
  : option string :=
  let assignments := Resident.academicYears resident in
  match assignments with
  | [] => None
  | _ =>
      match resolveAcademicYearStartForDate (Shift.startISO shift) with
      | None => None
      | Some academicYearStartISO =>
          option_map AcademicYearAssignment.label
            (find (fun entry =>
                     String.eqb (AcademicYearAssignment.academicYearStartISO entry)
                       academicYearStartISO)
               assignments)
      end
  end.

Definition isResidentR3ForShift (resident : Resident.t) (shift : Shift.t) : bool :=
  match findResidentAcademicYearLabel resident shift with
  | None => false
  | Some label =>
      if String.eqb label "" then false
      else String.eqb (toLowerCase (trim label)) "r3"
  end.

Definition isRotationBlockedForResident (assignment : RotationAssignment.t)
    (resident : Resident.t) (shift : Shift.t) : bool :=
  if isCallBlockedRotation (RotationAssignment.rotation assignment)
     || isCallBlockedRotation (RotationAssignment.rawRotation assignment)
  then true
  else
    let isMriCourse :=
      matchesRotationPattern (RotationAssignment.rotation assignment) MRI_COURSE_PATTERN
      || matchesRotationPattern (RotationAssignment.rawRotation assignment) MRI_COURSE_PATTERN in
    if negb isMriCourse then false
    else isResidentR3ForShift resident shift.

(** The offsets, in days from the week start, that the source adds. *)
Definition ROTATION_BLOCK_OFFSETS : list Z :=
  [-2; -1] ++ seqZ 0 7 ++ [12; 13].

Definition collectRotationBlockedDates (assignment : RotationAssignment.t) : gset string :=
  match dayjs (RotationAssignment.weekStartISO assignment) with
  | None => ∅
  | Some weekStart =>
      let addDay (blocked : gset string) (value : Z) : gset string :=
        {[formatYMD value]} ∪ blocked in
      fold_left (fun blocked offset => addDay blocked (localDay weekStart + offset))
        ROTATION_BLOCK_OFFSETS ∅
  end.

(** The [while] loop of [enumerateShiftCalendarDays], with a bound on the
    number of iterations.  [cursor] and [endDay] are the day numbers of
    the two dayjs objects, [None] when the object is invalid:
    [cursor.isAfter(endDay, 'day')] is then false and
    [cursor.add(1, 'day')] is invalid again. *)
Definition isAfterDay (cursor endDay : option Z) : bool :=
  match cursor, endDay with
  | Some c, Some e => e <? c
  | _, _ => false
  end.

Definition formatDay (cursor : option Z) : string :=
  match cursor with
  | Some c => formatYMD c
  | None => "Invalid Date"
  end.

Fixpoint enumerateLoop (fuel : nat) (cursor endDay : option Z) (days : list string)
  : option (list string) :=
  match fuel with
  | O => None
  | S fuel' =>
      if negb (isAfterDay cursor endDay)
      then enumerateLoop fuel' (option_map (Z.add 1) cursor) endDay
             (days ++ [formatDay cursor])
      else Some days
  end.

(** [enumerateShiftCalendarDays]: the calendar days from the day of the
    start to the day of the end.  When either date is invalid the loop
    condition never becomes false (see [enumerateLoop_valid] and
    [enumerateLoop_invalid]). *)
Definition enumerateShiftCalendarDays (shift : Shift.t) : outcome (list string) :=
  match dayjs (Shift.startISO shift), dayjs (Shift.endISO shift) with
  | Some s, Some e =>
      Returns (formatYMD <$> seqZ (localDay s) (localDay e - localDay s + 1))
  | _, _ => Diverges
  end.

(** The [for] loop of [shiftRotationConflicts]: the first blocking
    assignment that shares a day with the shift. *)
Fixpoint firstRotationConflict (shiftDates : list string) (resident : Resident.t)
    (shift : Shift.t) (assignments : list RotationAssignment.t)
  : option RotationBlockConflict.t :=
  match assignments with
  | [] => None
  | assignment :: rest =>
      if negb (isRotationBlockedForResident assignment resident shift)
      then firstRotationConflict shiftDates resident shift rest
      else
        let blockedDates := collectRotationBlockedDates assignment in
        let conflictDates := filter (fun date => date ∈ blockedDates) shiftDates in
        match conflictDates with
        | _ :: _ =>
            Some (RotationBlockConflict.mk
                    (RotationAssignment.rotation assignment)
                    (RotationAssignment.weekStartISO assignment)
                    conflictDates)
        | [] => firstRotationConflict shiftDates resident shift rest
        end
  end.

Definition shiftRotationConflicts (shift : Shift.t) (resident : Resident.t)
  : outcome (option RotationBlockConflict.t) :=
  let assignments := Resident.rotations resident in
  match assignments with
  | [] => Returns None
  | _ =>
      bindOutcome (enumerateShiftCalendarDays shift) (fun shiftDates =>
        match shiftDates with
        | [] => Returns None
        | _ => Returns (firstRotationConflict shiftDates resident shift assignments)
        end)
  end.

Definition shiftVacationConflicts (shift : Shift.t) (resident : Resident.t)
  : outcome (list string) :=
  let vacationDates := collectVacationDates resident in
  if bool_decide (vacationDates = ∅) then Returns []
  else
    bindOutcome (enumerateShiftCalendarDays shift) (fun days =>
      Returns (filter (fun date => date ∈ vacationDates) days)).

Definition buildShabbosRestriction (resident : Resident.t) (incomingShift : Shift.t)
    (restriction : ShabbosRestriction) : SwapRejectionReason :=
  shabbos_restriction (Resident.id resident) (Shift.id incomingShift)
    (Shift.type incomingShift) (Shift.startISO incomingShift) restriction.

Definition evaluateShabbosRestriction (resident : Resident.t) (incomingShift : Shift.t)
    (shabbosObservers : gset string) : option SwapRejectionReason :=
  let observesShabbos := bool_decide (Resident.id resident ∈ shabbosObservers) in
  if observesShabbos then
    if isNightFloat incomingShift && negb (isSaturdayNightFloat incomingShift)
    then Some (buildShabbosRestriction resident incomingShift observer_night_float)
    else if isFridayCall incomingShift
    then Some (buildShabbosRestriction resident incomingShift observer_friday_call)
    else if isSaturdayDaytimeCall incomingShift
    then Some (buildShabbosRestriction resident incomingShift observer_saturday_daytime)
    else None
  else
    if isNightFloat incomingShift && negb (isSaturdayNightFloat incomingShift)
    then Some (buildShabbosRestriction resident incomingShift nonobserver_night_float)
    else None.

Fixpoint resolveShabbosRestrictionForSwap (shabbosObservers : gset string)
    (residentSwaps : list (Resident.t * Shift.t)) : option SwapRejectionReason :=
  match residentSwaps with
  | [] => None
  | (resident, incoming) :: rest =>
      match evaluateShabbosRestriction resident incoming shabbosObservers with
      | Some restriction => Some restriction
      | None => resolveShabbosRestrictionForSwap shabbosObservers rest
      end
  end.

End Rules.

Section Timeline.
Context {N : JsNumber} {H : Host}.

Definition assertShiftAllowed (shift : Shift.t) (cfg : RuleConfig.t) (resident : Resident.t)
  : attempt unit :=
  if (0 <? Z.of_nat (length (RuleConfig.typeWhitelist cfg)))
     && negb (includesType (RuleConfig.typeWhitelist cfg) (Shift.type shift))
  then Throw (RuleViolationError TYPE_WHITELIST (Resident.id resident)
                (MsgTypeNotInWhitelist (Shift.id shift) (Shift.type shift)))
  else if negb (includesType (Resident.eligibleShiftTypes resident) (Shift.type shift))
  then Throw (RuleViolationError ELIGIBILITY (Resident.id resident)
                (MsgNotEligible (Resident.id resident) (Shift.type shift)))
  else Ok tt.

Definition buildOverlapAdvisory (prev current : Shift.t) (resident : Resident.t)
    (softTypes : list ShiftType) : SwapAdvisory.t :=
  let '(backup, other) := selectBackupPair prev current softTypes in
  SwapAdvisory.mk ADVISORY_OVERLAP (Resident.id resident) (Shift.id backup) (Shift.id other)
    (MsgBackupOverlap (Shift.id other) (Shift.id backup)) None None.

Definition buildRestAdvisory (prev current : Shift.t) (resident : Resident.t)
    (softTypes : list ShiftType) (restHours restHoursMin : num) : SwapAdvisory.t :=
  let '(backup, other) := selectBackupPair prev current softTypes in
  SwapAdvisory.mk ADVISORY_REST_WINDOW (Resident.id resident) (Shift.id backup)
    (Shift.id other)
    (MsgBackupRest restHours restHoursMin (Shift.id prev) (Shift.id current) (Shift.id backup))
    (Some restHours) (Some restHoursMin).

(** [restHours < restHoursMin], where [restHours] is [NaN] ([None]) when a
    date is invalid: a comparison with [NaN] is false. *)
Definition restBelow (restHours : option num) (restHoursMin : num) : option num :=
  match restHours with
  | Some h => if ltb h restHoursMin then Some h else None
  | None => None
  end.

Definition evaluatePair (prev current : Shift.t) (cfg : RuleConfig.t)
    (resident : Resident.t) (softTypes : list ShiftType) : attempt (list SwapAdvisory.t) :=
  let advisories : list SwapAdvisory.t := [] in
  let involvesSoftType :=
    includesType softTypes (Shift.type prev) || includesType softTypes (Shift.type current) in
  bindAttempt
    (if hasOverlap (Shift.startISO prev) (Shift.endISO prev)
          (Shift.startISO current) (Shift.endISO current)
     then
       if involvesSoftType
       then Ok (advisories ++ [buildOverlapAdvisory prev current resident softTypes])
       else Throw (RuleViolationError OVERLAP (Resident.id resident)
                     (MsgOverlap (Shift.id prev) (Shift.id current) (Resident.id resident)))
     else Ok advisories)
    (fun advisories =>
       let restHoursMin := RuleConfig.restHoursMin cfg in
       if gtb restHoursMin (ofZ 0) then
         let restHours :=
           diffHours (dayjs (Shift.startISO current)) (dayjs (Shift.endISO prev)) in
         match restBelow restHours restHoursMin with
         | Some restHours =>
             if involvesSoftType
             then Ok (advisories ++
                        [buildRestAdvisory prev current resident softTypes
                           restHours restHoursMin])
             else Throw (RuleViolationError REST_WINDOW (Resident.id resident)
                           (MsgRestWindow restHours restHoursMin
                              (Shift.id prev) (Shift.id current)))
         | None => Ok advisories
         end
       else Ok advisories).

(** The first loop of [validateResidentTimeline]. *)
Fixpoint assertShiftsAllowed (sorted : list Shift.t) (cfg : RuleConfig.t)
    (resident : Resident.t) (focusShiftIds : option (gset string)) : attempt unit :=
  match sorted with
  | [] => Ok tt
  | shift :: rest =>
      let shouldEvaluateShift :=
        match focusShiftIds with
        | None => true
        | Some ids => bool_decide (Shift.id shift ∈ ids)
        end in
      if negb shouldEvaluateShift then assertShiftsAllowed rest cfg resident focusShiftIds
      else bindAttempt (assertShiftAllowed shift cfg resident)
             (fun _ => assertShiftsAllowed rest cfg resident focusShiftIds)
  end.

(** The second loop: the pairs [(sorted[i-1], sorted[i])] in order. *)
Fixpoint evaluateAdjacentPairs (sorted : list Shift.t) (cfg : RuleConfig.t) (resident : Resident.t)
    (focusShiftIds : option (gset string)) (softTypes : list ShiftType)
  : attempt (list SwapAdvisory.t) :=
  match sorted with
  | prev :: ((current :: _) as rest) =>
      if negb (shouldEvaluatePair prev current focusShiftIds)
      then evaluateAdjacentPairs rest cfg resident focusShiftIds softTypes
      else
        bindAttempt (evaluatePair prev current cfg resident softTypes) (fun found =>
          bindAttempt (evaluateAdjacentPairs rest cfg resident focusShiftIds softTypes)
            (fun advisories => Ok (found ++ advisories)))
  | _ => Ok []
  end.

Definition validateResidentTimeline (shifts : list Shift.t) (cfg : RuleConfig.t)
    (resident : Resident.t) (options : option TimelineValidationOptions.t)
  : attempt (list SwapAdvisory.t) :=
  let sorted :=
    stableSort
      (fun a b => 0 <? localeCompare (Shift.startISO a) (Shift.startISO b)) shifts in
  let focusShiftIds := options ≫= TimelineValidationOptions.focusShiftIds in
  let softTypes :=
    default EMPTY_SOFT_TYPES (options ≫= TimelineValidationOptions.softTypes) in
  bindAttempt (assertShiftsAllowed sorted cfg resident focusShiftIds) (fun _ =>
    evaluateAdjacentPairs sorted cfg resident focusShiftIds softTypes).

Definition prepareSwap (a b : option Shift.t) (ctx : option Context.t)
  : SwapRejectionReason + PreparedSwap.t :=
  match a, b, ctx with
  | Some a, Some b, Some ctx =>
      if String.eqb (Shift.id a) (Shift.id b)
      then inl (identical_shift (Shift.id a))
      else if String.eqb (Shift.residentId a) (Shift.residentId b)
      then inl (same_resident (Shift.residentId a) (Shift.id a) (Shift.id b))
      else
        match Context.residentsById ctx !! Shift.residentId a,
              Context.residentsById ctx !! Shift.residentId b with
        | Some residentA, Some residentB =>
            let tierA := getMosesTier a in
            let tierB := getMosesTier b in
            let mismatch :=                 (* tierA && tierB && tierA !== tierB *)
              match tierA, tierB with
              | Some tA, Some tB =>
                  if negb (bool_decide (tA = tB)) then Some (tA, tB) else None
              | _, _ => None
              end in
            match mismatch with
            | Some (tA, tB) => inl (moses_tier_mismatch (Shift.id a) (Shift.id b) tA tB)
            | None =>
                let weekendOrHolidayA := isWeekendOrHoliday a in
                let weekendOrHolidayB := isWeekendOrHoliday b in
                if negb (Bool.eqb weekendOrHolidayA weekendOrHolidayB)
                then inl (weekend_mismatch (Shift.id a) (Shift.id b)
                            weekendOrHolidayA weekendOrHolidayB)
                else
                  let typeWhitelist := RuleConfig.typeWhitelist (Context.ruleConfig ctx) in
                  if (0 <? Z.of_nat (length typeWhitelist))
                     && (negb (includesType typeWhitelist (Shift.type a))
                         || negb (includesType typeWhitelist (Shift.type b)))
                  then inl (type_whitelist typeWhitelist
                              (Shift.id a, Shift.type a) (Shift.id b, Shift.type b))
                  else if negb (includesType (Resident.eligibleShiftTypes residentA)
                                  (Shift.type b))
                  then inl (eligibility_a (Resident.id residentA) (Shift.type b)
                              (Resident.eligibleShiftTypes residentA)
                              (Shift.id a) (Shift.id b))
                  else if negb (includesType (Resident.eligibleShiftTypes residentB)
                                  (Shift.type a))
                  then inl (eligibility_b (Resident.id residentB) (Shift.type a)
                              (Resident.eligibleShiftTypes residentB)
                              (Shift.id a) (Shift.id b))
                  else inr (PreparedSwap.mk ctx a b residentA residentB)
            end
        | _, _ =>
            inl (resident_missing (Shift.residentId a) (Shift.residentId b)
                   (Shift.id a) (Shift.id b))
        end
  | _, _, _ => inl (missing_input (option_map Shift.id a) (option_map Shift.id b))
  end.

End Timeline.

Section EvaluateSwap.
Context {N : JsNumber} {H : Host}.

(** [advisories.length > 0 ? advisories : undefined] *)
Definition nonEmpty {A : Type} (l : list A) : option (list A) :=
  match l with
  | [] => None
  | _ => Some l
  end.

(** The [catch] clause of [evaluateSwap]; [advisories] is what had been
    collected when the exception was thrown. *)
Definition catchTimelineError (error : Thrown) (advisories : list SwapAdvisory.t)
    (shiftA shiftB : Shift.t) : SwapEvaluation :=
  match error with
  | RuleViolationError code residentId message =>
      Infeasible (rule_violation code message residentId (Shift.id shiftA) (Shift.id shiftB))
        (nonEmpty advisories)
  | OtherError message =>
      Infeasible (unexpected_error message (Shift.id shiftA) (Shift.id shiftB))
        (nonEmpty advisories)
  end.

Definition evaluateSwap (a b : option Shift.t) (ctx : option Context.t)
  : outcome SwapEvaluation :=
  match prepareSwap a b ctx with
  | inl failure => Returns (Infeasible failure None)
  | inr preparation =>
      let preparedCtx := PreparedSwap.ctx preparation in
      let shiftA := PreparedSwap.shiftA preparation in
      let shiftB := PreparedSwap.shiftB preparation in
      let residentA := PreparedSwap.residentA preparation in
      let residentB := PreparedSwap.residentB preparation in
      let timelineA :=
        List.filter (fun shift => negb (String.eqb (Shift.id shift) (Shift.id shiftA)))
          (default [] (Context.shiftsByResident preparedCtx !! Shift.residentId shiftA)) in
      let timelineB :=
        List.filter (fun shift => negb (String.eqb (Shift.id shift) (Shift.id shiftB)))
          (default [] (Context.shiftsByResident preparedCtx !! Shift.residentId shiftB)) in
      let swappedForA := Shift.withResidentId shiftB (Resident.id residentA) in
      let swappedForB := Shift.withResidentId shiftA (Resident.id residentB) in
      match resolveShabbosRestrictionForSwap (Context.shabbosObservers preparedCtx)
              [(residentA, swappedForA); (residentB, swappedForB)] with
      | Some shabbosRestriction => Returns (Infeasible shabbosRestriction None)
      | None =>
      bindOutcome (shiftVacationConflicts swappedForA residentA) (fun vacationConflictsA =>
      match vacationConflictsA with
      | _ :: _ =>
          Returns (Infeasible
                     (vacation_conflict (Resident.id residentA) (Shift.id swappedForA)
                        vacationConflictsA) None)
      | [] =>
      bindOutcome (shiftRotationConflicts swappedForA residentA) (fun rotationBlockA =>
      match rotationBlockA with
      | Some block =>
          Returns (Infeasible
                     (rotation_block (Resident.id residentA) (Shift.id swappedForA)
                        (RotationBlockConflict.rotation block)
                        (RotationBlockConflict.rotationWeekStartISO block)
                        (RotationBlockConflict.conflictDates block)) None)
      | None =>
      bindOutcome (shiftVacationConflicts swappedForB residentB) (fun vacationConflictsB =>
      match vacationConflictsB with
      | _ :: _ =>
          Returns (Infeasible
                     (vacation_conflict (Resident.id residentB) (Shift.id swappedForB)
                        vacationConflictsB) None)
      | [] =>
      bindOutcome (shiftRotationConflicts swappedForB residentB) (fun rotationBlockB =>
      match rotationBlockB with
      | Some block =>
          Returns (Infeasible
                     (rotation_block (Resident.id residentB) (Shift.id swappedForB)
                        (RotationBlockConflict.rotation block)
                        (RotationBlockConflict.rotationWeekStartISO block)
                        (RotationBlockConflict.conflictDates block)) None)
      | None =>
          let timelineA := timelineA ++ [swappedForA] in
          let timelineB := timelineB ++ [swappedForB] in
          let advisories : list SwapAdvisory.t := [] in
          match validateResidentTimeline timelineA (Context.ruleConfig preparedCtx) residentA
                  (Some (TimelineValidationOptions.mk
                           (Some {[Shift.id swappedForA]}) (Some BACKUP_SOFT_TYPES))) with
          | Throw error => Returns (catchTimelineError error advisories shiftA shiftB)
          | Ok foundA =>
              let advisories := advisories ++ foundA in
              match validateResidentTimeline timelineB (Context.ruleConfig preparedCtx)
                      residentB
                      (Some (TimelineValidationOptions.mk
                               (Some {[Shift.id swappedForB]}) (Some BACKUP_SOFT_TYPES))) with
              | Throw error => Returns (catchTimelineError error advisories shiftA shiftB)
              | Ok foundB =>
                  let advisories := advisories ++ foundB in
                  Returns (match advisories with
                           | [] => Feasible None
                           | _ => Feasible (Some advisories)
                           end)
              end
          end
      end)
      end)
      end)
      end)
      end
  end.

(** [isFeasibleSwap] (its logging left out). *)
Definition isFeasibleSwap (a b : Shift.t) (ctx : Context.t) : outcome bool :=
  bindOutcome (evaluateSwap (Some a) (Some b) (Some ctx)) (fun result =>
    Returns (match result with Feasible _ => true | Infeasible _ _ => false end)).

Definition explainSwap (a b : Shift.t) (ctx : Context.t) : outcome SwapEvaluation :=
  evaluateSwap (Some a) (Some b) (Some ctx).

End EvaluateSwap.

(** ** [src/utils/rotations.ts] *)

Section Rotations.
Context {H : Host}.

(** The last assignment of the list whose week (week start to week start
    plus 6 days) contains the day of the date. *)
Definition findRotationForDate (assignments : list RotationAssignment.t) (isoDate : string)
  : option RotationAssignment.t :=
  match assignments with
  | [] => None
  | _ =>
      match dayjs isoDate with
      | None => None
      | Some target =>
          let day := localDay target in
          find (fun assignment =>
                  match dayjs (RotationAssignment.weekStartISO assignment) with
                  | None => false
                  | Some weekStart =>
                      if day <? localDay weekStart then false     (* day.isBefore(weekStart, 'day') *)
                      else if localDay weekStart + 6 <? day then false   (* day.isAfter(weekEnd, 'day') *)
                      else true
                  end)
            (rev assignments)
      end
  end.

End Rotations.

(** ** [src/domain/simipar.ts] *)

(** Insertion-ordered [Map<string, V>] and [Set<string>] local to the scoring
    engine. *)
Fixpoint mapSet {V : Type} (k : string) (v : V) (m : list (string * V)) : list (string * V) :=
  match m with
  | [] => [(k, v)]
  | (k', v') :: r => if String.eqb k' k then (k', v) :: r else (k', v') :: mapSet k v r
  end.

Definition mapGet {V : Type} (k : string) (m : list (string * V)) : option V :=
  option_map snd (find (fun e => String.eqb (fst e) k) m).

Definition mapKeys {V : Type} (m : list (string * V)) : list string := map fst m.

(** [new Set(keys)]: the keys without repetition, in order of first
    occurrence. *)
Definition setOfList (keys : list string) : list string :=
  fold_left (fun acc k => if existsb (String.eqb k) acc then acc else acc ++ [k]) keys [].

Definition ROTATION_PRESSURE_PATTERNS : list RegExp := [
  word "gi";                                                           (* /\bgi\b/i *)
  Boundary :: lits "wet" ++ [Plus SpaceClass] ++ lits "desk" ++ [Boundary];
                                                                       (* /\bwet\s+desk\b/i *)
  word "angio";                                                        (* /\bangio\b/i *)
  Boundary :: lits "m" ++ [Star SpaceClass] ++ lits "neuro" ++ [Star SpaceClass]
    ++ lits "&" ++ [Star SpaceClass] ++ lits "procedures" ++ [Boundary]
                                                                       (* /\bm\s*neuro\s*&\s*procedures\b/i *)
].

Definition ROTATION_MAMMO_PATTERN : RegExp := lits "mammo".           (* /mammo/i *)

Definition isHighPressureRotationName (value : string) : bool :=
  if String.eqb value "" then false
  else
    let normalized := trim value in
    if String.eqb normalized "" then false
    else if test ROTATION_MAMMO_PATTERN normalized then true
    else existsb (fun pattern => test pattern normalized) ROTATION_PRESSURE_PATTERNS.

Definition isMosesSenior (shift : Shift.t) : bool :=
  if negb (bool_decide (Shift.type shift = MOSES)) then false
  else
    let location := toLowerCase (default "" (Shift.location shift)) in
    if includes location "senior" then true
    else
      let id := toLowerCase (Shift.id shift) in
      includes id "moses_sr".

Module ScenarioContribution.
Record t {N : JsNumber} := mk {
  shift : Shift.t;
  closeness : num;
  penalty : num
}.
Arguments mk {N}.
End ScenarioContribution.

Module ScenarioSummary.
Record t {N : JsNumber} := mk {
  contributions : list (string * ScenarioContribution.t);
  weightTotal : num
}.
Arguments mk {N}.
End ScenarioSummary.

Module Entry.
Record t {N : JsNumber} := mk {
  shift : Shift.t;
  before : option ScenarioContribution.t;
  after : option ScenarioContribution.t;
  weight : num
}.
Arguments mk {N}.
End Entry.

Module RotationPressureBonus.
Record t {N : JsNumber} := mk {
  value : num;
  label : option string
}.
Arguments mk {N}.
End RotationPressureBonus.

Inductive SectionKey := original | counterpart.
Inductive Mode := baseline | swapped.

Definition modeName (mode : Mode) : string :=
  match mode with baseline => "baseline" | swapped => "swapped" end.

Section Constants.
Context {N : JsNumber}.

Definition COMFORTABLE_REST_BUFFER_HOURS : num := ofZ 12.
Definition CALL_WINDOW_DAYS : num := ofZ 4.
Definition CALL_WINDOW_HOURS : num := (CALL_WINDOW_DAYS * ofZ 24)%num.
Definition ZERO_CALLS : list SwapPressureCall.t := [].
Definition MIN_CLOSENESS : num := (ofZ 1 / ofZ 1000)%num.          (* 1e-3 *)
Definition SCORE_SCALE : num := ofZ 100.
Definition IP_CONSULT_MISMATCH_PENALTY : num := ofZ (-50).
Definition ROTATION_PRESSURE_BONUS : num := ofZ 100.

End Constants.

Section Simipar.
Context {N : JsNumber} {H : Host}.

Definition buildZeroBreakdown (a b : option Shift.t) : SwapPressureBreakdown.t :=
  SwapPressureBreakdown.mk (ofZ 0) (ofZ 0) (ofZ 0)
    (SwapPressureSection.mk
       (default "" (option_map Shift.residentId a)) (default "" (option_map Shift.id a))
       CALL_WINDOW_HOURS ZERO_CALLS (ofZ 0) (ofZ 0) (ofZ 0))
    (SwapPressureSection.mk
       (default "" (option_map Shift.residentId b)) (default "" (option_map Shift.id b))
       CALL_WINDOW_HOURS ZERO_CALLS (ofZ 0) (ofZ 0) (ofZ 0)).

Definition computeGapHours (focusStart focusEnd otherStart otherEnd : Dayjs) : num :=
  match (match otherEnd, focusStart with
         | Some oe, Some fs =>
             if oe <=? fs then diffHours focusStart otherEnd else None
         | _, _ => None
         end) with
  | Some gap => gap
  | None =>
      match (match otherStart, focusEnd with
             | Some os, Some fe =>
                 if fe <=? os then diffHours otherStart focusEnd else None
             | _, _ => None
             end) with
      | Some gap => gap
      | None => ofZ 0
      end
  end.

Definition normaliseGap (value restMin comfortable : num) : num :=
  if negb (isFinite value) then ofZ 1
  else if (value <=? restMin)%num then ofZ 0
  else if geb value comfortable then ofZ 1
  else ((value - restMin) / (comfortable - restMin))%num.

Definition collectScenario (focusShift : Shift.t) (otherShifts : list Shift.t) (restMin : num)
  : ScenarioSummary.t :=
  let focusStart := dayjs (Shift.startISO focusShift) in
  let focusEnd := dayjs (Shift.endISO focusShift) in
  let comfortable := max (restMin + COMFORTABLE_REST_BUFFER_HOURS)%num CALL_WINDOW_HOURS in
  fold_left
    (fun (summary : ScenarioSummary.t) (other : Shift.t) =>
       if bool_decide (Shift.type other = BACKUP) then summary
       else
         let otherStart := dayjs (Shift.startISO other) in
         let otherEnd := dayjs (Shift.endISO other) in
         (* [None] is NaN: both comparisons below are then false *)
         let distanceHours := option_map abs (diffHours focusStart otherStart) in
         if match distanceHours with
            | Some d => gtb d CALL_WINDOW_HOURS
            | None => false
            end
         then summary
         else
           let closeness :=
             match distanceHours with
             | Some d =>
                 let closenessRaw := (ofZ 1 - d / CALL_WINDOW_HOURS)%num in
                 if gtb closenessRaw (ofZ 0) then closenessRaw else MIN_CLOSENESS
             | None => MIN_CLOSENESS
             end in
           let gapHours := computeGapHours focusStart focusEnd otherStart otherEnd in
           let restValue := normaliseGap gapHours restMin comfortable in
           let penalty := (- (ofZ 1 - restValue))%num in
           ScenarioSummary.mk
             (mapSet (Shift.id other) (ScenarioContribution.mk other closeness penalty)
                (ScenarioSummary.contributions summary))
             (ScenarioSummary.weightTotal summary + closeness)%num)
    otherShifts (ScenarioSummary.mk [] (ofZ 0)).

Definition resolveCallCalendarContext (shift : Shift.t) : option CalendarContext :=
  match Shift.isHoliday shift with
  | Some true => Some holiday
  | _ =>
      if isWeekend (Shift.startISO shift) || isWeekend (Shift.endISO shift)
      then Some weekend
      else None
  end.

(** The comparator of [calls.sort] is positive on [(a, b)]. *)
Definition callAfter (a b : SwapPressureCall.t) : bool :=
  let deltaMagnitude :=
    (abs (SwapPressureCall.delta b) - abs (SwapPressureCall.delta a))%num in
  if negb (deltaMagnitude =? ofZ 0)%num then gtb deltaMagnitude (ofZ 0)
  else
    let weightDiff := (SwapPressureCall.weight b - SwapPressureCall.weight a)%num in
    if negb (weightDiff =? ofZ 0)%num then gtb weightDiff (ofZ 0)
    else 0 <? localeCompare (SwapPressureCall.shiftId a) (SwapPressureCall.shiftId b).

Definition buildSection (baselineShift swappedShift : Shift.t) (otherShifts : list Shift.t)
    (restMin : num) : SwapPressureSection.t :=
  let baseline := collectScenario baselineShift otherShifts restMin in
  let swapped := collectScenario swappedShift otherShifts restMin in
  let mergedIds :=
    setOfList (mapKeys (ScenarioSummary.contributions baseline)
               ++ mapKeys (ScenarioSummary.contributions swapped)) in
  let entries : list Entry.t :=
    fold_left
      (fun entries shiftId =>
         let before := mapGet shiftId (ScenarioSummary.contributions baseline) in
         let after := mapGet shiftId (ScenarioSummary.contributions swapped) in
         match (match before with
                | Some c => Some (ScenarioContribution.shift c)
                | None => option_map ScenarioContribution.shift after
                end) with
         | None => entries
         | Some shift =>
             let weight :=
               max (default (ofZ 0) (option_map ScenarioContribution.closeness before))
                   (default (ofZ 0) (option_map ScenarioContribution.closeness after)) in
             if (weight <=? ofZ 0)%num then entries
             else entries ++ [Entry.mk shift before after weight]
         end)
      mergedIds [] in
  match entries with
  | [] =>
      SwapPressureSection.mk (Shift.residentId baselineShift) (Shift.id baselineShift)
        CALL_WINDOW_HOURS ZERO_CALLS (ofZ 0) (ofZ 0) (ofZ 0)
  | _ =>
      let totalWeight :=
        fold_left (fun sum entry => (sum + Entry.weight entry)%num) entries (ofZ 0) in
      let '(calls, baselineTotal, swappedTotal) :=
        fold_left
          (fun '(calls, baselineTotal, swappedTotal) entry =>
             let normalizedWeight :=
               if gtb totalWeight (ofZ 0) then (Entry.weight entry / totalWeight)%num
               else ofZ 0 in
             let baselineContribution :=
               match Entry.before entry with
               | Some c => (ScenarioContribution.penalty c * normalizedWeight)%num
               | None => ofZ 0
               end in
             let swappedContribution :=
               match Entry.after entry with
               | Some c => (ScenarioContribution.penalty c * normalizedWeight)%num
               | None => ofZ 0
               end in
             let deltaContribution := (swappedContribution - baselineContribution)%num in
             (calls ++
                [SwapPressureCall.mk
                   (Shift.id (Entry.shift entry)) (Shift.type (Entry.shift entry))
                   (Shift.startISO (Entry.shift entry)) (Shift.endISO (Entry.shift entry))
                   (Entry.weight entry) baselineContribution swappedContribution
                   deltaContribution
                   (resolveCallCalendarContext (Entry.shift entry)) None],
              (baselineTotal + baselineContribution)%num,
              (swappedTotal + swappedContribution)%num))
          entries ([], ofZ 0, ofZ 0) in
      let calls := stableSort callAfter calls in
      SwapPressureSection.mk (Shift.residentId baselineShift) (Shift.id baselineShift)
        CALL_WINDOW_HOURS calls baselineTotal swappedTotal
        (swappedTotal - baselineTotal)%num
  end.

Definition resolveShiftMultiplier (shift : Shift.t) : num :=
  if bool_decide (Shift.type shift = BACKUP) then ofZ 1
  else
    let weekendOrHoliday := isWeekendOrHoliday shift in
    let isNightFloat := bool_decide (Shift.type shift = NIGHT_FLOAT) in
    if negb weekendOrHoliday && negb isNightFloat then ofZ 1
    else if weekendOrHoliday && isNightFloat then ofZ 4 else ofZ 2.

Definition scaleBreakdown (breakdown : SwapPressureBreakdown.t) (factor : num)
  : SwapPressureBreakdown.t :=
  if negb (isFinite factor) || (factor =? ofZ 1)%num then breakdown
  else
    let scaleCall (call : SwapPressureCall.t) : SwapPressureCall.t :=
      SwapPressureCall.mk
        (SwapPressureCall.shiftId call) (SwapPressureCall.shiftType call)
        (SwapPressureCall.startISO call) (SwapPressureCall.endISO call)
        (SwapPressureCall.weight call)
        (SwapPressureCall.baseline call * factor)%num
        (SwapPressureCall.swapped call * factor)%num
        (SwapPressureCall.delta call * factor)%num
        (SwapPressureCall.calendarContext call) (SwapPressureCall.rotationLabel call) in
    let scaleSection (section : SwapPressureSection.t) : SwapPressureSection.t :=
      SwapPressureSection.mk
        (SwapPressureSection.residentId section) (SwapPressureSection.focusShiftId section)
        (SwapPressureSection.windowHours section)
        (match SwapPressureSection.calls section with
         | [] => SwapPressureSection.calls section
         | _ => map scaleCall (SwapPressureSection.calls section)
         end)
        (SwapPressureSection.baselineTotal section * factor)%num
        (SwapPressureSection.swappedTotal section * factor)%num
        (SwapPressureSection.deltaTotal section * factor)%num in
    SwapPressureBreakdown.mk
      (SwapPressureBreakdown.score breakdown * factor)%num
      (SwapPressureBreakdown.baselineScore breakdown * factor)%num
      (SwapPressureBreakdown.swappedScore breakdown * factor)%num
      (scaleSection (SwapPressureBreakdown.original breakdown))
      (scaleSection (SwapPressureBreakdown.counterpart breakdown)).

Definition hasAssociatedIpConsult (shift : Shift.t) (ctx : Context.t) : bool :=
  match Context.shiftsByResident ctx !! Shift.residentId shift with
  | None => false
  | Some residentShifts =>
      let targetDay := dayjs (Shift.startISO shift) in
      if negb (isValid targetDay) then false
      else
        existsb
          (fun other =>
             if String.eqb (Shift.id other) (Shift.id shift) then false
             else if negb (bool_decide (Shift.type other = IP_CONSULT)) then false
             else
               let otherDay := dayjs (Shift.startISO other) in
               isValid otherDay && isSameDay otherDay targetDay)
          residentShifts
  end.

Definition resolveIpConsultPenalty (a b : Shift.t) (ctx : Context.t) : num :=
  if negb (isMosesSenior a) || negb (isMosesSenior b) then ofZ 0
  else
    let aHasConsult := hasAssociatedIpConsult a ctx in
    let bHasConsult := hasAssociatedIpConsult b ctx in
    if Bool.eqb aHasConsult bHasConsult then ofZ 0
    else IP_CONSULT_MISMATCH_PENALTY.

Definition applyIpConsultPenalty (breakdown : SwapPressureBreakdown.t) (penalty : num)
    (originalShift counterpartShift : Shift.t) : SwapPressureBreakdown.t :=
  if negb (isFinite penalty) || (penalty =? ofZ 0)%num then breakdown
  else
    let share := (penalty / ofZ 2)%num in
    let appendPenalty (section : SwapPressureSection.t) (shift : Shift.t)
      : SwapPressureSection.t :=
      let penaltyCall :=
        SwapPressureCall.mk
          ("penalty:ip-consult:" +:+ Shift.id shift) (Shift.type shift)
          (Shift.startISO shift) (Shift.endISO shift)
          (ofZ 0) (ofZ 0) share share
          (resolveCallCalendarContext shift) (Some None) in
      SwapPressureSection.mk
        (SwapPressureSection.residentId section) (SwapPressureSection.focusShiftId section)
        (SwapPressureSection.windowHours section)
        (SwapPressureSection.calls section ++ [penaltyCall])
        (SwapPressureSection.baselineTotal section)
        (SwapPressureSection.swappedTotal section + share)%num
        (SwapPressureSection.deltaTotal section + share)%num in
    SwapPressureBreakdown.mk
      (SwapPressureBreakdown.score breakdown + penalty)%num
      (SwapPressureBreakdown.baselineScore breakdown)
      (SwapPressureBreakdown.swappedScore breakdown + penalty)%num
      (appendPenalty (SwapPressureBreakdown.original breakdown) originalShift)
      (appendPenalty (SwapPressureBreakdown.counterpart breakdown) counterpartShift).

End Simipar.

Section SwapPressure.
Context {N : JsNumber} {H : Host}.

Definition resolveRotationPressureBonus (resident : Resident.t) (shift : Shift.t)
  : RotationPressureBonus.t :=
  match Resident.rotations resident with
  | [] => RotationPressureBonus.mk (ofZ 0) None
  | _ =>
      match findRotationForDate (Resident.rotations resident) (Shift.startISO shift) with
      | None => RotationPressureBonus.mk (ofZ 0) None
      | Some assignment =>
          let rotationCandidates :=
            [RotationAssignment.rotation assignment;
             RotationAssignment.rawRotation assignment] in
          match find isHighPressureRotationName rotationCandidates with
          | None => RotationPressureBonus.mk (ofZ 0) None
          | Some matched =>
              (* matched.trim() || assignment.rotation || assignment.rawRotation || null *)
              let label :=
                if negb (String.eqb (trim matched) "") then Some (trim matched)
                else if negb (String.eqb (RotationAssignment.rotation assignment) "")
                then Some (RotationAssignment.rotation assignment)
                else if negb (String.eqb (RotationAssignment.rawRotation assignment) "")
                then Some (RotationAssignment.rawRotation assignment)
                else None in
              RotationPressureBonus.mk ROTATION_PRESSURE_BONUS label
          end
      end
  end.

Definition appendRotationPressureCall (breakdown : SwapPressureBreakdown.t)
    (sectionKey : SectionKey) (shift : Shift.t) (resident : Resident.t) (mode : Mode)
    (bonus : RotationPressureBonus.t) : SwapPressureBreakdown.t :=
  let section :=
    match sectionKey with
    | original => SwapPressureBreakdown.original breakdown
    | counterpart => SwapPressureBreakdown.counterpart breakdown
    end in
  let value := RotationPressureBonus.value bonus in
  let baseline := match mode with baseline => (- value)%num | swapped => ofZ 0 end in
  let swapped := match mode with baseline => ofZ 0 | swapped => (- value)%num end in
  let delta := match mode with baseline => value | swapped => (- value)%num end in
  let rotationCall :=
    SwapPressureCall.mk
      ("bonus:rotation:" +:+ modeName mode +:+ ":" +:+ Shift.id shift +:+ ":"
         +:+ Resident.id resident)
      (Shift.type shift) (Shift.startISO shift) (Shift.endISO shift)
      (ofZ 0) baseline swapped delta
      (resolveCallCalendarContext shift) (Some (RotationPressureBonus.label bonus)) in
  let updatedSection :=
    SwapPressureSection.mk
      (SwapPressureSection.residentId section) (SwapPressureSection.focusShiftId section)
      (SwapPressureSection.windowHours section)
      (SwapPressureSection.calls section ++ [rotationCall])
      (SwapPressureSection.baselineTotal section + baseline)%num
      (SwapPressureSection.swappedTotal section + swapped)%num
      (SwapPressureSection.deltaTotal section + delta)%num in
  SwapPressureBreakdown.mk
    (SwapPressureBreakdown.score breakdown + delta)%num
    (SwapPressureBreakdown.baselineScore breakdown + baseline)%num
    (SwapPressureBreakdown.swappedScore breakdown + swapped)%num
    (match sectionKey with
     | original => updatedSection
     | counterpart => SwapPressureBreakdown.original breakdown
     end)
    (match sectionKey with
     | counterpart => updatedSection
     | original => SwapPressureBreakdown.counterpart breakdown
     end).

Definition applyRotationPressure (breakdown : SwapPressureBreakdown.t)
    (originalShift counterpartShift : Shift.t)
    (originalResident counterpartResident : Resident.t) : SwapPressureBreakdown.t :=
  let updated := breakdown in
  let originalBaseline := resolveRotationPressureBonus originalResident originalShift in
  let updated :=
    if gtb (RotationPressureBonus.value originalBaseline) (ofZ 0)
    then appendRotationPressureCall updated original originalShift originalResident
           baseline originalBaseline
    else updated in
  let originalSwapped := resolveRotationPressureBonus originalResident counterpartShift in
  let updated :=
    if gtb (RotationPressureBonus.value originalSwapped) (ofZ 0)
    then appendRotationPressureCall updated original counterpartShift originalResident
           swapped originalSwapped
    else updated in
  let counterpartBaseline :=
    resolveRotationPressureBonus counterpartResident counterpartShift in
  let updated :=
    if gtb (RotationPressureBonus.value counterpartBaseline) (ofZ 0)
    then appendRotationPressureCall updated counterpart counterpartShift counterpartResident
           baseline counterpartBaseline
    else updated in
  let counterpartSwapped := resolveRotationPressureBonus counterpartResident originalShift in
  let updated :=
    if gtb (RotationPressureBonus.value counterpartSwapped) (ofZ 0)
    then appendRotationPressureCall updated counterpart originalShift counterpartResident
           swapped counterpartSwapped
    else updated in
  updated.

(** [calculateSwapPressure] up to and including [scaleBreakdown]: [None]
    on the paths that return the zero breakdown, otherwise the scaled
    breakdown together with the two residents. *)
Definition scaledSwapPressure (a b : Shift.t) (ctx : Context.t)
  : option (SwapPressureBreakdown.t * Resident.t * Resident.t) :=
  if String.eqb (Shift.id a) (Shift.id b)
     || String.eqb (Shift.residentId a) (Shift.residentId b)
  then None
  else
    match Context.residentsById ctx !! Shift.residentId a,
          Context.residentsById ctx !! Shift.residentId b with
    | Some residentA, Some residentB =>
        if negb (includesType (Resident.eligibleShiftTypes residentA) (Shift.type b))
        then None
        else if negb (includesType (Resident.eligibleShiftTypes residentB) (Shift.type a))
        then None
        else
          let otherShiftsA :=
            List.filter (fun shift => negb (String.eqb (Shift.id shift) (Shift.id a)))
              (default [] (Context.shiftsByResident ctx !! Shift.residentId a)) in
          let otherShiftsB :=
            List.filter (fun shift => negb (String.eqb (Shift.id shift) (Shift.id b)))
              (default [] (Context.shiftsByResident ctx !! Shift.residentId b)) in
          let restMin := max (ofZ 0) (RuleConfig.restHoursMin (Context.ruleConfig ctx)) in
          let originalSection :=
            buildSection a (Shift.withResidentId b (Resident.id residentA))
              otherShiftsA restMin in
          let counterpartSection :=
            buildSection b (Shift.withResidentId a (Resident.id residentB))
              otherShiftsB restMin in
          let baselineScore :=
            (SwapPressureSection.baselineTotal originalSection
             + SwapPressureSection.baselineTotal counterpartSection)%num in
          let swappedScore :=
            (SwapPressureSection.swappedTotal originalSection
             + SwapPressureSection.swappedTotal counterpartSection)%num in
          let deltaScore := (swappedScore - baselineScore)%num in
          let breakdown :=
            SwapPressureBreakdown.mk deltaScore baselineScore swappedScore
              originalSection counterpartSection in
          let multiplier :=
            (SCORE_SCALE * resolveShiftMultiplier a * resolveShiftMultiplier b)%num in
          Some (scaleBreakdown breakdown multiplier, residentA, residentB)
    | _, _ => None
    end.

Definition calculateSwapPressure (a b : Shift.t) (ctx : Context.t)
  : SwapPressureBreakdown.t :=
  let zero := buildZeroBreakdown (Some a) (Some b) in
  match scaledSwapPressure a b ctx with
  | None => zero
  | Some (scaledBreakdown, residentA, residentB) =>
      let penalty := resolveIpConsultPenalty a b ctx in
      let withConsultPenalty := applyIpConsultPenalty scaledBreakdown penalty a b in
      applyRotationPressure withConsultPenalty a b residentA residentB
  end.

Definition proximityPressure (a b : Shift.t) (ctx : Context.t) : num :=
  SwapPressureBreakdown.score (calculateSwapPressure a b ctx).

End SwapPressure.

(** ** [src/engine/contextTransfer.ts] and [src/engine/workerProtocol.ts] *)

Module SerializableContext.
Record t {N : JsNumber} := mk {
  ruleConfig : RuleConfig.t;
  residentsById : list (string * Resident.t);
  shiftsByResident : list (string * list Shift.t);
  shabbosObservers : list string
}.
Arguments mk {N}.
End SerializableContext.

Module ShiftPair.
Record t := mk { a : Shift.t; b : Shift.t }.
End ShiftPair.

Module DiagnosticSample.
Record t {N : JsNumber} := mk {
  reason : SwapRejectionReason;
  shiftA : string;
  shiftB : string
}.
Arguments mk {N}.
End DiagnosticSample.

Module EvaluationDiagnostics.
Record t {N : JsNumber} := mk {
  totalPairs : nat;
  accepted : nat;
  rejectionReasons : list (string * nat);
  samples : option (list DiagnosticSample.t)
}.
Arguments mk {N}.
End EvaluationDiagnostics.

Module WorkerIn.
(** [kind] is always ['evaluatePairs']. *)
Record t {N : JsNumber} := mk {
  pairs : list ShiftPair.t;
  ctx : SerializableContext.t
}.
Arguments mk {N}.
End WorkerIn.

Module WorkerOut.
(** [kind] is always ['pairsEvaluated']. *)
Record t {N : JsNumber} := mk {
  candidates : list SwapCandidate.t;
  chunkSize : nat;
  diagnostics : option EvaluationDiagnostics.t
}.
Arguments mk {N}.
End WorkerOut.

(** [new Map(entries)]: the entries are set in order, a later entry of the
    same key replaces the earlier value. *)
Definition mapOfEntries {V : Type} (entries : list (string * V)) : gmap string V :=
  fold_left (fun m e => <[fst e := snd e]> m) entries ∅.

Definition setOfEntries (entries : list string) : gset string :=
  fold_left (fun s e => {[e]} ∪ s) entries ∅.

Section ContextTransfer.
Context {N : JsNumber}.

Definition serializeContext (ctx : Context.t) : SerializableContext.t :=
  SerializableContext.mk
    (Context.ruleConfig ctx)
    (map_to_list (Context.residentsById ctx))
    (map_to_list (Context.shiftsByResident ctx))
    (elements (Context.shabbosObservers ctx)).

Definition hydrateContext (data : SerializableContext.t) : Context.t :=
  Context.mk
    (SerializableContext.ruleConfig data)
    (mapOfEntries (SerializableContext.residentsById data))
    (mapOfEntries (SerializableContext.shiftsByResident data))
    (setOfEntries (SerializableContext.shabbosObservers data)).

(** [reason.kind] *)
Definition kindOf (reason : SwapRejectionReason) : string :=
  match reason with
  | missing_input _ _ => "missing-input"
  | identical_shift _ => "identical-shift"
  | same_resident _ _ _ => "same-resident"
  | resident_missing _ _ _ _ => "resident-missing"
  | type_whitelist _ _ _ => "type-whitelist"
  | moses_tier_mismatch _ _ _ _ => "moses-tier-mismatch"
  | weekend_mismatch _ _ _ _ => "weekend-mismatch"
  | eligibility_a _ _ _ _ _ => "eligibility-a"
  | eligibility_b _ _ _ _ _ => "eligibility-b"
  | rule_violation _ _ _ _ _ => "rule-violation"
  | vacation_conflict _ _ _ => "vacation-conflict"
  | rotation_block _ _ _ _ _ => "rotation-block"
  | shabbos_restriction _ _ _ _ _ => "shabbos-restriction"
  | unexpected_error _ _ _ => "unexpected-error"
  end.

End ContextTransfer.

(** ** [src/engine/worker.ts] *)

Section Worker.
Context {N : JsNumber} {H : Host}.

(** The state of the loop over the pairs, in the worker and in
    [evaluatePairsSync]. *)
Record LoopState := mkLoopState {
  loopReasons : list (string * nat);
  loopSamples : list DiagnosticSample.t;
  loopCandidates : list SwapCandidate.t
}.

(** One iteration of the loop. *)
Definition evaluateOnePair (pr : ShiftPair.t) (ctx : Context.t) (state : LoopState)
  : outcome LoopState :=
  bindOutcome (explainSwap (ShiftPair.a pr) (ShiftPair.b pr) ctx) (fun evaluation =>
    match evaluation with
    | Infeasible reason _ =>
        let key := kindOf reason in
        let rejectionReasons :=
          mapSet key (default 0%nat (mapGet key (loopReasons state)) + 1)%nat
            (loopReasons state) in
        let samples :=
          if (length (loopSamples state) <? 10)%nat
          then loopSamples state
                 ++ [DiagnosticSample.mk reason (Shift.id (ShiftPair.a pr))
                       (Shift.id (ShiftPair.b pr))]
          else loopSamples state in
        Returns (mkLoopState rejectionReasons samples (loopCandidates state))
    | Feasible advisories =>
        let pressure := calculateSwapPressure (ShiftPair.a pr) (ShiftPair.b pr) ctx in
        let candidate :=
          SwapCandidate.mk (ShiftPair.a pr) (ShiftPair.b pr)
            (SwapPressureBreakdown.score pressure) pressure advisories in
        Returns (mkLoopState (loopReasons state) (loopSamples state)
                   (loopCandidates state ++ [candidate]))
    end).

Fixpoint evaluateLoop (pairs : list ShiftPair.t) (ctx : Context.t) (state : LoopState)
  : outcome LoopState :=
  match pairs with
  | [] => Returns state
  | pr :: rest =>
      bindOutcome (evaluateOnePair pr ctx state) (fun state' =>
        evaluateLoop rest ctx state')
  end.

(** [self.onmessage]: the response posted for a message. *)
Definition onmessage (message : WorkerIn.t) : outcome WorkerOut.t :=
  let ctx := hydrateContext (WorkerIn.ctx message) in
  bindOutcome (evaluateLoop (WorkerIn.pairs message) ctx (mkLoopState [] [] []))
    (fun state =>
       let candidates := loopCandidates state in
       Returns
         (WorkerOut.mk candidates (length (WorkerIn.pairs message))
            (Some (EvaluationDiagnostics.mk
                     (length (WorkerIn.pairs message))
                     (length candidates)
                     (loopReasons state)
                     (nonEmpty (loopSamples state)))))).

End Worker.

(** ** [src/engine/workerPool.ts] *)

(** What an [async] call comes to: resolved, rejected, or never settled. *)
Inductive promise (A : Type) :=
| Resolved (a : A)
| Rejected (message : string)
| Pending.
Arguments Resolved {A} a.
Arguments Rejected {A} message.
Arguments Pending {A}.

Module SwapWorkerPoolOptions.
(** [workerFactory]: [None] when the option is absent, [Some false] when
    it is [null], [Some true] when a factory is given. *)
Record t := mk {
  size : option nat;
  threshold : option nat;
  workerFactory : option bool
}.
End SwapWorkerPoolOptions.

Module Environment.
(** [typeof Worker !== 'undefined'] and [navigator.hardwareConcurrency]. *)
Record t := mk {
  hasWorker : bool;
  hardwareConcurrency : option nat
}.
End Environment.

Module SwapWorkerPool.
(** [spawnable] is [canSpawnWorkers(this.spawnability)]; [adapters] is the
    number of live adapters. *)
Record t := mk {
  threshold : nat;
  spawnable : bool;
  size : nat;
  adapters : nat;
  terminated : bool
}.
End SwapWorkerPool.

Definition CANDIDATE_WORKER_THRESHOLD : nat := 200.
Definition MAX_POOL_SIZE : nat := 4.

Definition detectPoolSize (env : Environment.t) (explicitSize : option nat) : nat :=
  match explicitSize with
  | Some (S n) => S n
  | _ =>
      let hardware :=
        match Environment.hardwareConcurrency env with
        | Some hc => Nat.max 1 (hc - 1)
        | None => 1%nat
        end in
      Nat.max 1 (Nat.min MAX_POOL_SIZE hardware)
  end.

(** [new SwapWorkerPool(options)] *)
Definition newSwapWorkerPool (env : Environment.t) (options : SwapWorkerPoolOptions.t)
  : SwapWorkerPool.t :=
  let threshold := default CANDIDATE_WORKER_THRESHOLD (SwapWorkerPoolOptions.threshold options) in
  let factory :=                    (* a factory is at hand *)
    match SwapWorkerPoolOptions.workerFactory options with
    | Some true => true
    | _ => Environment.hasWorker env
    end in
  let allowNoGlobalWorker :=
    match SwapWorkerPoolOptions.workerFactory options with Some _ => true | None => false end in
  let canSpawnWorkers :=
    if negb factory then false
    else if negb allowNoGlobalWorker && negb (Environment.hasWorker env) then false
    else true in
  SwapWorkerPool.mk threshold canSpawnWorkers
    (detectPoolSize env (SwapWorkerPoolOptions.size options)) 0 false.

(** The slices [pairs.slice(i, i + chunkSize)] for [i = 0, chunkSize, ...]
    below [pairs.length]; [fuel] bounds the number of slices. *)
Fixpoint sliceChunks {A : Type} (fuel chunkSize : nat) (pairs : list A) : list (list A) :=
  match fuel with
  | O => []
  | S fuel' =>
      match pairs with
      | [] => []
      | _ => take chunkSize pairs :: sliceChunks fuel' chunkSize (drop chunkSize pairs)
      end
  end.

Fixpoint mapOutcome {A B : Type} (f : A -> outcome B) (l : list A) : outcome (list B) :=
  match l with
  | [] => Returns []
  | x :: r =>
      bindOutcome (f x) (fun y => bindOutcome (mapOutcome f r) (fun ys => Returns (y :: ys)))
  end.

Section WorkerPool.
Context {N : JsNumber} {H : Host}.

Definition addReasonCounts (target source : list (string * nat)) : list (string * nat) :=
  fold_left
    (fun target entry =>
       mapSet (fst entry) (default 0%nat (mapGet (fst entry) target) + snd entry)%nat target)
    source target.

(** The samples of the entries in order, at most 10. *)
Definition collectSamples (entries : list EvaluationDiagnostics.t)
  : list DiagnosticSample.t :=
  take 10
    (flat_map (fun entry => default [] (EvaluationDiagnostics.samples entry)) entries).

Definition mergeDiagnostics (entries : list (option EvaluationDiagnostics.t))
  : option EvaluationDiagnostics.t :=
  let present := omap (fun entry => entry) entries in
  match present with
  | [] => None
  | _ =>
      let totalPairs :=
        fold_left (fun sum item => (sum + EvaluationDiagnostics.totalPairs item)%nat)
          present 0%nat in
      let accepted :=
        fold_left (fun sum item => (sum + EvaluationDiagnostics.accepted item)%nat)
          present 0%nat in
      let rejectionReasons :=
        fold_left
          (fun target entry =>
             addReasonCounts target (EvaluationDiagnostics.rejectionReasons entry))
          present [] in
      let samples := collectSamples present in
      Some (EvaluationDiagnostics.mk totalPairs accepted rejectionReasons
              (nonEmpty samples))
  end.

Definition evaluatePairsSync (pairs : list ShiftPair.t) (ctx : Context.t)
  : outcome (list SwapCandidate.t) :=
  bindOutcome (evaluateLoop pairs ctx (mkLoopState [] [] [])) (fun state =>
    Returns (loopCandidates state)).

Definition shouldUseWorkers (pool : SwapWorkerPool.t) (candidateCount : nat) : bool :=
  if negb (SwapWorkerPool.spawnable pool) then false
  else if (SwapWorkerPool.size pool <=? 1)%nat then false
  else (SwapWorkerPool.threshold pool <=? candidateCount)%nat.

(** The number of adapters after [ensureAdapters]. *)
Definition ensureAdapters (pool : SwapWorkerPool.t) : nat :=
  if (0 <? SwapWorkerPool.adapters pool)%nat || negb (SwapWorkerPool.spawnable pool)
  then SwapWorkerPool.adapters pool
  else SwapWorkerPool.size pool.

Definition promiseOf {A : Type} (o : outcome A) : promise A :=
  match o with
  | Returns a => Resolved a
  | Diverges => Pending
  end.

(** [SwapWorkerPool.evaluatePairs].  Every task is answered by
    [onmessage] of the worker it is posted to; [Promise.all] keeps the
    order of the tasks. *)
Definition evaluatePairs (pool : SwapWorkerPool.t) (pairs : list ShiftPair.t)
    (ctx : Context.t) : promise (list SwapCandidate.t) :=
  if SwapWorkerPool.terminated pool then Rejected "SwapWorkerPool has been terminated"
  else if negb (shouldUseWorkers pool (length pairs))
  then promiseOf (evaluatePairsSync pairs ctx)
  else
    let adapters := ensureAdapters pool in
    if (adapters =? 0)%nat then Rejected "Unable to spawn worker pool"
    else
      let serializedCtx := serializeContext ctx in
      let chunkSize := Nat.max 1 ((length pairs + adapters - 1) / adapters) in
      let messages :=
        map (fun chunk => WorkerIn.mk chunk serializedCtx)
          (sliceChunks (length pairs) chunkSize pairs) in
      match mapOutcome onmessage messages with
      | Diverges => Pending
      | Returns results =>
          let flattened := flat_map WorkerOut.candidates results in
          let diagnostics := mergeDiagnostics (map WorkerOut.diagnostics results) in
          let diagnosticsMismatch :=
            match diagnostics with
            | None => true
            | Some d => negb (EvaluationDiagnostics.accepted d =? length flattened)%nat
            end in
          if (0 <? length pairs)%nat && diagnosticsMismatch
          then promiseOf (evaluatePairsSync pairs ctx)
          else Resolved flattened
      end.

End WorkerPool.

(** ** [src/engine/swapEngine.ts] *)

Module Dataset.
Record t := mk {
  residents : list Resident.t;
  shifts : list Shift.t
}.
End Dataset.

Module SwapEngineOptions.
(** [today] is [dayjs(options.today)] when the option is given. *)
Record t := mk {
  today : option Dayjs;
  collectRejections : option bool
}.
End SwapEngineOptions.

Module PartialRuleConfig.
Record t {N : JsNumber} := mk {
  restHoursMin : option num;
  typeWhitelist : option (list ShiftType)
}.
Arguments mk {N}.
End PartialRuleConfig.

Inductive SwapRejectionCategory := general | shabbos.

(** The texts of [summarizeRejectionReason], as the template and the
    values it is filled with. *)
Inductive ReasonLabel {N : JsNumber} :=
| LabelRuleViolation (code : RuleViolationCode) (message : Message)
    (* `${reason.code}: ${reason.message}` *)
| LabelNotEligible (residentId : string) (attemptedType : ShiftType)
    (* `Resident ${reason.residentId} is not eligible for ${reason.attemptedType}` *)
| LabelNotWhitelisted (typeA typeB : ShiftType)
    (* `Shift types ${reason.shiftA.type} and ${reason.shiftB.type} are not whitelisted` *)
| LabelWeekendMismatch (shiftA shiftB : string)
    (* `Weekend/holiday mismatch between ${reason.shiftA} and ${reason.shiftB}` *)
| LabelTierMismatch (tierA tierB : MosesTier)
    (* `Moses tier mismatch (${reason.tierA} vs ${reason.tierB})` *)
| LabelSameResident (residentId shiftA shiftB : string)
    (* `Same resident (${reason.residentId}) cannot swap shifts ...` *)
| LabelResidentMissing (residentA residentB : string)
    (* `Missing resident data for ${reason.residentA} or ${reason.residentB}` *)
| LabelMissingInput
    (* 'Missing shift data in evaluation' *)
| LabelIdenticalShift (shiftId : string)
    (* `Shift ${reason.shiftId} cannot swap with itself` *)
| LabelVacationConflict (residentId : string)
    (* `Vacation conflict for resident ${reason.residentId}` *)
| LabelRotationBlock (rotation : string)
    (* `Rotation block conflict (${reason.rotation})` *)
| LabelShabbosRestriction (restriction : ShabbosRestriction) (residentId : string)
    (* `Shabbos restriction (${reason.restriction}) for resident ${reason.residentId}` *)
| LabelUnexpectedError (message : string).
    (* `Unexpected error: ${reason.message}` *)

Module SwapRejectionDetail.
Record t {N : JsNumber} := mk {
  a : Shift.t;
  b : Shift.t;
  score : num;
  pressure : SwapPressureBreakdown.t;
  reason : SwapRejectionReason;
  reasonLabel : ReasonLabel;
  category : SwapRejectionCategory
}.
Arguments mk {N}.
End SwapRejectionDetail.

Module SwapSearchResult.
Record t {N : JsNumber} := mk {
  accepted : list SwapCandidate.t;
  rejected : list SwapRejectionDetail.t
}.
Arguments mk {N}.
End SwapSearchResult.

Module RejectionSummary.
Record t {N : JsNumber} := mk {
  totalPairs : nat;
  accepted : nat;
  rejectionReasons : list (string * nat);
  samples : option (list DiagnosticSample.t)
}.
Arguments mk {N}.
End RejectionSummary.

(** [Array.from(new Set(types))]: the types without repetition, in order
    of first occurrence. *)
Definition distinctTypes (types : list ShiftType) : list ShiftType :=
  fold_left (fun acc t => if includesType acc t then acc else acc ++ [t]) types [].

(** [a.isBefore(b, 'day')]: the calendar day of [a] is before that of
    [b]; false when either date is invalid. *)
Definition isBeforeDay {H : Host} (a b : Dayjs) : bool :=
  match a, b with
  | Some x, Some y => localDay x <? localDay y
  | _, _ => false
  end.

(** [then] on the promise of an [async] call. *)
Definition bindPromise {A B : Type} (p : promise A) (k : A -> promise B) : promise B :=
  match p with
  | Resolved a => k a
  | Rejected message => Rejected message
  | Pending => Pending
  end.

Section SwapEngine.
Context {N : JsNumber} {H : Host}.

Definition DEFAULT_REST_HOURS_MIN : num := ofZ 8.

(** [resolveToday]: [now] is [dayjs()], the clock of the host.
    [startOf('day')] keeps the calendar day, which is all that
    [isBefore(today, 'day')] reads of [today]. *)
Definition resolveToday (now : Dayjs) (options : option SwapEngineOptions.t) : Dayjs :=
  match options with
  | Some opts => default now (SwapEngineOptions.today opts)
  | None => now
  end.

(** The loop of [buildContext] over [dataset.shifts]. *)
Definition groupShifts (shifts : list Shift.t) : gmap string (list Shift.t) :=
  fold_left
    (fun shiftsByResident s =>
       let arr := default [] (shiftsByResident !! Shift.residentId s) in
       <[Shift.residentId s := arr ++ [s]]> shiftsByResident)
    shifts ∅.

Definition buildContext (dataset : Dataset.t) (cfg : option PartialRuleConfig.t)
  : Context.t :=
  let residentsById :=
    mapOfEntries (map (fun r => (Resident.id r, r)) (Dataset.residents dataset)) in
  let shiftsByResident :=
    stableSort (fun a b => 0 <? localeCompare (Shift.startISO a) (Shift.startISO b))
      <$> groupShifts (Dataset.shifts dataset) in
  let shabbosObservers := resolveShabbosObservers shiftsByResident in
  Context.mk
    (RuleConfig.mk
       (default DEFAULT_REST_HOURS_MIN (cfg ≫= PartialRuleConfig.restHoursMin))
       (default (distinctTypes (map Shift.type (Dataset.shifts dataset)))
          (cfg ≫= PartialRuleConfig.typeWhitelist)))
    residentsById shiftsByResident shabbosObservers.

(** The state of the loop of [summarizeRejections]. *)
Record SummaryState := mkSummaryState {
  summaryCounts : list (string * nat);
  summarySamples : list DiagnosticSample.t;
  summaryAccepted : nat
}.

Fixpoint summarizeLoop (pairs : list ShiftPair.t) (ctx : Context.t) (state : SummaryState)
  : outcome SummaryState :=
  match pairs with
  | [] => Returns state
  | pr :: rest =>
      bindOutcome (explainSwap (ShiftPair.a pr) (ShiftPair.b pr) ctx) (fun evaluation =>
        match evaluation with
        | Infeasible reason _ =>
            let key := kindOf reason in
            let rejectionCounts :=
              mapSet key (default 0%nat (mapGet key (summaryCounts state)) + 1)%nat
                (summaryCounts state) in
            let samples :=
              if (length (summarySamples state) <? 10)%nat
              then summarySamples state
                     ++ [DiagnosticSample.mk reason (Shift.id (ShiftPair.a pr))
                           (Shift.id (ShiftPair.b pr))]
              else summarySamples state in
            summarizeLoop rest ctx
              (mkSummaryState rejectionCounts samples (summaryAccepted state))
        | Feasible _ =>
            summarizeLoop rest ctx
              (mkSummaryState (summaryCounts state) (summarySamples state)
                 (summaryAccepted state + 1)%nat)
        end)
  end.

Definition summarizeRejections (pairs : list ShiftPair.t) (ctx : Context.t)
  : outcome RejectionSummary.t :=
  bindOutcome (summarizeLoop pairs ctx (mkSummaryState [] [] 0%nat)) (fun state =>
    Returns
      (RejectionSummary.mk (length pairs) (summaryAccepted state) (summaryCounts state)
         (nonEmpty (summarySamples state)))).

Definition summarizeRejectionReason (reason : SwapRejectionReason) : ReasonLabel :=
  match reason with
  | rule_violation code message _ _ _ => LabelRuleViolation code message
  | eligibility_a residentId attemptedType _ _ _
  | eligibility_b residentId attemptedType _ _ _ =>
      LabelNotEligible residentId attemptedType
  | type_whitelist _ shiftA shiftB => LabelNotWhitelisted (snd shiftA) (snd shiftB)
  | weekend_mismatch shiftA shiftB _ _ => LabelWeekendMismatch shiftA shiftB
  | moses_tier_mismatch _ _ tierA tierB => LabelTierMismatch tierA tierB
  | same_resident residentId shiftA shiftB => LabelSameResident residentId shiftA shiftB
  | resident_missing residentA residentB _ _ => LabelResidentMissing residentA residentB
  | missing_input _ _ => LabelMissingInput
  | identical_shift shiftId => LabelIdenticalShift shiftId
  | vacation_conflict residentId _ _ => LabelVacationConflict residentId
  | rotation_block _ _ rotation _ _ => LabelRotationBlock rotation
  | shabbos_restriction residentId _ _ _ restriction =>
      LabelShabbosRestriction restriction residentId
  | unexpected_error message _ _ => LabelUnexpectedError message
  end.

Definition makePairKey (a b : Shift.t) : string :=
  Shift.id a +:+ "::" +:+ Shift.id b.

(** The loop of [collectRejectedSwaps]. *)
Fixpoint collectRejectedLoop (pairs : list ShiftPair.t) (acceptedKeys : gset string)
    (ctx : Context.t) (rejected : list SwapRejectionDetail.t)
  : outcome (list SwapRejectionDetail.t) :=
  match pairs with
  | [] => Returns rejected
  | pr :: rest =>
      let key := makePairKey (ShiftPair.a pr) (ShiftPair.b pr) in
      if bool_decide (key ∈ acceptedKeys)
      then collectRejectedLoop rest acceptedKeys ctx rejected
      else
        bindOutcome (explainSwap (ShiftPair.a pr) (ShiftPair.b pr) ctx) (fun evaluation =>
          match evaluation with
          | Feasible _ => collectRejectedLoop rest acceptedKeys ctx rejected
          | Infeasible reason _ =>
              let pressure :=
                calculateSwapPressure (ShiftPair.a pr) (ShiftPair.b pr) ctx in
              let category :=
                if String.eqb (kindOf reason) "shabbos-restriction" then shabbos
                else general in
              collectRejectedLoop rest acceptedKeys ctx
                (rejected
                   ++ [SwapRejectionDetail.mk (ShiftPair.a pr) (ShiftPair.b pr)
                         (SwapPressureBreakdown.score pressure) pressure reason
                         (summarizeRejectionReason reason) category])
          end)
  end.

Definition collectRejectedSwaps (pairs : list ShiftPair.t) (acceptedKeys : gset string)
    (ctx : Context.t) : outcome (list SwapRejectionDetail.t) :=
  bindOutcome (collectRejectedLoop pairs acceptedKeys ctx []) (fun rejected =>
    Returns
      (stableSort
         (fun left right =>
            gtb (SwapRejectionDetail.score right - SwapRejectionDetail.score left)%num
              (ofZ 0))
         rejected)).

(** [buildSearchResult]; the label and the formatter only reach the
    debug log. *)
Definition buildSearchResult (pairs : list ShiftPair.t) (ctx : Context.t)
    (evaluated : list SwapCandidate.t) (collectRejections : bool)
  : outcome SwapSearchResult.t :=
  let evaluated :=
    stableSort
      (fun x y => gtb (SwapCandidate.score y - SwapCandidate.score x)%num (ofZ 0))
      evaluated in
  bindOutcome
    (if (length evaluated =? 0)%nat
     then bindOutcome (summarizeRejections pairs ctx) (fun _ => Returns tt)
     else Returns tt)
    (fun _ =>
       bindOutcome
         (if collectRejections
          then collectRejectedSwaps pairs
                 (setOfEntries
                    (map (fun candidate =>
                            makePairKey (SwapCandidate.a candidate)
                              (SwapCandidate.b candidate))
                       evaluated))
                 ctx
          else Returns [])
         (fun rejected => Returns (SwapSearchResult.mk evaluated rejected))).

Definition isShiftInPast (shift : Shift.t) (today : Dayjs) : bool :=
  isBeforeDay (dayjs (Shift.startISO shift)) today.

Definition isEligibleCounterpart (target candidate : Shift.t) (residentId : string)
    (today : Dayjs) : bool :=
  if String.eqb (Shift.residentId candidate) residentId then false
  else if bool_decide (Shift.type candidate = BACKUP) then false
  else if negb (bool_decide (Shift.type target = Shift.type candidate)) then false
  else if String.eqb (Shift.id target) (Shift.id candidate) then false
  else if isShiftInPast candidate today then false
  else true.

Definition collectBestSwapPairs (dataset : Dataset.t) (residentId : string) (today : Dayjs)
  : list Shift.t * list ShiftPair.t :=
  let primary :=
    List.filter
      (fun shift =>
         String.eqb (Shift.residentId shift) residentId
         && negb (bool_decide (Shift.type shift = BACKUP)))
      (Dataset.shifts dataset) in
  let pairs :=
    flat_map
      (fun target =>
         if isShiftInPast target today then []
         else
           flat_map
             (fun candidate =>
                if negb (isEligibleCounterpart target candidate residentId today) then []
                else [ShiftPair.mk target candidate])
             (Dataset.shifts dataset))
      primary in
  (primary, pairs).

(** [findSwapsForShift]; [pool] is the pool of the module
    [workerPool.ts], [now] the clock. *)
Definition findSwapsForShift (pool : SwapWorkerPool.t) (now : Dayjs) (dataset : Dataset.t)
    (target : Shift.t) (options : option SwapEngineOptions.t)
  : promise SwapSearchResult.t :=
  let today := resolveToday now options in
  if isBeforeDay (dayjs (Shift.startISO target)) today
  then Resolved (SwapSearchResult.mk [] [])
  else
    let ctx := buildContext dataset None in
    let candidates :=
      List.filter
        (fun s =>
           negb (String.eqb (Shift.residentId s) (Shift.residentId target))
           && bool_decide (Shift.type s = Shift.type target)
           && negb (isBeforeDay (dayjs (Shift.startISO s)) today))
        (Dataset.shifts dataset) in
    let pairs := map (fun b => ShiftPair.mk target b) candidates in
    bindPromise (evaluatePairs pool pairs ctx) (fun evaluated =>
      promiseOf
        (buildSearchResult pairs ctx evaluated
           (default false (options ≫= SwapEngineOptions.collectRejections)))).

Definition findBestSwaps (pool : SwapWorkerPool.t) (now : Dayjs) (dataset : Dataset.t)
    (residentId : string) (options : option SwapEngineOptions.t)
  : promise SwapSearchResult.t :=
  let today := resolveToday now options in
  let '(primary, pairs) := collectBestSwapPairs dataset residentId today in
  if (length primary =? 0)%nat then Resolved (SwapSearchResult.mk [] [])
  else
    let ctx := buildContext dataset None in
    bindPromise (evaluatePairs pool pairs ctx) (fun evaluated =>
      promiseOf
        (buildSearchResult pairs ctx evaluated
           (default false (options ≫= SwapEngineOptions.collectRejections)))).

End SwapEngine.


(** ** A host

    A host whose local time zone is UTC, whose dates are written
    [YYYY-MM-DDTHH:mm:ssZ] or [YYYY-MM-DDTHH:mm:ss.sssZ], and whose collation
    is the order of the character codes.  It serves to run the engine on
    concrete schedules. *)

Module UtcHost.

Definition digitValue (c : ascii) : option Z :=
  let n := nat_of_ascii c in
  if (48 <=? n)%nat && (n <=? 57)%nat then Some (Z.of_nat n - 48) else None.

Fixpoint digitsValue (s : string) (acc : Z) : option Z :=
  match s with
  | EmptyString => Some acc
  | String c r =>
      match digitValue c with
      | Some d => digitsValue r (10 * acc + d)
      | None => None
      end
  end.

Definition field (s : string) (start len : nat) : option Z :=
  let part := String.substring start len s in
  if (String.length part =? len)%nat then digitsValue part 0 else None.

Definition charAt (s : string) (i : nat) (c : ascii) : bool :=
  match String.get i s with
  | Some x => Ascii.eqb x c
  | None => false
  end.

Definition parse (s : string) : option Z :=
  let n := String.length s in
  let millis :=
    if (n =? 20)%nat then (if charAt s 19 "Z" then Some 0 else None)
    else if (n =? 24)%nat
    then (if charAt s 19 "." && charAt s 23 "Z" then field s 20 3 else None)
    else None in
  if negb (charAt s 4 "-" && charAt s 7 "-" && charAt s 10 "T"
           && charAt s 13 ":" && charAt s 16 ":") then None
  else
    match field s 0 4, field s 5 2, field s 8 2,
          field s 11 2, field s 14 2, field s 17 2, millis with
    | Some y, Some m, Some d, Some hh, Some mm, Some ss, Some ms =>
        let days := daysFromCivil y m d in
        if negb (bool_decide (civilFromDays days = (y, m, d))) then None
        else if (23 <? hh) || (59 <? mm) || (59 <? ss) then None
        else Some (days * MILLISECONDS_A_DAY + hh * MILLISECONDS_A_HOUR
                   + mm * 60000 + ss * 1000 + ms)
    | _, _, _, _, _, _, _ => None
    end.

Definition compareStrings (a b : string) : Z :=
  match String.compare a b with
  | Lt => -1
  | Eq => 0
  | Gt => 1
  end.

Definition host : Host := {|
  parseDate := parse;
  utcOffset := fun _ => 0;
  localeCompare := compareStrings
|}.

End UtcHost.

(** * Properties *)

Section ShabbosProperties.
Context {H : Host}.

Lemma resolveShabbosObservers_spec (shiftsByResident : gmap string (list Shift.t)) r :
  r ∈ resolveShabbosObservers shiftsByResident <->
  exists shifts, shiftsByResident !! r = Some shifts
                 /\ existsb isSaturdayDaytimeCall shifts = false.
Proof.
  unfold resolveShabbosObservers. revert r.
  apply (map_fold_weak_ind
           (fun (acc : gset string) (m : gmap string (list Shift.t)) =>
              forall r, r ∈ acc <->
                exists shifts, m !! r = Some shifts
                               /\ existsb isSaturdayDaytimeCall shifts = false)).
  - intros r. split.
    + intros Hin. exfalso. revert Hin. apply not_elem_of_empty.
    + intros (shifts & Hl & _). rewrite lookup_empty in Hl. discriminate.
  - intros i x m acc Hnone IH r.
    destruct (decide (r = i)) as [-> | Hne].
    + rewrite lookup_insert_eq.
      destruct (existsb isSaturdayDaytimeCall x) eqn:Hx; simpl.
      * rewrite IH. split.
        -- intros (shifts & Hl & _). rewrite Hnone in Hl. discriminate.
        -- intros (shifts & Hl & Hs). inversion Hl; subst. congruence.
      * split.
        -- intros _. exists x. auto.
        -- intros _. apply elem_of_union_l, elem_of_singleton. reflexivity.
    + rewrite lookup_insert_ne by congruence.
      destruct (existsb isSaturdayDaytimeCall x) eqn:Hx; simpl.
      * apply IH.
      * rewrite elem_of_union, elem_of_singleton, IH. split.
        -- intros [Heq | Hex]; [congruence | exact Hex].
        -- intros Hex. right. exact Hex.
Qed.

Lemma saturdayNightFloat_passes (incoming : Shift.t) :
  isSaturdayNightFloat incoming = true ->
  isFridayCall incoming = false /\ isSaturdayDaytimeCall incoming = false.
Proof.
  unfold isSaturdayNightFloat, isFridayCall, isSaturdayDaytimeCall, isNightFloat.
  destruct (bool_decide (Shift.type incoming = NIGHT_FLOAT)) eqn:Hnf; simpl; [|discriminate].
  apply bool_decide_eq_true in Hnf. rewrite Hnf.
  destruct (dayjs (Shift.startISO incoming)) as [t|]; [|discriminate].
  intros Hsat. apply Z.eqb_eq in Hsat. rewrite Hsat. split; reflexivity.
Qed.

End ShabbosProperties.

Section RuleProperties.
Context {N : JsNumber} {H : Host}.

(** The incoming assignment is a night float that does not start on a
    Saturday. *)
Definition nonSaturdayNightFloat (incoming : Shift.t) : bool :=
  isNightFloat incoming && negb (isSaturdayNightFloat incoming).

Lemma evaluateShabbosRestriction_observer resident incoming (observers : gset string) :
  Resident.id resident ∈ observers ->
  evaluateShabbosRestriction resident incoming observers =
  if nonSaturdayNightFloat incoming
  then Some (buildShabbosRestriction resident incoming observer_night_float)
  else if isFridayCall incoming
  then Some (buildShabbosRestriction resident incoming observer_friday_call)
  else if isSaturdayDaytimeCall incoming
  then Some (buildShabbosRestriction resident incoming observer_saturday_daytime)
  else None.
Proof.
  intros Hin. unfold evaluateShabbosRestriction, nonSaturdayNightFloat.
  rewrite bool_decide_eq_true_2 by exact Hin. reflexivity.
Qed.

Lemma evaluateShabbosRestriction_nonobserver resident incoming (observers : gset string) :
  Resident.id resident ∉ observers ->
  evaluateShabbosRestriction resident incoming observers =
  if nonSaturdayNightFloat incoming
  then Some (buildShabbosRestriction resident incoming nonobserver_night_float)
  else None.
Proof.
  intros Hin. unfold evaluateShabbosRestriction, nonSaturdayNightFloat.
  rewrite bool_decide_eq_false_2 by exact Hin. reflexivity.
Qed.

Lemma evaluateShabbosRestriction_kind resident incoming (observers : gset string) reason :
  evaluateShabbosRestriction resident incoming observers = Some reason ->
  exists restriction, reason = buildShabbosRestriction resident incoming restriction.
Proof.
  unfold evaluateShabbosRestriction.
  repeat match goal with
         | |- context [if ?c then _ else _] => destruct c
         end; intros Heq; inversion Heq; eauto.
Qed.

(** What [evaluateSwap] does once [prepareSwap] has succeeded and the
    Shabbos check has passed: the part of its body from the vacation
    check on. *)
Lemma evaluateSwap_shabbos_rejects a b ctx prep reason :
  prepareSwap a b ctx = inr prep ->
  resolveShabbosRestrictionForSwap
    (Context.shabbosObservers (PreparedSwap.ctx prep))
    [(PreparedSwap.residentA prep,
      Shift.withResidentId (PreparedSwap.shiftB prep)
        (Resident.id (PreparedSwap.residentA prep)));
     (PreparedSwap.residentB prep,
      Shift.withResidentId (PreparedSwap.shiftA prep)
        (Resident.id (PreparedSwap.residentB prep)))] = Some reason ->
  evaluateSwap a b ctx = Returns (Infeasible reason None).
Proof.
  intros Hprep Hshab. unfold evaluateSwap. rewrite Hprep. cbv zeta.
  rewrite Hshab. reflexivity.
Qed.

Lemma catchTimelineError_kind error advisories shiftA shiftB reason advs :
  catchTimelineError error advisories shiftA shiftB = Infeasible reason advs ->
  kindOf reason = "rule-violation" \/ kindOf reason = "unexpected-error".
Proof.
  destruct error; simpl; intros Heq; inversion Heq; subst; simpl; auto.
Qed.

Lemma evaluateSwap_after_shabbos_kind a b ctx prep reason advs :
  prepareSwap a b ctx = inr prep ->
  resolveShabbosRestrictionForSwap
    (Context.shabbosObservers (PreparedSwap.ctx prep))
    [(PreparedSwap.residentA prep,
      Shift.withResidentId (PreparedSwap.shiftB prep)
        (Resident.id (PreparedSwap.residentA prep)));
     (PreparedSwap.residentB prep,
      Shift.withResidentId (PreparedSwap.shiftA prep)
        (Resident.id (PreparedSwap.residentB prep)))] = None ->
  evaluateSwap a b ctx = Returns (Infeasible reason advs) ->
  kindOf reason = "vacation-conflict" \/ kindOf reason = "rotation-block"
  \/ kindOf reason = "rule-violation" \/ kindOf reason = "unexpected-error".
Proof.
  intros Hprep Hshab. unfold evaluateSwap. rewrite Hprep. cbv zeta.
  rewrite Hshab. unfold bindOutcome.
  repeat match goal with
         | |- context [match ?x with _ => _ end] => destruct x eqn:?
         end;
    intros Heq; inversion Heq; subst; simpl; auto;
    match goal with
    | Hc : catchTimelineError _ _ _ _ = _ |- _ =>
        apply catchTimelineError_kind in Hc; tauto
    end.
Qed.


(** C5.  The Shabbos check, for each person's incoming assignment: an
    observer is refused exactly a night float that does not start on a
    Saturday, a call that starts on a Friday, or a Saturday daytime call;
    a non-observer exactly a night float that does not start on a
    Saturday; a Saturday night float is never refused; the reason is a
    [shabbos-restriction].  A swap that reaches the check is rejected
    with [shabbos-restriction] exactly when the check refuses one of the
    two incoming assignments.  The observers that [resolveShabbosObservers]
    derives are the persons of the schedule without a Saturday daytime
    call. *)
Theorem shabbos_restriction_exact :
  forall (resident : Resident.t) (incoming : Shift.t) (observers : gset string),
    (Resident.id resident ∈ observers ->
     (is_Some (evaluateShabbosRestriction resident incoming observers) <->
      nonSaturdayNightFloat incoming || isFridayCall incoming
      || isSaturdayDaytimeCall incoming = true))
    /\ (Resident.id resident ∉ observers ->
        (is_Some (evaluateShabbosRestriction resident incoming observers) <->
         nonSaturdayNightFloat incoming = true))
    /\ (isSaturdayNightFloat incoming = true ->
        evaluateShabbosRestriction resident incoming observers = None)
    /\ (forall reason,
           evaluateShabbosRestriction resident incoming observers = Some reason ->
           kindOf reason = "shabbos-restriction")
    /\ (forall a b ctx prep,
           prepareSwap a b ctx = inr prep ->
           let residentA := PreparedSwap.residentA prep in
           let residentB := PreparedSwap.residentB prep in
           let swappedForA :=
             Shift.withResidentId (PreparedSwap.shiftB prep) (Resident.id residentA) in
           let swappedForB :=
             Shift.withResidentId (PreparedSwap.shiftA prep) (Resident.id residentB) in
           let shabbosObservers := Context.shabbosObservers (PreparedSwap.ctx prep) in
           (exists reason advisories,
               evaluateSwap a b ctx = Returns (Infeasible reason advisories)
               /\ kindOf reason = "shabbos-restriction")
           <-> (is_Some (evaluateShabbosRestriction residentA swappedForA shabbosObservers)
                \/ is_Some (evaluateShabbosRestriction residentB swappedForB
                              shabbosObservers)))
    /\ (forall (shiftsByResident : gmap string (list Shift.t)) (r : string),
           r ∈ resolveShabbosObservers shiftsByResident <->
           exists shifts, shiftsByResident !! r = Some shifts
                          /\ existsb isSaturdayDaytimeCall shifts = false).
Proof.
  intros resident incoming observers.
  split; [|split; [|split; [|split; [|split]]]].
  - intros Hin. rewrite (evaluateShabbosRestriction_observer _ _ _ Hin).
    destruct (nonSaturdayNightFloat incoming); simpl.
    { split; [reflexivity | intros _; eexists; reflexivity]. }
    destruct (isFridayCall incoming); simpl.
    { split; [reflexivity | intros _; eexists; reflexivity]. }
    destruct (isSaturdayDaytimeCall incoming); simpl.
    { split; [reflexivity | intros _; eexists; reflexivity]. }
    split; [intros [x Hx]; discriminate | discriminate].
  - intros Hout. rewrite (evaluateShabbosRestriction_nonobserver _ _ _ Hout).
    destruct (nonSaturdayNightFloat incoming); simpl.
    { split; [reflexivity | intros _; eexists; reflexivity]. }
    split; [intros [x Hx]; discriminate | discriminate].
  - intros Hsat.
    destruct (saturdayNightFloat_passes incoming Hsat) as [Hfri Hday].
    unfold evaluateShabbosRestriction. rewrite Hsat, Hfri, Hday.
    rewrite andb_false_r. destruct (bool_decide _); reflexivity.
  - intros reason Hsome.
    destruct (evaluateShabbosRestriction_kind _ _ _ _ Hsome) as [restriction ->].
    reflexivity.
  - intros a b ctx prep Hprep residentA residentB swappedForA swappedForB shabbosObservers.
    destruct (resolveShabbosRestrictionForSwap shabbosObservers
                [(residentA, swappedForA); (residentB, swappedForB)]) as [found|] eqn:Hres.
    + split.
      * intros _. simpl in Hres.
        destruct (evaluateShabbosRestriction residentA swappedForA shabbosObservers).
        -- left. eexists; reflexivity.
        -- right.
           destruct (evaluateShabbosRestriction residentB swappedForB shabbosObservers);
             [eexists; reflexivity | discriminate].
      * intros _. exists found, None. split.
        -- apply (evaluateSwap_shabbos_rejects a b ctx prep found Hprep Hres).
        -- simpl in Hres.
           destruct (evaluateShabbosRestriction residentA swappedForA shabbosObservers)
             as [ra|] eqn:HA.
           ++ inversion Hres; subst.
              destruct (evaluateShabbosRestriction_kind _ _ _ _ HA) as [x ->]. reflexivity.
           ++ destruct (evaluateShabbosRestriction residentB swappedForB shabbosObservers)
                as [rb|] eqn:HB; [|discriminate].
              inversion Hres; subst.
              destruct (evaluateShabbosRestriction_kind _ _ _ _ HB) as [x ->]. reflexivity.
    + split.
      * intros (reason & advisories & Heval & Hkind).
        pose proof (evaluateSwap_after_shabbos_kind a b ctx prep reason advisories
                      Hprep Hres Heval) as Hk.
        rewrite Hkind in Hk. destruct Hk as [Hk | [Hk | [Hk | Hk]]]; discriminate.
      * simpl in Hres. intros [[x Hx] | [x Hx]].
        -- rewrite Hx in Hres. discriminate.
        -- rewrite Hx in Hres.
           destruct (evaluateShabbosRestriction residentA swappedForA shabbosObservers);
             discriminate.
  - intros shiftsByResident r. apply resolveShabbosObservers_spec.
Qed.

Lemma evaluateSwap_prepared_kind a b ctx prep reason advs :
  prepareSwap a b ctx = inr prep ->
  evaluateSwap a b ctx = Returns (Infeasible reason advs) ->
  kindOf reason = "shabbos-restriction"
  \/ kindOf reason = "vacation-conflict" \/ kindOf reason = "rotation-block"
  \/ kindOf reason = "rule-violation" \/ kindOf reason = "unexpected-error".
Proof.
  intros Hprep Heval.
  destruct (resolveShabbosRestrictionForSwap
              (Context.shabbosObservers (PreparedSwap.ctx prep))
              [(PreparedSwap.residentA prep,
                Shift.withResidentId (PreparedSwap.shiftB prep)
                  (Resident.id (PreparedSwap.residentA prep)));
               (PreparedSwap.residentB prep,
                Shift.withResidentId (PreparedSwap.shiftA prep)
                  (Resident.id (PreparedSwap.residentB prep)))]) as [found|] eqn:Hres.
  - rewrite (evaluateSwap_shabbos_rejects a b ctx prep found Hprep Hres) in Heval.
    inversion Heval; subst. left.
    simpl in Hres.
    destruct (evaluateShabbosRestriction (PreparedSwap.residentA prep) _ _) as [ra|] eqn:HA.
    + inversion Hres; subst.
      destruct (evaluateShabbosRestriction_kind _ _ _ _ HA) as [x ->]. reflexivity.
    + destruct (evaluateShabbosRestriction (PreparedSwap.residentB prep) _ _) as [rb|] eqn:HB;
        [|discriminate].
      inversion Hres; subst.
      destruct (evaluateShabbosRestriction_kind _ _ _ _ HB) as [x ->]. reflexivity.
  - right. exact (evaluateSwap_after_shabbos_kind a b ctx prep reason advs Hprep Hres Heval).
Qed.

Lemma getMosesTier_spec (shift : Shift.t) (tier : MosesTier) :
  getMosesTier shift = Some tier <->
  Shift.type shift = MOSES
  /\ (let location := toLowerCase (default "" (Shift.location shift)) in
      let id := toLowerCase (Shift.id shift) in
      if includes location "junior" || includes id "moses_jr" then tier = junior
      else includes location "senior" || includes id "moses_sr" = true /\ tier = senior).
Proof.
  unfold getMosesTier. cbv zeta.
  destruct (bool_decide (Shift.type shift = MOSES)) eqn:Ht; simpl.
  - apply bool_decide_eq_true in Ht.
    destruct (includes _ "junior" || includes _ "moses_jr").
    + split; [intros Heq; inversion Heq; auto | intros [_ ->]; reflexivity].
    + destruct (includes _ "senior" || includes _ "moses_sr").
      * split; [intros Heq; inversion Heq; auto | intros [_ [_ ->]]; reflexivity].
      * split; [discriminate | intros [_ [Hf _]]; discriminate].
  - apply bool_decide_eq_false in Ht. split; [discriminate | intros [Hm _]; contradiction].
Qed.

Lemma prepareSwap_tier_mismatch a b ctx sA sB tA tB :
  prepareSwap a b ctx = inl (moses_tier_mismatch sA sB tA tB) <->
  exists a' b' ctx',
    a = Some a' /\ b = Some b' /\ ctx = Some ctx'
    /\ Shift.id a' <> Shift.id b'
    /\ Shift.residentId a' <> Shift.residentId b'
    /\ is_Some (Context.residentsById ctx' !! Shift.residentId a')
    /\ is_Some (Context.residentsById ctx' !! Shift.residentId b')
    /\ getMosesTier a' = Some tA /\ getMosesTier b' = Some tB /\ tA <> tB
    /\ sA = Shift.id a' /\ sB = Shift.id b'.
Proof.
  split.
  - unfold prepareSwap.
    destruct a as [a'|]; [|discriminate].
    destruct b as [b'|]; [|discriminate].
    destruct ctx as [ctx'|]; [|discriminate].
    destruct (String.eqb (Shift.id a') (Shift.id b')) eqn:Hid; [discriminate|].
    destruct (String.eqb (Shift.residentId a') (Shift.residentId b')) eqn:Hres;
      [discriminate|].
    destruct (Context.residentsById ctx' !! Shift.residentId a') as [rA|] eqn:HrA;
      [|discriminate].
    destruct (Context.residentsById ctx' !! Shift.residentId b') as [rB|] eqn:HrB;
      [|discriminate].
    cbv zeta.
    destruct (getMosesTier a') as [ta|] eqn:HtA;
      destruct (getMosesTier b') as [tb|] eqn:HtB;
      try (repeat match goal with
                  | |- context [if ?c then _ else _] => destruct c
                  end; discriminate).
    destruct (bool_decide (ta = tb)) eqn:Hdec; simpl.
    + repeat match goal with
             | |- context [if ?c then _ else _] => destruct c
             end; discriminate.
    + intros Heq. inversion Heq; subst.
      apply bool_decide_eq_false in Hdec.
      apply String.eqb_neq in Hid. apply String.eqb_neq in Hres.
      exists a', b', ctx'. repeat split; eauto.
  - intros (a' & b' & ctx' & -> & -> & -> & Hid & Hres & [rA HrA] & [rB HrB]
            & HtA & HtB & Hne & -> & ->).
    unfold prepareSwap.
    apply String.eqb_neq in Hid. apply String.eqb_neq in Hres.
    rewrite Hid, Hres, HrA, HrB. cbv zeta. rewrite HtA, HtB.
    rewrite bool_decide_eq_false_2 by exact Hne. reflexivity.
Qed.


(** *** The body of [evaluateSwap], phase by phase *)

(** The vacation check and the rotation-block check of one person. *)
Definition calendarCheck (incoming : Shift.t) (resident : Resident.t)
  : outcome (option SwapRejectionReason) :=
  bindOutcome (shiftVacationConflicts incoming resident) (fun conflicts =>
    match conflicts with
    | _ :: _ =>
        Returns (Some (vacation_conflict (Resident.id resident) (Shift.id incoming)
                         conflicts))
    | [] =>
        bindOutcome (shiftRotationConflicts incoming resident) (fun found =>
          Returns
            (option_map
               (fun block =>
                  rotation_block (Resident.id resident) (Shift.id incoming)
                    (RotationBlockConflict.rotation block)
                    (RotationBlockConflict.rotationWeekStartISO block)
                    (RotationBlockConflict.conflictDates block))
               found))
    end).

(** The timeline of the owner of [given] after the swap. *)
Definition swappedTimeline (ctx : Context.t) (given incoming : Shift.t) : list Shift.t :=
  List.filter (fun shift => negb (String.eqb (Shift.id shift) (Shift.id given)))
    (default [] (Context.shiftsByResident ctx !! Shift.residentId given))
  ++ [incoming].

(** The re-validation of one person's timeline. *)
Definition revalidate (ctx : Context.t) (resident : Resident.t) (given incoming : Shift.t)
  : attempt (list SwapAdvisory.t) :=
  validateResidentTimeline (swappedTimeline ctx given incoming) (Context.ruleConfig ctx)
    resident
    (Some (TimelineValidationOptions.mk (Some {[Shift.id incoming]})
             (Some BACKUP_SOFT_TYPES))).

(** The [try] block and its [catch]. *)
Definition timelinePhase (ctx : Context.t) (residentA residentB : Resident.t)
    (shiftA shiftB : Shift.t) : SwapEvaluation :=
  let swappedForA := Shift.withResidentId shiftB (Resident.id residentA) in
  let swappedForB := Shift.withResidentId shiftA (Resident.id residentB) in
  match revalidate ctx residentA shiftA swappedForA with
  | Throw error => catchTimelineError error [] shiftA shiftB
  | Ok foundA =>
      match revalidate ctx residentB shiftB swappedForB with
      | Throw error => catchTimelineError error foundA shiftA shiftB
      | Ok foundB =>
          match foundA ++ foundB with
          | [] => Feasible None
          | advisories => Feasible (Some advisories)
          end
      end
  end.

Definition afterPrepare (ctx : Context.t) (residentA residentB : Resident.t)
    (shiftA shiftB : Shift.t) : outcome SwapEvaluation :=
  let swappedForA := Shift.withResidentId shiftB (Resident.id residentA) in
  let swappedForB := Shift.withResidentId shiftA (Resident.id residentB) in
  match resolveShabbosRestrictionForSwap (Context.shabbosObservers ctx)
          [(residentA, swappedForA); (residentB, swappedForB)] with
  | Some restriction => Returns (Infeasible restriction None)
  | None =>
      bindOutcome (calendarCheck swappedForA residentA) (fun checkA =>
        match checkA with
        | Some reason => Returns (Infeasible reason None)
        | None =>
            bindOutcome (calendarCheck swappedForB residentB) (fun checkB =>
              match checkB with
              | Some reason => Returns (Infeasible reason None)
              | None => Returns (timelinePhase ctx residentA residentB shiftA shiftB)
              end)
        end)
  end.

Lemma evaluateSwap_phases a b ctx :
  evaluateSwap a b ctx =
  match prepareSwap a b ctx with
  | inl failure => Returns (Infeasible failure None)
  | inr prep =>
      afterPrepare (PreparedSwap.ctx prep) (PreparedSwap.residentA prep)
        (PreparedSwap.residentB prep) (PreparedSwap.shiftA prep) (PreparedSwap.shiftB prep)
  end.
Proof.
  unfold evaluateSwap. destruct (prepareSwap a b ctx) as [failure|prep]; [reflexivity|].
  cbv zeta. unfold afterPrepare. cbv zeta.
  destruct (resolveShabbosRestrictionForSwap _ _); [reflexivity|].
  unfold calendarCheck, timelinePhase, revalidate, swappedTimeline, bindOutcome.
  cbv zeta.
  destruct (shiftVacationConflicts _ (PreparedSwap.residentA prep)) as [[|d ds]|];
    try reflexivity.
  destruct (shiftRotationConflicts _ (PreparedSwap.residentA prep)) as [[blk|]|];
    try reflexivity.
  simpl.
  destruct (shiftVacationConflicts _ (PreparedSwap.residentB prep)) as [[|d ds]|];
    try reflexivity.
  destruct (shiftRotationConflicts _ (PreparedSwap.residentB prep)) as [[blk|]|];
    try reflexivity.
  simpl.
  destruct (validateResidentTimeline _ _ (PreparedSwap.residentA prep) _); [|reflexivity].
  destruct (validateResidentTimeline _ _ (PreparedSwap.residentB prep) _); [|reflexivity].
  destruct (_ ++ _); reflexivity.
Qed.

(** *** Symmetry *)

(** [result.feasible] of a call that returned; a call that does not
    return accepts nothing. *)
Definition accepted (result : outcome SwapEvaluation) : bool :=
  match result with
  | Returns (Feasible _) => true
  | _ => false
  end.

Definition passes (check : outcome (option SwapRejectionReason)) : bool :=
  match check with
  | Returns None => true
  | _ => false
  end.

Definition succeeds {A : Type} (x : attempt A) : bool :=
  match x with
  | Ok _ => true
  | Throw _ => false
  end.

Definition refuses {A : Type} (x : option A) : bool :=
  match x with
  | Some _ => true
  | None => false
  end.

Lemma afterPrepare_accepted ctx residentA residentB shiftA shiftB :
  accepted (afterPrepare ctx residentA residentB shiftA shiftB) =
  let swappedForA := Shift.withResidentId shiftB (Resident.id residentA) in
  let swappedForB := Shift.withResidentId shiftA (Resident.id residentB) in
  negb (refuses (evaluateShabbosRestriction residentA swappedForA
                   (Context.shabbosObservers ctx)))
  && negb (refuses (evaluateShabbosRestriction residentB swappedForB
                      (Context.shabbosObservers ctx)))
  && passes (calendarCheck swappedForA residentA)
  && passes (calendarCheck swappedForB residentB)
  && succeeds (revalidate ctx residentA shiftA swappedForA)
  && succeeds (revalidate ctx residentB shiftB swappedForB).
Proof.
  cbv zeta. unfold afterPrepare, timelinePhase. cbv zeta. simpl.
  destruct (evaluateShabbosRestriction residentA _ _); simpl; [reflexivity|].
  destruct (evaluateShabbosRestriction residentB _ _); simpl; [reflexivity|].
  destruct (calendarCheck _ residentA) as [[rA|]|]; simpl; try reflexivity.
  destruct (calendarCheck _ residentB) as [[rB|]|]; simpl; try reflexivity.
  destruct (revalidate ctx residentA _ _) as [foundA|eA]; simpl.
  - destruct (revalidate ctx residentB _ _) as [foundB|eB]; simpl.
    + destruct (foundA ++ foundB); reflexivity.
    + destruct eB; reflexivity.
  - destruct eA; reflexivity.
Qed.

Lemma afterPrepare_symmetric ctx residentA residentB shiftA shiftB :
  accepted (afterPrepare ctx residentA residentB shiftA shiftB) =
  accepted (afterPrepare ctx residentB residentA shiftB shiftA).
Proof.
  rewrite !afterPrepare_accepted. cbv zeta.
  repeat match goal with
         | |- context [negb (refuses ?x)] =>
             let y := fresh "s" in set (y := negb (refuses x))
         | |- context [passes ?x] => let y := fresh "c" in set (y := passes x)
         | |- context [succeeds ?x] => let y := fresh "t" in set (y := succeeds x)
         end.
  repeat match goal with x := _ : bool |- _ => clearbody x end.
  repeat match goal with x : bool |- _ => destruct x end; reflexivity.
Qed.

Lemma prepareSwap_symmetric a b ctx prep :
  prepareSwap a b ctx = inr prep ->
  prepareSwap b a ctx =
  inr (PreparedSwap.mk (PreparedSwap.ctx prep) (PreparedSwap.shiftB prep)
         (PreparedSwap.shiftA prep) (PreparedSwap.residentB prep)
         (PreparedSwap.residentA prep)).
Proof.
  unfold prepareSwap.
  destruct a as [a'|]; [|discriminate].
  destruct b as [b'|]; [|discriminate].
  destruct ctx as [ctx'|]; [|discriminate].
  rewrite (String.eqb_sym (Shift.id b') (Shift.id a')).
  rewrite (String.eqb_sym (Shift.residentId b') (Shift.residentId a')).
  destruct (String.eqb (Shift.id a') (Shift.id b')); [discriminate|].
  destruct (String.eqb (Shift.residentId a') (Shift.residentId b')); [discriminate|].
  destruct (Context.residentsById ctx' !! Shift.residentId a') as [rA|]; [|discriminate].
  destruct (Context.residentsById ctx' !! Shift.residentId b') as [rB|]; [|discriminate].
  cbv zeta.
  assert (Htier :
    match getMosesTier b', getMosesTier a' with
    | Some tA, Some tB => if negb (bool_decide (tA = tB)) then Some (tA, tB) else None
    | _, _ => None
    end = None <->
    match getMosesTier a', getMosesTier b' with
    | Some tA, Some tB => if negb (bool_decide (tA = tB)) then Some (tA, tB) else None
    | _, _ => None
    end = None).
  { destruct (getMosesTier a') as [[|]|], (getMosesTier b') as [[|]|]; simpl;
      split; congruence. }
  destruct (match getMosesTier a', getMosesTier b' with
            | Some tA, Some tB => if negb (bool_decide (tA = tB)) then Some (tA, tB) else None
            | _, _ => None
            end) as [[tA tB]|] eqn:Hab; [discriminate|].
  rewrite (proj2 Htier eq_refl).
  replace (Bool.eqb (isWeekendOrHoliday b') (isWeekendOrHoliday a'))
    with (Bool.eqb (isWeekendOrHoliday a') (isWeekendOrHoliday b'))
    by (destruct (isWeekendOrHoliday a'), (isWeekendOrHoliday b'); reflexivity).
  destruct (Bool.eqb (isWeekendOrHoliday a') (isWeekendOrHoliday b')); simpl;
    [|discriminate].
  rewrite (orb_comm (negb (includesType _ (Shift.type b')))).
  destruct (_ && (_ || _)); [discriminate|].
  destruct (includesType (Resident.eligibleShiftTypes rA) (Shift.type b')); simpl;
    [|discriminate].
  destruct (includesType (Resident.eligibleShiftTypes rB) (Shift.type a')); simpl;
    [|discriminate].
  intros Heq. inversion Heq; subst. reflexivity.
Qed.

(** C1.  Feasibility is symmetric: [evaluate(A, B, ctx)] accepts exactly
    when [evaluate(B, A, ctx)] accepts, for all shifts (present or not)
    and every context; so are the answers of [isFeasibleSwap]. *)
Theorem feasibility_symmetric :
  forall (a b : option Shift.t) (ctx : option Context.t),
    accepted (evaluateSwap a b ctx) = accepted (evaluateSwap b a ctx)
    /\ (forall a' b' ctx',
           a = Some a' -> b = Some b' -> ctx = Some ctx' ->
           (isFeasibleSwap a' b' ctx' = Returns true <->
            isFeasibleSwap b' a' ctx' = Returns true)).
Proof.
  assert (Hsym : forall (a b : option Shift.t) (ctx : option Context.t),
             accepted (evaluateSwap a b ctx) = accepted (evaluateSwap b a ctx)).
  { intros a b ctx. rewrite !evaluateSwap_phases.
    destruct (prepareSwap a b ctx) as [failure|prep] eqn:Hab.
    - destruct (prepareSwap b a ctx) as [failure'|prep'] eqn:Hba; [reflexivity|].
      apply prepareSwap_symmetric in Hba. rewrite Hab in Hba. discriminate.
    - rewrite (prepareSwap_symmetric a b ctx prep Hab). simpl.
      apply afterPrepare_symmetric. }
  intros a b ctx. split; [apply Hsym|].
  intros a' b' ctx' -> -> ->.
  assert (Hfeasible : forall x y,
             isFeasibleSwap x y ctx' = Returns true <->
             accepted (evaluateSwap (Some x) (Some y) (Some ctx')) = true).
  { intros x y. unfold isFeasibleSwap, accepted, bindOutcome.
    destruct (evaluateSwap (Some x) (Some y) (Some ctx')) as [[advs|reason advs]|];
      split; congruence. }
  rewrite !Hfeasible, (Hsym (Some a') (Some b') (Some ctx')). reflexivity.
Qed.

(** *** The pair check and the timeline re-validation *)

Definition thrownCode (error : Thrown) : option RuleViolationCode :=
  match error with
  | RuleViolationError code _ _ => Some code
  | OtherError _ => None
  end.

Definition involvesSoft (softTypes : list ShiftType) (prev current : Shift.t) : bool :=
  includesType softTypes (Shift.type prev) || includesType softTypes (Shift.type current).

Definition overlaps (prev current : Shift.t) : bool :=
  hasOverlap (Shift.startISO prev) (Shift.endISO prev)
    (Shift.startISO current) (Shift.endISO current).

(** The rest between the end of [prev] and the start of [current], in
    hours. *)
Definition restHoursBetween (prev current : Shift.t) : option num :=
  diffHours (dayjs (Shift.startISO current)) (dayjs (Shift.endISO prev)).

Lemma assertShiftAllowed_throws shift cfg resident error :
  assertShiftAllowed shift cfg resident = Throw error ->
  thrownCode error = Some TYPE_WHITELIST \/ thrownCode error = Some ELIGIBILITY.
Proof.
  unfold assertShiftAllowed.
  destruct (_ && _); [intros Heq; inversion Heq; subst; simpl; auto|].
  destruct (negb _); intros Heq; inversion Heq; subst; simpl; auto.
Qed.

Lemma assertShiftsAllowed_throws sorted cfg resident focus error :
  assertShiftsAllowed sorted cfg resident focus = Throw error ->
  thrownCode error = Some TYPE_WHITELIST \/ thrownCode error = Some ELIGIBILITY.
Proof.
  induction sorted as [|shift rest IH]; simpl; [discriminate|].
  destruct (negb _); [exact IH|].
  destruct (assertShiftAllowed shift cfg resident) as [[]|e] eqn:Hone; simpl.
  - exact IH.
  - intros Heq. inversion Heq; subst. eapply assertShiftAllowed_throws; eauto.
Qed.

(** The pair check on a pair without a soft type. *)
Lemma evaluatePair_hard prev current cfg resident softTypes :
  involvesSoft softTypes prev current = false ->
  evaluatePair prev current cfg resident softTypes =
  if overlaps prev current
  then Throw (RuleViolationError OVERLAP (Resident.id resident)
                (MsgOverlap (Shift.id prev) (Shift.id current) (Resident.id resident)))
  else if gtb (RuleConfig.restHoursMin cfg) (ofZ 0)
  then match restBelow (restHoursBetween prev current) (RuleConfig.restHoursMin cfg) with
       | Some restHours =>
           Throw (RuleViolationError REST_WINDOW (Resident.id resident)
                    (MsgRestWindow restHours (RuleConfig.restHoursMin cfg)
                       (Shift.id prev) (Shift.id current)))
       | None => Ok []
       end
  else Ok [].
Proof.
  unfold involvesSoft, overlaps, restHoursBetween, evaluatePair. cbv zeta.
  intros ->.
  destruct (hasOverlap _ _ _ _); simpl; [reflexivity|].
  destruct (gtb _ _); [|reflexivity].
  destruct (restBelow _ _); reflexivity.
Qed.

(** The pair check when the minimum is not positive. *)
Lemma evaluatePair_no_minimum prev current cfg resident softTypes :
  gtb (RuleConfig.restHoursMin cfg) (ofZ 0) = false ->
  evaluatePair prev current cfg resident softTypes =
  if overlaps prev current
  then if involvesSoft softTypes prev current
       then Ok [buildOverlapAdvisory prev current resident softTypes]
       else Throw (RuleViolationError OVERLAP (Resident.id resident)
                     (MsgOverlap (Shift.id prev) (Shift.id current) (Resident.id resident)))
  else Ok [].
Proof.
  unfold involvesSoft, overlaps, evaluatePair. cbv zeta. intros Hmin.
  destruct (hasOverlap _ _ _ _); simpl.
  - destruct (_ || _); simpl; [rewrite Hmin|]; reflexivity.
  - rewrite Hmin. reflexivity.
Qed.

Lemma buildOverlapAdvisory_code prev current resident softTypes :
  SwapAdvisory.code (buildOverlapAdvisory prev current resident softTypes)
  = ADVISORY_OVERLAP.
Proof.
  unfold buildOverlapAdvisory. destruct (selectBackupPair _ _ _). reflexivity.
Qed.

Definition onlyOverlapAdvisories (advisories : list SwapAdvisory.t) : Prop :=
  Forall (fun advisory => SwapAdvisory.code advisory = ADVISORY_OVERLAP) advisories.

(** What may come out of a check when the minimum is not positive. *)
Definition noRestWindow (x : attempt (list SwapAdvisory.t)) : Prop :=
  match x with
  | Ok advisories => onlyOverlapAdvisories advisories
  | Throw error => thrownCode error = Some OVERLAP
                   \/ thrownCode error = Some TYPE_WHITELIST
                   \/ thrownCode error = Some ELIGIBILITY
  end.

Lemma evaluatePair_noRestWindow prev current cfg resident softTypes :
  gtb (RuleConfig.restHoursMin cfg) (ofZ 0) = false ->
  match evaluatePair prev current cfg resident softTypes with
  | Ok advisories => onlyOverlapAdvisories advisories
  | Throw error => thrownCode error = Some OVERLAP
  end.
Proof.
  intros Hmin. rewrite (evaluatePair_no_minimum _ _ _ _ _ Hmin).
  destruct (overlaps prev current); [|constructor].
  destruct (involvesSoft softTypes prev current); [|reflexivity].
  constructor; [apply buildOverlapAdvisory_code | constructor].
Qed.

Lemma evaluateAdjacentPairs_step prev current rest cfg resident focus softTypes :
  evaluateAdjacentPairs (prev :: current :: rest) cfg resident focus softTypes =
  if negb (shouldEvaluatePair prev current focus)
  then evaluateAdjacentPairs (current :: rest) cfg resident focus softTypes
  else
    bindAttempt (evaluatePair prev current cfg resident softTypes) (fun found =>
      bindAttempt (evaluateAdjacentPairs (current :: rest) cfg resident focus softTypes)
        (fun advisories => Ok (found ++ advisories))).
Proof. reflexivity. Qed.

Lemma evaluateAdjacentPairs_noRestWindow sorted cfg resident focus softTypes :
  gtb (RuleConfig.restHoursMin cfg) (ofZ 0) = false ->
  noRestWindow (evaluateAdjacentPairs sorted cfg resident focus softTypes).
Proof.
  intros Hmin. induction sorted as [|prev rest IH]; [constructor|].
  destruct rest as [|current rest']; [constructor|].
  rewrite evaluateAdjacentPairs_step.
  destruct (negb (shouldEvaluatePair prev current focus)); [exact IH|].
  pose proof (evaluatePair_noRestWindow prev current cfg resident softTypes Hmin) as Hone.
  remember (evaluateAdjacentPairs (current :: rest') cfg resident focus softTypes) as tail.
  clear Heqtail.
  destruct (evaluatePair prev current cfg resident softTypes) as [found|e];
    destruct tail as [advs|e']; unfold bindAttempt, noRestWindow in *.
  - apply Forall_app; split; assumption.
  - exact IH.
  - left. exact Hone.
  - left. exact Hone.
Qed.

Lemma validateResidentTimeline_noRestWindow shifts cfg resident options :
  gtb (RuleConfig.restHoursMin cfg) (ofZ 0) = false ->
  noRestWindow (validateResidentTimeline shifts cfg resident options).
Proof.
  intros Hmin. unfold validateResidentTimeline. cbv zeta.
  destruct (assertShiftsAllowed _ _ _ _) as [[]|e] eqn:Hassert; simpl.
  - apply evaluateAdjacentPairs_noRestWindow. exact Hmin.
  - right. eapply assertShiftsAllowed_throws; eauto.
Qed.

Lemma evaluateAdjacentPairs_tail prev rest cfg resident focus softTypes advisories :
  evaluateAdjacentPairs (prev :: rest) cfg resident focus softTypes = Ok advisories ->
  exists advisories',
    evaluateAdjacentPairs rest cfg resident focus softTypes = Ok advisories'.
Proof.
  destruct rest as [|current rest']; [intros _; exists []; reflexivity|].
  rewrite evaluateAdjacentPairs_step.
  destruct (negb (shouldEvaluatePair prev current focus)); [eauto|].
  destruct (evaluatePair prev current cfg resident softTypes); [|discriminate].
  unfold bindAttempt at 1.
  destruct (evaluateAdjacentPairs (current :: rest') cfg resident focus softTypes);
    [eauto | discriminate].
Qed.

(** When the second loop completes, every pair it examined passed the
    pair check. *)
Lemma evaluateAdjacentPairs_examined before prev current after cfg resident focus softTypes
    advisories :
  evaluateAdjacentPairs (before ++ prev :: current :: after) cfg resident focus softTypes
  = Ok advisories ->
  shouldEvaluatePair prev current focus = true ->
  exists found, evaluatePair prev current cfg resident softTypes = Ok found.
Proof.
  revert advisories. induction before as [|x before IH]; intros advisories Hok Hfocus.
  - simpl app in Hok. rewrite evaluateAdjacentPairs_step, Hfocus in Hok. simpl negb in Hok.
    cbv iota in Hok.
    destruct (evaluatePair prev current cfg resident softTypes); [eauto | discriminate].
  - simpl app in Hok. apply evaluateAdjacentPairs_tail in Hok.
    destruct Hok as [advisories' Hok]. eapply IH; eauto.
Qed.


(** *** A minimum rest that is not positive *)

Definition advisoriesOf (result : SwapEvaluation) : list SwapAdvisory.t :=
  match result with
  | Feasible advisories => default [] advisories
  | Infeasible _ advisories => default [] advisories
  end.

Definition violationCode (result : SwapEvaluation) : option RuleViolationCode :=
  match result with
  | Infeasible (rule_violation code _ _ _ _) _ => Some code
  | _ => None
  end.

(** The context with another minimum rest. *)
Definition withRestHoursMin (ctx : Context.t) (restHoursMin : num) : Context.t :=
  Context.mk
    (RuleConfig.mk restHoursMin (RuleConfig.typeWhitelist (Context.ruleConfig ctx)))
    (Context.residentsById ctx) (Context.shiftsByResident ctx)
    (Context.shabbosObservers ctx).

Lemma prepareSwap_ctx a b ctx prep :
  prepareSwap a b ctx = inr prep -> ctx = Some (PreparedSwap.ctx prep).
Proof.
  unfold prepareSwap.
  repeat match goal with
         | |- context [match ?x with _ => _ end] => destruct x
         end; intros Heq; inversion Heq; reflexivity.
Qed.

Lemma prepareSwap_failure_kind a b ctx failure :
  prepareSwap a b ctx = inl failure ->
  kindOf failure <> "rule-violation".
Proof.
  unfold prepareSwap.
  repeat match goal with
         | |- context [match ?x with _ => _ end] => destruct x
         end; intros Heq; inversion Heq; subst; simpl; discriminate.
Qed.

Lemma nonEmpty_default {A : Type} (l : list A) : default [] (nonEmpty l) = l.
Proof. destruct l; reflexivity. Qed.

Lemma timelinePhase_noRestWindow ctx residentA residentB shiftA shiftB :
  gtb (RuleConfig.restHoursMin (Context.ruleConfig ctx)) (ofZ 0) = false ->
  violationCode (timelinePhase ctx residentA residentB shiftA shiftB) <> Some REST_WINDOW
  /\ onlyOverlapAdvisories
       (advisoriesOf (timelinePhase ctx residentA residentB shiftA shiftB)).
Proof.
  intros Hmin. unfold timelinePhase. cbv zeta.
  pose proof (validateResidentTimeline_noRestWindow
                (swappedTimeline ctx shiftA
                   (Shift.withResidentId shiftB (Resident.id residentA)))
                (Context.ruleConfig ctx) residentA
                (Some (TimelineValidationOptions.mk
                         (Some {[Shift.id (Shift.withResidentId shiftB
                                             (Resident.id residentA))]})
                         (Some BACKUP_SOFT_TYPES))) Hmin) as HA.
  pose proof (validateResidentTimeline_noRestWindow
                (swappedTimeline ctx shiftB
                   (Shift.withResidentId shiftA (Resident.id residentB)))
                (Context.ruleConfig ctx) residentB
                (Some (TimelineValidationOptions.mk
                         (Some {[Shift.id (Shift.withResidentId shiftA
                                             (Resident.id residentB))]})
                         (Some BACKUP_SOFT_TYPES))) Hmin) as HB.
  fold (revalidate ctx residentA shiftA
          (Shift.withResidentId shiftB (Resident.id residentA))) in HA.
  fold (revalidate ctx residentB shiftB
          (Shift.withResidentId shiftA (Resident.id residentB))) in HB.
  destruct (revalidate ctx residentA _ _) as [foundA|eA]; simpl in HA.
  - destruct (revalidate ctx residentB _ _) as [foundB|eB]; simpl in HB.
    + assert (Hall : onlyOverlapAdvisories (foundA ++ foundB))
        by (apply Forall_app; split; assumption).
      destruct (foundA ++ foundB); simpl; split; try discriminate; try constructor;
        inversion Hall; assumption.
    + destruct eB as [code rid msg|msg]; simpl in *.
      * rewrite nonEmpty_default. split; [|assumption].
        destruct HB as [HB | [HB | HB]]; inversion HB; discriminate.
      * rewrite nonEmpty_default. split; [discriminate | assumption].
  - destruct eA as [code rid msg|msg]; simpl in *.
    + split; [|constructor].
      destruct HA as [HA | [HA | HA]]; inversion HA; discriminate.
    + split; [discriminate | constructor].
Qed.

Lemma calendarCheck_kind incoming resident reason :
  calendarCheck incoming resident = Returns (Some reason) ->
  kindOf reason = "vacation-conflict" \/ kindOf reason = "rotation-block".
Proof.
  unfold calendarCheck, bindOutcome.
  destruct (shiftVacationConflicts incoming resident) as [[|d ds]|]; [| |discriminate].
  - destruct (shiftRotationConflicts incoming resident) as [[blk|]|]; simpl;
      intros Heq; inversion Heq; subst; simpl; auto.
  - intros Heq; inversion Heq; subst; simpl; auto.
Qed.

Lemma evaluateSwap_noRestWindow a b ctx result :
  gtb (RuleConfig.restHoursMin (Context.ruleConfig ctx)) (ofZ 0) = false ->
  evaluateSwap a b (Some ctx) = Returns result ->
  violationCode result <> Some REST_WINDOW
  /\ onlyOverlapAdvisories (advisoriesOf result).
Proof.
  intros Hmin. rewrite evaluateSwap_phases.
  destruct (prepareSwap a b (Some ctx)) as [failure|prep] eqn:Hprep.
  - intros Heq. inversion Heq; subst. split; [|constructor].
    pose proof (prepareSwap_failure_kind _ _ _ _ Hprep) as Hk.
    destruct failure; simpl in *; try discriminate. congruence.
  - apply prepareSwap_ctx in Hprep. inversion Hprep as [Hctx]. rewrite <- Hctx.
    unfold afterPrepare. cbv zeta.
    destruct (resolveShabbosRestrictionForSwap _ _) as [restriction|] eqn:Hres.
    + intros Heq. inversion Heq; subst. split; [|constructor].
      simpl in Hres.
      destruct (evaluateShabbosRestriction (PreparedSwap.residentA prep) _ _)
        as [ra|] eqn:HA.
      * inversion Hres; subst.
        destruct (evaluateShabbosRestriction_kind _ _ _ _ HA) as [x ->]. discriminate.
      * destruct (evaluateShabbosRestriction (PreparedSwap.residentB prep) _ _)
          as [rb|] eqn:HB; [|discriminate].
        inversion Hres; subst.
        destruct (evaluateShabbosRestriction_kind _ _ _ _ HB) as [x ->]. discriminate.
    + unfold bindOutcome.
      destruct (calendarCheck _ (PreparedSwap.residentA prep)) as [[rA|]|] eqn:HcA;
        [| |discriminate].
      { intros Heq. inversion Heq; subst. split; [|constructor].
        destruct (calendarCheck_kind _ _ _ HcA) as [Hk | Hk];
          destruct rA; simpl in *; discriminate. }
      destruct (calendarCheck _ (PreparedSwap.residentB prep)) as [[rB|]|] eqn:HcB;
        [| |discriminate].
      { intros Heq. inversion Heq; subst. split; [|constructor].
        destruct (calendarCheck_kind _ _ _ HcB) as [Hk | Hk];
          destruct rB; simpl in *; discriminate. }
      intros Heq. inversion Heq; subst.
      apply timelinePhase_noRestWindow. exact Hmin.
Qed.

Lemma calculateSwapPressure_restHoursMin a b ctx restHoursMin :
  max (ofZ 0) (RuleConfig.restHoursMin (Context.ruleConfig ctx)) = max (ofZ 0) restHoursMin ->
  calculateSwapPressure a b ctx = calculateSwapPressure a b (withRestHoursMin ctx restHoursMin).
Proof.
  intros Hmax. unfold calculateSwapPressure, scaledSwapPressure. cbv zeta.
  unfold withRestHoursMin at 1 2 3 4 5. simpl Context.residentsById.
  simpl Context.shiftsByResident. simpl Context.ruleConfig. simpl RuleConfig.restHoursMin.
  rewrite <- Hmax.
  destruct (_ || _); [reflexivity|].
  destruct (Context.residentsById ctx !! Shift.residentId a) as [rA|]; [|reflexivity].
  destruct (Context.residentsById ctx !! Shift.residentId b) as [rB|]; [|reflexivity].
  destruct (negb (includesType (Resident.eligibleShiftTypes rA) _)); [reflexivity|].
  destruct (negb (includesType (Resident.eligibleShiftTypes rB) _)); [reflexivity|].
  reflexivity.
Qed.

(** C10.  When the configured minimum rest is zero or negative, the pair
    check makes no rest test: it throws only [OVERLAP] and gives only
    [OVERLAP] advisories; [evaluate] then never answers a rule violation
    with code [REST_WINDOW] and never attaches a [REST_WINDOW] advisory;
    and the score is the one computed with a minimum of 0. *)
Theorem nonpositive_minimum_skips_rest_check :
  forall (L : JsNumberLaws N) (ctx : Context.t),
    leb (RuleConfig.restHoursMin (Context.ruleConfig ctx)) (ofZ 0) = true ->
    (forall prev current resident softTypes,
        match evaluatePair prev current (Context.ruleConfig ctx) resident softTypes with
        | Ok advisories => onlyOverlapAdvisories advisories
        | Throw error => thrownCode error = Some OVERLAP
        end)
    /\ (forall a b result,
           evaluateSwap a b (Some ctx) = Returns result ->
           violationCode result <> Some REST_WINDOW
           /\ onlyOverlapAdvisories (advisoriesOf result))
    /\ (forall a b,
           calculateSwapPressure a b ctx
           = calculateSwapPressure a b (withRestHoursMin ctx (ofZ 0))).
Proof.
  intros L ctx Hmin.
  assert (Hgt : gtb (RuleConfig.restHoursMin (Context.ruleConfig ctx)) (ofZ 0) = false)
    by (unfold gtb; apply nonpos_not_pos; exact Hmin).
  split; [|split].
  - intros. apply evaluatePair_noRestWindow. exact Hgt.
  - intros a b result. apply evaluateSwap_noRestWindow. exact Hgt.
  - intros a b. apply calculateSwapPressure_restHoursMin.
    rewrite (max_zero_nonpos _ Hmin).
    symmetry. apply max_zero_nonpos. apply leb_zero_zero.
Qed.

(** *** Termination and the [catch] clause *)

Lemma enumerateLoop_invalid fuel cursor endDay days :
  cursor = None \/ endDay = None ->
  enumerateLoop fuel cursor endDay days = None.
Proof.
  revert cursor days. induction fuel as [|fuel IH]; intros cursor days Hinv; [reflexivity|].
  simpl.
  assert (Hafter : isAfterDay cursor endDay = false)
    by (destruct Hinv as [-> | ->]; [|destruct cursor]; reflexivity).
  rewrite Hafter. simpl. apply IH.
  destruct Hinv as [-> | ->]; [left; reflexivity | right; reflexivity].
Qed.

Lemma enumerateLoop_step fuel cursor endDay days :
  enumerateLoop (S fuel) cursor endDay days =
  if negb (isAfterDay cursor endDay)
  then enumerateLoop fuel (option_map (Z.add 1) cursor) endDay (days ++ [formatDay cursor])
  else Some days.
Proof. reflexivity. Qed.

Lemma enumerateLoop_valid (n : nat) :
  forall s e days,
    Z.to_nat (e - s + 1) = n ->
    enumerateLoop (S n) (Some s) (Some e) days
    = Some (days ++ (formatYMD <$> seqZ s (e - s + 1))).
Proof.
  induction n as [|n IH]; intros s e days Hlen; rewrite enumerateLoop_step;
    unfold isAfterDay.
  - assert (He : (e <? s) = true) by (apply Z.ltb_lt; lia).
    rewrite He. simpl. rewrite seqZ_nil by lia. simpl. rewrite app_nil_r. reflexivity.
  - assert (He : (e <? s) = false) by (apply Z.ltb_ge; lia).
    rewrite He. change (negb false) with true. cbv iota.
    change (option_map (Z.add 1) (Some s)) with (Some (1 + s)).
    rewrite (IH (1 + s) e) by lia.
    rewrite (seqZ_cons s (e - s + 1)) by lia.
    rewrite fmap_cons, <- app_assoc.
    replace (Z.succ s) with (1 + s) by lia.
    replace (Z.pred (e - s + 1)) with (e - (1 + s) + 1) by lia.
    reflexivity.
Qed.

(** [enumerateShiftCalendarDays] and its loop: the call returns the days
    that the loop returns after finitely many iterations, and does not
    return exactly when no number of iterations ends the loop. *)
Lemma enumerateShiftCalendarDays_loop (shift : Shift.t) :
  let cursor := option_map localDay (dayjs (Shift.startISO shift)) in
  let endDay := option_map localDay (dayjs (Shift.endISO shift)) in
  match enumerateShiftCalendarDays shift with
  | Returns days => exists fuel, enumerateLoop fuel cursor endDay [] = Some days
  | Diverges => forall fuel, enumerateLoop fuel cursor endDay [] = None
  end.
Proof.
  cbv zeta. unfold enumerateShiftCalendarDays.
  destruct (dayjs (Shift.startISO shift)) as [s|]; simpl.
  - destruct (dayjs (Shift.endISO shift)) as [e|]; simpl.
    + exists (S (Z.to_nat (localDay e - localDay s + 1))).
      rewrite (enumerateLoop_valid _ (localDay s) (localDay e) [] eq_refl). reflexivity.
    + intros fuel. apply enumerateLoop_invalid. right; reflexivity.
  - intros fuel. apply enumerateLoop_invalid. left; reflexivity.
Qed.

(** The start and the end of the shift are valid dates. *)
Definition validDates (shift : Shift.t) : Prop :=
  isValid (dayjs (Shift.startISO shift)) = true
  /\ isValid (dayjs (Shift.endISO shift)) = true.

Lemma enumerateShiftCalendarDays_returns shift :
  validDates shift -> exists days, enumerateShiftCalendarDays shift = Returns days.
Proof.
  intros [Hs He]. unfold enumerateShiftCalendarDays.
  destruct (dayjs (Shift.startISO shift)); [|discriminate].
  destruct (dayjs (Shift.endISO shift)); [|discriminate]. eauto.
Qed.

Lemma calendarCheck_returns incoming resident :
  validDates incoming -> exists check, calendarCheck incoming resident = Returns check.
Proof.
  intros Hvalid.
  destruct (enumerateShiftCalendarDays_returns incoming Hvalid) as [days Hdays].
  unfold calendarCheck, shiftVacationConflicts, shiftRotationConflicts, bindOutcome.
  rewrite Hdays.
  destruct (bool_decide (collectVacationDates resident = ∅)).
  - destruct (Resident.rotations resident); [eauto|].
    destruct days; eauto.
  - destruct (filter _ days); [|eauto].
    destruct (Resident.rotations resident); [eauto|].
    destruct days; eauto.
Qed.

Lemma prepareSwap_shifts a b ctx prep :
  prepareSwap a b ctx = inr prep ->
  a = Some (PreparedSwap.shiftA prep) /\ b = Some (PreparedSwap.shiftB prep).
Proof.
  unfold prepareSwap.
  repeat match goal with
         | |- context [match ?x with _ => _ end] => destruct x
         end; intros Heq; inversion Heq; split; reflexivity.
Qed.

Lemma evaluateSwap_returns a b ctx :
  (forall shift, a = Some shift -> validDates shift) ->
  (forall shift, b = Some shift -> validDates shift) ->
  exists result, evaluateSwap a b ctx = Returns result.
Proof.
  intros Ha Hb. rewrite evaluateSwap_phases.
  destruct (prepareSwap a b ctx) as [failure|prep] eqn:Hprep; [eauto|].
  destruct (prepareSwap_shifts _ _ _ _ Hprep) as [HeqA HeqB].
  specialize (Ha _ HeqA). specialize (Hb _ HeqB).
  unfold afterPrepare. cbv zeta.
  destruct (resolveShabbosRestrictionForSwap _ _); [eauto|].
  destruct (calendarCheck_returns
              (Shift.withResidentId (PreparedSwap.shiftB prep)
                 (Resident.id (PreparedSwap.residentA prep)))
              (PreparedSwap.residentA prep) Hb) as [checkA ->].
  simpl. destruct checkA; [eauto|].
  destruct (calendarCheck_returns
              (Shift.withResidentId (PreparedSwap.shiftA prep)
                 (Resident.id (PreparedSwap.residentB prep)))
              (PreparedSwap.residentB prep) Ha) as [checkB ->].
  simpl. destruct checkB; eauto.
Qed.

Lemma evaluateLoop_returns pairs ctx state :
  Forall (fun pr => validDates (ShiftPair.a pr) /\ validDates (ShiftPair.b pr)) pairs ->
  exists state', evaluateLoop pairs ctx state = Returns state'.
Proof.
  intros Hall. revert state. induction Hall as [|pr rest [Ha Hb] _ IH]; intros state.
  - simpl. eauto.
  - simpl. unfold evaluateOnePair, explainSwap.
    destruct (evaluateSwap_returns (Some (ShiftPair.a pr)) (Some (ShiftPair.b pr)) (Some ctx))
      as [result ->].
    { intros shift Heq. inversion Heq; subst. exact Ha. }
    { intros shift Heq. inversion Heq; subst. exact Hb. }
    simpl. destruct result; simpl; apply IH.
Qed.


(** *** Rotation blocks *)

(** The offsets from the week start, in days, of the days a blocking
    rotation blocks: the two days before the week, the seven days of
    the week, and the twelfth and thirteenth day after the week start. *)
Definition blockedOffset (offset : Z) : Prop :=
  -2 <= offset <= 6 \/ offset = 12 \/ offset = 13.

Lemma collectRotationBlockedDates_spec (assignment : RotationAssignment.t) (weekStart : Z)
    (date : string) :
  dayjs (RotationAssignment.weekStartISO assignment) = Some weekStart ->
  (date ∈ collectRotationBlockedDates assignment <->
   exists offset, blockedOffset offset /\ date = formatYMD (localDay weekStart + offset)).
Proof.
  intros Hws. unfold collectRotationBlockedDates. rewrite Hws.
  unfold ROTATION_BLOCK_OFFSETS.
  change (seqZ 0 7) with [0; 1; 2; 3; 4; 5; 6].
  cbn [app fold_left].
  rewrite !elem_of_union, !elem_of_singleton. unfold blockedOffset. split.
  - intros Hin.
    repeat match goal with
           | Hd : _ \/ _ |- _ => destruct Hd as [Hd | Hd]
           end;
      try (exfalso; revert Hin; apply not_elem_of_empty);
      match goal with
      | Hd : date = formatYMD (localDay weekStart + ?k) |- _ =>
          exists k; split; [lia | exact Hd]
      end.
  - intros (offset & Hoff & ->).
    assert (Hcases : offset = -2 \/ offset = -1 \/ offset = 0 \/ offset = 1 \/ offset = 2
                     \/ offset = 3 \/ offset = 4 \/ offset = 5 \/ offset = 6
                     \/ offset = 12 \/ offset = 13) by lia.
    repeat match goal with
           | Hd : _ \/ _ |- _ => destruct Hd as [Hd | Hd]
           end; subst offset; tauto.
Qed.

Lemma collectRotationBlockedDates_invalid (assignment : RotationAssignment.t) :
  dayjs (RotationAssignment.weekStartISO assignment) = None ->
  collectRotationBlockedDates assignment = ∅.
Proof. intros Hws. unfold collectRotationBlockedDates. rewrite Hws. reflexivity. Qed.

(** The assignment blocks the person from receiving the shift on one of
    the days [shiftDates]. *)
Definition blocksOn (shiftDates : list string) (resident : Resident.t) (shift : Shift.t)
    (assignment : RotationAssignment.t) : Prop :=
  isRotationBlockedForResident assignment resident shift = true
  /\ exists date, date ∈ shiftDates /\ date ∈ collectRotationBlockedDates assignment.

Lemma filter_nonempty_iff (blocked : gset string) (dates : list string) :
  filter (fun date => date ∈ blocked) dates <> []
  <-> exists date, date ∈ dates /\ date ∈ blocked.
Proof.
  split.
  - intros Hne. destruct (filter _ dates) as [|d ds] eqn:Hf; [contradiction|].
    assert (Hin : d ∈ filter (fun date => date ∈ blocked) dates)
      by (rewrite Hf; apply list_elem_of_here).
    apply list_elem_of_filter in Hin. exists d. tauto.
  - intros (d & Hd & Hb) Hnil.
    assert (Hin : d ∈ filter (fun date => date ∈ blocked) dates)
      by (apply list_elem_of_filter; tauto).
    rewrite Hnil in Hin. inversion Hin.
Qed.

Lemma firstRotationConflict_spec shiftDates resident shift assignments :
  (forall conflict,
      firstRotationConflict shiftDates resident shift assignments = Some conflict ->
      exists assignment,
        assignment ∈ assignments
        /\ blocksOn shiftDates resident shift assignment
        /\ RotationBlockConflict.rotation conflict = RotationAssignment.rotation assignment
        /\ RotationBlockConflict.rotationWeekStartISO conflict
           = RotationAssignment.weekStartISO assignment
        /\ RotationBlockConflict.conflictDates conflict
           = filter (fun date => date ∈ collectRotationBlockedDates assignment) shiftDates)
  /\ (firstRotationConflict shiftDates resident shift assignments = None ->
      forall assignment,
        assignment ∈ assignments -> ~ blocksOn shiftDates resident shift assignment).
Proof.
  induction assignments as [|assignment rest [IHsome IHnone]]; simpl.
  - split; [discriminate|]. intros _ x Hin. inversion Hin.
  - destruct (isRotationBlockedForResident assignment resident shift) eqn:Hblocked; simpl.
    + destruct (filter (fun date => date ∈ collectRotationBlockedDates assignment)
                  shiftDates) as [|d ds] eqn:Hf.
      * split.
        -- intros conflict Hsome.
           destruct (IHsome conflict Hsome) as (x & Hin & Hrest).
           exists x. split; [apply list_elem_of_further; exact Hin | exact Hrest].
        -- intros Hnone x Hin. apply elem_of_cons in Hin.
           destruct Hin as [-> | Hin]; [|apply IHnone; assumption].
           intros [_ Hex]. apply filter_nonempty_iff in Hex. congruence.
      * split; [|discriminate].
        intros conflict Hsome. inversion Hsome; subst. exists assignment.
        split; [apply list_elem_of_here|].
        split; [|simpl; rewrite Hf; auto].
        split; [exact Hblocked|]. apply filter_nonempty_iff. rewrite Hf. discriminate.
    + split.
      * intros conflict Hsome.
        destruct (IHsome conflict Hsome) as (x & Hin & Hrest).
        exists x. split; [apply list_elem_of_further; exact Hin | exact Hrest].
      * intros Hnone x Hin. apply elem_of_cons in Hin.
        destruct Hin as [-> | Hin]; [|apply IHnone; assumption].
        intros [Hb _]. congruence.
Qed.

Lemma shiftRotationConflicts_spec shift resident shiftDates :
  enumerateShiftCalendarDays shift = Returns shiftDates ->
  exists found,
    shiftRotationConflicts shift resident = Returns found
    /\ (is_Some found <->
        exists assignment,
          assignment ∈ Resident.rotations resident
          /\ blocksOn shiftDates resident shift assignment).
Proof.
  intros Hdays. unfold shiftRotationConflicts. cbv zeta. rewrite Hdays. simpl.
  destruct (Resident.rotations resident) as [|r0 rest] eqn:Hrot.
  - exists None. split; [reflexivity|]. split.
    + intros [x Hx]. discriminate.
    + intros (x & Hin & _). inversion Hin.
  - destruct shiftDates as [|d ds].
    + exists None. split; [reflexivity|]. split.
      * intros [x Hx]. discriminate.
      * intros (x & _ & _ & (date & Hin & _)). inversion Hin.
    + eexists. split; [reflexivity|].
      destruct (firstRotationConflict_spec (d :: ds) resident shift (r0 :: rest))
        as [Hsome Hnone].
      destruct (firstRotationConflict (d :: ds) resident shift (r0 :: rest))
        as [conflict|] eqn:Hfirst.
      * split; [|intros _; eexists; reflexivity].
        intros _. destruct (Hsome conflict eq_refl) as (x & Hin & Hb & _). eauto.
      * split; [intros [x Hx]; discriminate|].
        intros (x & Hin & Hb). exfalso. exact (Hnone eq_refl x Hin Hb).
Qed.

Lemma calendarCheck_rotation_block incoming resident :
  (exists reason,
      calendarCheck incoming resident = Returns (Some reason)
      /\ kindOf reason = "rotation-block")
  <-> shiftVacationConflicts incoming resident = Returns []
      /\ exists conflict,
          shiftRotationConflicts incoming resident = Returns (Some conflict).
Proof.
  unfold calendarCheck, bindOutcome.
  destruct (shiftVacationConflicts incoming resident) as [[|d ds]|].
  - destruct (shiftRotationConflicts incoming resident) as [[conflict|]|]; simpl.
    + split; [eauto|]. intros _. eexists. split; reflexivity.
    + split; [intros (reason & Heq & _); discriminate|].
      intros [_ [c Hc]]. discriminate.
    + split; [intros (reason & Heq & _); discriminate|].
      intros [_ [c Hc]]. discriminate.
  - split; [|intros [Hv _]; discriminate].
    intros (reason & Heq & Hkind). inversion Heq; subst. discriminate.
  - split; [intros (reason & Heq & _); discriminate | intros [Hv _]; discriminate].
Qed.

Lemma timelinePhase_kind ctx residentA residentB shiftA shiftB reason advisories :
  timelinePhase ctx residentA residentB shiftA shiftB = Infeasible reason advisories ->
  kindOf reason = "rule-violation" \/ kindOf reason = "unexpected-error".
Proof.
  unfold timelinePhase. cbv zeta.
  destruct (revalidate ctx residentA _ _) as [foundA|eA].
  - destruct (revalidate ctx residentB _ _) as [foundB|eB].
    + destruct (foundA ++ foundB); discriminate.
    + apply catchTimelineError_kind.
  - apply catchTimelineError_kind.
Qed.


(** *** Serial and parallel evaluation *)

Lemma mapOfEntries_list_to_map {V : Type} (entries : list (string * V)) :
  mapOfEntries entries = list_to_map (rev entries).
Proof.
  unfold mapOfEntries. rewrite <- fold_left_rev_right.
  induction (rev entries) as [|[k v] rest IH]; simpl; [reflexivity|].
  rewrite IH. reflexivity.
Qed.

Lemma mapOfEntries_map_to_list {V : Type} (m : gmap string V) :
  mapOfEntries (map_to_list m) = m.
Proof.
  rewrite mapOfEntries_list_to_map.
  rewrite <- (list_to_map_to_list m) at 2.
  assert (Hperm : rev (map_to_list m) ≡ₚ map_to_list m)
    by (symmetry; apply Permutation_rev).
  apply list_to_map_proper; [|exact Hperm].
  rewrite Hperm. apply NoDup_fst_map_to_list.
Qed.

Lemma setOfEntries_elem (entries : list string) (x : string) :
  x ∈ setOfEntries entries <-> x ∈ entries.
Proof.
  unfold setOfEntries.
  assert (Hgen : forall (acc : gset string),
             x ∈ fold_left (fun s e => {[e]} ∪ s) entries acc <-> x ∈ entries \/ x ∈ acc).
  { induction entries as [|e rest IH]; intros acc; simpl.
    - rewrite elem_of_nil. tauto.
    - rewrite IH, elem_of_cons, elem_of_union, elem_of_singleton. tauto. }
  rewrite Hgen. rewrite elem_of_empty. tauto.
Qed.

Lemma setOfEntries_elements (s : gset string) : setOfEntries (elements s) = s.
Proof.
  apply set_eq. intros x. rewrite setOfEntries_elem. apply elem_of_elements.
Qed.

(** Hydrating the serialized context gives the context back. *)
Lemma hydrate_serialize (ctx : Context.t) : hydrateContext (serializeContext ctx) = ctx.
Proof.
  unfold hydrateContext, serializeContext. simpl.
  rewrite !mapOfEntries_map_to_list, setOfEntries_elements.
  destruct ctx. reflexivity.
Qed.

(** The candidates of a list of pairs: what either loop collects. *)
Fixpoint candidatesOf (pairs : list ShiftPair.t) (ctx : Context.t)
  : outcome (list SwapCandidate.t) :=
  match pairs with
  | [] => Returns []
  | pr :: rest =>
      bindOutcome (explainSwap (ShiftPair.a pr) (ShiftPair.b pr) ctx) (fun evaluation =>
        bindOutcome (candidatesOf rest ctx) (fun candidates =>
          Returns
            match evaluation with
            | Feasible advisories =>
                let pressure :=
                  calculateSwapPressure (ShiftPair.a pr) (ShiftPair.b pr) ctx in
                SwapCandidate.mk (ShiftPair.a pr) (ShiftPair.b pr)
                  (SwapPressureBreakdown.score pressure) pressure advisories
                :: candidates
            | Infeasible _ _ => candidates
            end))
  end.

Lemma evaluateLoop_candidates pairs ctx state :
  bindOutcome (evaluateLoop pairs ctx state) (fun state' =>
    Returns (loopCandidates state'))
  = bindOutcome (candidatesOf pairs ctx) (fun candidates =>
      Returns (loopCandidates state ++ candidates)).
Proof.
  revert state. induction pairs as [|pr rest IH]; intros state; simpl.
  - rewrite app_nil_r. reflexivity.
  - unfold evaluateOnePair.
    destruct (explainSwap (ShiftPair.a pr) (ShiftPair.b pr) ctx) as [evaluation|];
      [|reflexivity].
    simpl. destruct evaluation as [advisories|reason advisories]; simpl.
    + rewrite IH. simpl.
      destruct (candidatesOf rest ctx); simpl; [|reflexivity].
      rewrite <- app_assoc. reflexivity.
    + rewrite IH. simpl. destruct (candidatesOf rest ctx); reflexivity.
Qed.

Lemma evaluatePairsSync_candidates pairs ctx :
  evaluatePairsSync pairs ctx = candidatesOf pairs ctx.
Proof.
  unfold evaluatePairsSync. rewrite evaluateLoop_candidates. simpl.
  destruct (candidatesOf pairs ctx); reflexivity.
Qed.

Lemma candidatesOf_app pairs1 pairs2 ctx :
  candidatesOf (pairs1 ++ pairs2) ctx =
  bindOutcome (candidatesOf pairs1 ctx) (fun c1 =>
    bindOutcome (candidatesOf pairs2 ctx) (fun c2 => Returns (c1 ++ c2))).
Proof.
  induction pairs1 as [|pr rest IH]; simpl.
  - destruct (candidatesOf pairs2 ctx); reflexivity.
  - destruct (explainSwap (ShiftPair.a pr) (ShiftPair.b pr) ctx) as [evaluation|];
      [|reflexivity].
    simpl. rewrite IH.
    destruct (candidatesOf rest ctx); simpl; [|reflexivity].
    destruct (candidatesOf pairs2 ctx); simpl; [|reflexivity].
    destruct evaluation; reflexivity.
Qed.

(** The worker's answer carries the candidates of its chunk, evaluated
    in the hydrated copy of the context. *)
Lemma onmessage_candidates chunk ctx :
  bindOutcome (onmessage (WorkerIn.mk chunk (serializeContext ctx))) (fun response =>
    Returns (WorkerOut.candidates response))
  = candidatesOf chunk ctx.
Proof.
  unfold onmessage. simpl WorkerIn.ctx. simpl WorkerIn.pairs. rewrite hydrate_serialize.
  pose proof (evaluateLoop_candidates chunk ctx (mkLoopState [] [] [])) as Hloop.
  simpl in Hloop.
  destruct (evaluateLoop chunk ctx (mkLoopState [] [] [])) as [state|]; simpl in *.
  - rewrite Hloop. destruct (candidatesOf chunk ctx); reflexivity.
  - rewrite Hloop. destruct (candidatesOf chunk ctx); reflexivity.
Qed.

Lemma workers_candidates chunks ctx :
  bindOutcome
    (mapOutcome onmessage (map (fun chunk => WorkerIn.mk chunk (serializeContext ctx)) chunks))
    (fun results => Returns (flat_map WorkerOut.candidates results))
  = candidatesOf (concat chunks) ctx.
Proof.
  induction chunks as [|chunk rest IH]; simpl; [reflexivity|].
  rewrite candidatesOf_app, <- IH, <- onmessage_candidates.
  destruct (onmessage (WorkerIn.mk chunk (serializeContext ctx))) as [response|];
    simpl; [|reflexivity].
  destruct (mapOutcome onmessage _) as [results|]; reflexivity.
Qed.

Lemma sliceChunks_concat {A : Type} (fuel chunkSize : nat) (pairs : list A) :
  (1 <= chunkSize)%nat -> (length pairs <= fuel)%nat ->
  concat (sliceChunks fuel chunkSize pairs) = pairs.
Proof.
  intros Hsize. revert pairs. induction fuel as [|fuel IH]; intros pairs Hlen.
  - destruct pairs; [reflexivity | simpl in Hlen; lia].
  - destruct pairs as [|x rest]; [reflexivity|].
    cbn [sliceChunks concat]. rewrite IH.
    + apply take_drop.
    + rewrite length_drop. simpl in *. lia.
Qed.

(** C3.  The batch evaluation of a live pool, whether it runs in the
    calling thread or on workers (chunks of the pairs, each worker
    hydrating its own copy of the serialized context, the answers
    concatenated in the order of the chunks), resolves to the very list
    of candidates that the serial evaluation returns: the same accepted
    pairs with the same scores, in the same order; and it settles
    exactly when the serial evaluation returns. *)
Theorem parallel_equals_serial :
  forall (pool : SwapWorkerPool.t) (pairs : list ShiftPair.t) (ctx : Context.t),
    evaluatePairs pool pairs ctx =
    if SwapWorkerPool.terminated pool
    then Rejected "SwapWorkerPool has been terminated"
    else promiseOf (evaluatePairsSync pairs ctx).
Proof.
  intros pool pairs ctx. unfold evaluatePairs.
  destruct (SwapWorkerPool.terminated pool); [reflexivity|].
  destruct (shouldUseWorkers pool (length pairs)) eqn:Huse; simpl; [|reflexivity].
  assert (Hadapters : (ensureAdapters pool =? 0)%nat = false).
  { unfold shouldUseWorkers in Huse. unfold ensureAdapters.
    destruct (SwapWorkerPool.spawnable pool); simpl in *; [|discriminate].
    rewrite orb_false_r.
    destruct (SwapWorkerPool.size pool <=? 1)%nat eqn:Hsize; [discriminate|].
    apply Nat.leb_gt in Hsize.
    destruct (0 <? SwapWorkerPool.adapters pool)%nat eqn:Hlive.
    - apply Nat.ltb_lt in Hlive. apply Nat.eqb_neq. lia.
    - apply Nat.eqb_neq. lia. }
  rewrite Hadapters.
  set (chunkSize := Nat.max 1 _).
  pose proof (workers_candidates (sliceChunks (length pairs) chunkSize pairs) ctx) as Hw.
  rewrite sliceChunks_concat in Hw by (unfold chunkSize; lia).
  rewrite <- evaluatePairsSync_candidates in Hw.
  destruct (mapOutcome onmessage _) as [results|]; simpl in Hw.
  - rewrite <- Hw. simpl.
    destruct ((0 <? length pairs)%nat && _); reflexivity.
  - rewrite <- Hw. reflexivity.
Qed.

End RuleProperties.

(** ** The breakdown of the score *)

Section BreakdownConsistency.
Context {N : JsNumber}.

(** [calls.reduce((sum, call) => sum + call.delta, 0)] *)
Definition sumDelta (calls : list SwapPressureCall.t) : num :=
  fold_left (fun sum call => (sum + SwapPressureCall.delta call)%num) calls (ofZ 0).

(** [swappedTotal - baselineTotal == sum(call.delta)] *)
Definition sectionConsistent (section : SwapPressureSection.t) : Prop :=
  (SwapPressureSection.swappedTotal section - SwapPressureSection.baselineTotal section)%num
  = sumDelta (SwapPressureSection.calls section).

(** [score == original.deltaTotal + counterpart.deltaTotal] *)
Definition scoreConsistent (breakdown : SwapPressureBreakdown.t) : Prop :=
  SwapPressureBreakdown.score breakdown
  = (SwapPressureSection.deltaTotal (SwapPressureBreakdown.original breakdown)
     + SwapPressureSection.deltaTotal (SwapPressureBreakdown.counterpart breakdown))%num.

Definition breakdownConsistent (breakdown : SwapPressureBreakdown.t) : Prop :=
  sectionConsistent (SwapPressureBreakdown.original breakdown)
  /\ sectionConsistent (SwapPressureBreakdown.counterpart breakdown)
  /\ scoreConsistent breakdown.

End BreakdownConsistency.

Section ExactScoring.
Context {H : Host}.

Local Existing Instance Exact.number.
Local Open Scope Qc_scope.

Local Ltac exact_arith :=
  cbn [add sub mul div opp ofZ num Exact.number] in *;
  change (Exact.of_int 0) with 0%Qc in *;
  change (Exact.of_int 1) with 1%Qc in *.

(** Terms of type [num] are read as rationals. *)
Local Ltac as_rationals :=
  exact_arith;
  repeat match goal with
         | |- context [?f ?x] =>
             match type of (f x) with
             | @num _ => let q := fresh "q" in generalize (f x : Qc); intro q
             end
         end.

Local Ltac exact_ring := as_rationals; ring.

Local Ltac fields :=
  cbn [SwapPressureSection.deltaTotal SwapPressureSection.swappedTotal
       SwapPressureSection.baselineTotal SwapPressureSection.calls
       SwapPressureBreakdown.score SwapPressureBreakdown.baselineScore
       SwapPressureBreakdown.swappedScore SwapPressureBreakdown.original
       SwapPressureBreakdown.counterpart SwapPressureCall.delta fst snd] in *.

(** The totals of a section fit its calls. *)
Definition sectionSound (section : SwapPressureSection.t) : Prop :=
  SwapPressureSection.deltaTotal section
  = SwapPressureSection.swappedTotal section - SwapPressureSection.baselineTotal section
  /\ sectionConsistent section.

Definition breakdownSound (breakdown : SwapPressureBreakdown.t) : Prop :=
  sectionSound (SwapPressureBreakdown.original breakdown)
  /\ sectionSound (SwapPressureBreakdown.counterpart breakdown)
  /\ scoreConsistent breakdown.

Lemma sumDelta_acc (calls : list SwapPressureCall.t) (acc : Qc) :
  fold_left (fun sum call => (sum + SwapPressureCall.delta call)%num) calls acc
  = acc + sumDelta calls.
Proof.
  unfold sumDelta. revert acc. induction calls as [|call rest IH]; intros acc;
    cbn [fold_left].
  - exact_ring.
  - rewrite IH.
    rewrite (IH (@add Exact.number (ofZ 0) (SwapPressureCall.delta call))).
    exact_ring.
Qed.

Lemma sumDelta_cons call (calls : list SwapPressureCall.t) :
  sumDelta (call :: calls) = SwapPressureCall.delta call + sumDelta calls.
Proof.
  unfold sumDelta at 1. simpl. rewrite sumDelta_acc. exact_arith.
  unfold Exact.of_int. ring.
Qed.

Lemma sumDelta_nil : sumDelta (N := Exact.number) [] = 0.
Proof. reflexivity. Qed.

Lemma sumDelta_app (calls1 calls2 : list SwapPressureCall.t) :
  sumDelta (calls1 ++ calls2) = sumDelta calls1 + sumDelta calls2.
Proof.
  induction calls1 as [|call rest IH]; simpl.
  - rewrite sumDelta_nil. exact_ring.
  - rewrite !sumDelta_cons, IH. exact_ring.
Qed.

Lemma sumDelta_Permutation (calls1 calls2 : list SwapPressureCall.t) :
  Permutation calls1 calls2 -> sumDelta calls1 = sumDelta calls2.
Proof.
  induction 1 as [|x l l' _ IH|x y l|l l' l'' _ IH1 _ IH2].
  - reflexivity.
  - rewrite !sumDelta_cons, IH. reflexivity.
  - rewrite !sumDelta_cons. exact_ring.
  - congruence.
Qed.

Lemma insertSorted_Permutation {A : Type} (gt : A -> A -> bool) (x : A) (l : list A) :
  Permutation (insertSorted gt x l) (x :: l).
Proof.
  induction l as [|y r IH]; simpl; [reflexivity|].
  destruct (gt y x); [reflexivity|].
  rewrite IH. apply perm_swap.
Qed.

Lemma stableSort_Permutation {A : Type} (gt : A -> A -> bool) (l : list A) :
  Permutation (stableSort gt l) l.
Proof.
  unfold stableSort.
  assert (Hgen : forall acc, Permutation (fold_left (fun acc x => insertSorted gt x acc) l acc)
                               (acc ++ l)).
  { induction l as [|x r IH]; intros acc; simpl.
    - rewrite app_nil_r. reflexivity.
    - rewrite IH, insertSorted_Permutation.
      simpl. apply Permutation_middle. }
  apply (Hgen []).
Qed.

Lemma sectionSound_zero residentId focusShiftId :
  sectionSound
    (SwapPressureSection.mk residentId focusShiftId CALL_WINDOW_HOURS ZERO_CALLS
       (ofZ 0) (ofZ 0) (ofZ 0)).
Proof.
  split; unfold sectionConsistent; fields; [|unfold ZERO_CALLS; rewrite sumDelta_nil];
    exact_ring.
Qed.

Lemma buildSection_sound baselineShift swappedShift otherShifts restMin :
  sectionSound (buildSection baselineShift swappedShift otherShifts restMin).
Proof.
  unfold buildSection. cbv zeta.
  match goal with
  | |- context [match ?found with [] => _ | _ :: _ => _ end] =>
      destruct found as [|entry entries]
  end; [apply sectionSound_zero|].
  match goal with
  | |- context [fold_left ?step ?l ([], ofZ 0, ofZ 0)] =>
      set (f := step); set (es := l)
  end.
  assert (Hinv : forall es acc,
             (acc.2 - acc.1.2)%Qc = sumDelta acc.1.1 ->
             ((fold_left f es acc).2 - (fold_left f es acc).1.2)%Qc
             = sumDelta (fold_left f es acc).1.1).
  { clear. intros es. induction es as [|e es IH]; intros [[calls bT] sT] Hacc; [exact Hacc|].
    cbn [fold_left]. apply IH. unfold f at 1 2 3. fields.
    rewrite sumDelta_app, sumDelta_cons, sumDelta_nil. fields.
    rewrite <- Hacc. exact_ring. }
  specialize (Hinv es ([], ofZ 0, ofZ 0)).
  destruct (fold_left f es ([], ofZ 0, ofZ 0)) as [[calls bT] sT].
  fields. split; [reflexivity|].
  unfold sectionConsistent. fields.
  rewrite (sumDelta_Permutation _ _ (stableSort_Permutation callAfter calls)).
  apply Hinv. rewrite sumDelta_nil. exact_ring.
Qed.

Lemma sumDelta_scaled (calls : list SwapPressureCall.t) (factor : Qc)
    (scaleCall : SwapPressureCall.t -> SwapPressureCall.t) :
  (forall call, SwapPressureCall.delta (scaleCall call)
                = SwapPressureCall.delta call * factor) ->
  sumDelta (map scaleCall calls) = sumDelta calls * factor.
Proof.
  intros Hscale. induction calls as [|call rest IH]; cbn [map].
  - rewrite sumDelta_nil. exact_ring.
  - rewrite !sumDelta_cons, IH, Hscale. exact_ring.
Qed.

Lemma scaleBreakdown_sound breakdown factor :
  breakdownSound breakdown -> breakdownSound (scaleBreakdown breakdown factor).
Proof.
  intros Hsound. unfold scaleBreakdown. cbv zeta.
  destruct (negb (isFinite factor) || (factor =? ofZ 1)%num); [exact Hsound|].
  destruct Hsound as ([HdO HcO] & [HdC HcC] & Hscore).
  unfold breakdownSound, sectionSound, sectionConsistent, scoreConsistent in *. fields.
  assert (Hcalls : forall calls : list SwapPressureCall.t,
             sumDelta
               match calls with
               | [] => calls
               | _ :: _ =>
                   map (fun call =>
                          SwapPressureCall.mk
                            (SwapPressureCall.shiftId call) (SwapPressureCall.shiftType call)
                            (SwapPressureCall.startISO call) (SwapPressureCall.endISO call)
                            (SwapPressureCall.weight call)
                            (SwapPressureCall.baseline call * factor)%num
                            (SwapPressureCall.swapped call * factor)%num
                            (SwapPressureCall.delta call * factor)%num
                            (SwapPressureCall.calendarContext call)
                            (SwapPressureCall.rotationLabel call)) calls
               end = sumDelta calls * factor).
  { intros calls. destruct calls as [|c cs].
    - rewrite sumDelta_nil. exact_ring.
    - apply sumDelta_scaled. intros call. reflexivity. }
  rewrite !Hcalls, <- HcO, <- HcC, Hscore, HdO, HdC.
  repeat split; exact_ring.
Qed.

Lemma applyIpConsultPenalty_sound breakdown penalty originalShift counterpartShift :
  breakdownSound breakdown ->
  breakdownSound (applyIpConsultPenalty breakdown penalty originalShift counterpartShift).
Proof.
  intros Hsound. unfold applyIpConsultPenalty. cbv zeta.
  destruct (negb (isFinite penalty) || (penalty =? ofZ 0)%num); [exact Hsound|].
  destruct Hsound as ([HdO HcO] & [HdC HcC] & Hscore).
  unfold breakdownSound, sectionSound, sectionConsistent, scoreConsistent in *. fields.
  rewrite !sumDelta_app, !sumDelta_cons, !sumDelta_nil, <- HcO, <- HcC, Hscore, HdO, HdC.
  fields. change (ofZ 2) with (1 + 1)%Qc.
  repeat split; as_rationals; field; discriminate.
Qed.

Lemma appendRotationPressureCall_sound breakdown sectionKey shift resident mode bonus :
  breakdownSound breakdown ->
  breakdownSound (appendRotationPressureCall breakdown sectionKey shift resident mode bonus).
Proof.
  intros ([HdO HcO] & [HdC HcC] & Hscore).
  unfold appendRotationPressureCall. cbv zeta.
  unfold breakdownSound, sectionSound, sectionConsistent, scoreConsistent in *.
  destruct sectionKey, mode; fields;
    rewrite ?sumDelta_app, ?sumDelta_cons, ?sumDelta_nil, <- ?HcO, <- ?HcC, Hscore,
      ?HdO, ?HdC; fields; repeat split; exact_ring.
Qed.

Lemma applyRotationPressure_sound breakdown originalShift counterpartShift
    originalResident counterpartResident :
  breakdownSound breakdown ->
  breakdownSound (applyRotationPressure breakdown originalShift counterpartShift
                    originalResident counterpartResident).
Proof.
  intros Hsound. unfold applyRotationPressure. cbv zeta.
  repeat match goal with
         | |- context [if ?c then _ else _] => destruct c
         end;
    repeat apply appendRotationPressureCall_sound; exact Hsound.
Qed.

Lemma buildZeroBreakdown_sound a b : breakdownSound (buildZeroBreakdown a b).
Proof.
  unfold buildZeroBreakdown. split; [|split].
  - apply sectionSound_zero.
  - apply sectionSound_zero.
  - unfold scoreConsistent. fields. exact_ring.
Qed.

Lemma scaledSwapPressure_sound a b ctx scaled residentA residentB :
  scaledSwapPressure a b ctx = Some (scaled, residentA, residentB) ->
  breakdownSound scaled.
Proof.
  unfold scaledSwapPressure. cbv zeta.
  destruct (_ || _); [discriminate|].
  destruct (Context.residentsById ctx !! Shift.residentId a) as [rA|]; [|discriminate].
  destruct (Context.residentsById ctx !! Shift.residentId b) as [rB|]; [|discriminate].
  destruct (negb (includesType (Resident.eligibleShiftTypes rA) _)); [discriminate|].
  destruct (negb (includesType (Resident.eligibleShiftTypes rB) _)); [discriminate|].
  intros Heq. inversion Heq; subst. apply scaleBreakdown_sound.
  split; [apply buildSection_sound|]. split; [apply buildSection_sound|].
  unfold scoreConsistent. fields.
  repeat match goal with
         | |- context [SwapPressureSection.deltaTotal (buildSection ?x ?y ?z ?w)] =>
             rewrite (proj1 (buildSection_sound x y z w))
         end.
  exact_ring.
Qed.

Lemma calculateSwapPressure_sound a b ctx : breakdownSound (calculateSwapPressure a b ctx).
Proof.
  unfold calculateSwapPressure. cbv zeta.
  destruct (scaledSwapPressure a b ctx) as [[[scaled residentA] residentB]|] eqn:Hscaled.
  - apply applyRotationPressure_sound, applyIpConsultPenalty_sound.
    eapply scaledSwapPressure_sound; eauto.
  - apply buildZeroBreakdown_sound.
Qed.

(** C2 (in exact arithmetic).  When the numbers are exact rationals,
    every section of the breakdown that the scoring engine returns
    satisfies [swappedTotal - baselineTotal = sum of call.delta], its
    [deltaTotal] is that difference, and the score is
    [original.deltaTotal + counterpart.deltaTotal]: exactly, after the
    scaling, the consult penalty and the rotation-pressure calls. *)
Theorem breakdown_consistent_exact :
  forall (a b : Shift.t) (ctx : Context.t),
    breakdownConsistent (calculateSwapPressure a b ctx)
    /\ SwapPressureSection.deltaTotal
         (SwapPressureBreakdown.original (calculateSwapPressure a b ctx))
       = (SwapPressureSection.swappedTotal
            (SwapPressureBreakdown.original (calculateSwapPressure a b ctx))
          - SwapPressureSection.baselineTotal
              (SwapPressureBreakdown.original (calculateSwapPressure a b ctx)))%num
    /\ SwapPressureSection.deltaTotal
         (SwapPressureBreakdown.counterpart (calculateSwapPressure a b ctx))
       = (SwapPressureSection.swappedTotal
            (SwapPressureBreakdown.counterpart (calculateSwapPressure a b ctx))
          - SwapPressureSection.baselineTotal
              (SwapPressureBreakdown.counterpart (calculateSwapPressure a b ctx)))%num.
Proof.
  intros a b ctx.
  destruct (calculateSwapPressure_sound a b ctx) as ([HdO HcO] & [HdC HcC] & Hscore).
  repeat split; assumption.
Qed.

End ExactScoring.

(** ** The two arithmetic structures satisfy the order laws *)

Section NumberLaws.

Lemma Exact_laws : JsNumberLaws Exact.number.
Proof.
  split; cbn [ltb leb max ofZ num Exact.number].
  - intros x. unfold Exact.lt.
    rewrite (proj1 (Qceq_alt x x) eq_refl). reflexivity.
  - reflexivity.
  - intros x. unfold Exact.le, Exact.lt, Qccompare.
    rewrite <- (Qcompare_antisym x (Exact.of_int 0)).
    destruct (Qcompare x (Exact.of_int 0)); simpl; congruence.
  - intros x Hle. unfold Exact.math_max.
    assert (Hlt : Exact.lt (Exact.of_int 0) x = false).
    { revert Hle. unfold Exact.le, Exact.lt, Qccompare.
      rewrite <- (Qcompare_antisym x (Exact.of_int 0)).
      destruct (Qcompare x (Exact.of_int 0)); simpl; congruence. }
    rewrite Hlt. reflexivity.
Qed.

Lemma float_ltb_irrefl (x : float) : PrimFloat.ltb x x = false.
Proof.
  rewrite FloatAxioms.ltb_spec. unfold SFltb, SFcompare.
  destruct (Prim2SF x) as [s|s| |s m e]; try reflexivity.
  - destruct s; reflexivity.
  - destruct s; rewrite Z.compare_refl; simpl; rewrite Pos.compare_refl; reflexivity.
Qed.

Lemma float_zero : Prim2SF (Float64.of_int 0) = S754_zero false.
Proof. reflexivity. Qed.

Lemma float_nonpos (x : float) :
  PrimFloat.leb x (Float64.of_int 0) = true ->
  PrimFloat.ltb (Float64.of_int 0) x = false
  /\ PrimFloat.is_nan x = false.
Proof.
  unfold PrimFloat.is_nan.
  rewrite FloatAxioms.leb_spec, FloatAxioms.ltb_spec, FloatAxioms.eqb_spec, float_zero.
  unfold SFleb, SFltb, SFeqb, SFcompare.
  destruct (Prim2SF x) as [s|s| |s m e]; try destruct s; simpl; try discriminate;
    intros _; split; try reflexivity;
    rewrite Z.compare_refl, Pos.compare_refl; reflexivity.
Qed.

Lemma Float64_laws : JsNumberLaws Float64.number.
Proof.
  split; cbn [ltb leb max ofZ num Float64.number].
  - apply float_ltb_irrefl.
  - reflexivity.
  - intros x Hle. apply (float_nonpos x Hle).
  - intros x Hle. destruct (float_nonpos x Hle) as [Hlt Hnan].
    unfold Float64.math_max. rewrite Hnan, Hlt.
    change (PrimFloat.is_nan (Float64.of_int 0)) with false.
    change (PrimFloat.get_sign (Float64.of_int 0)) with false.
    simpl. destruct (PrimFloat.ltb x (Float64.of_int 0)); reflexivity.
Qed.

End NumberLaws.

(** ** Further properties of the rule engine *)

Section GateProperties.
Context {N : JsNumber} {H : Host}.

(** [evaluate] returned a rejection of the given kind. *)
Definition rejectedAs (result : outcome SwapEvaluation) (kind : string) : Prop :=
  exists reason advisories,
    result = Returns (Infeasible reason advisories) /\ kindOf reason = kind.

(** Both tiers are determined and differ. *)
Definition tiersClash (a b : Shift.t) : bool :=
  match getMosesTier a, getMosesTier b with
  | Some tA, Some tB => negb (bool_decide (tA = tB))
  | _, _ => false
  end.

(** The type passes the whitelist: the whitelist is empty or has it. *)
Definition whitelisted (cfg : RuleConfig.t) (type : ShiftType) : bool :=
  match RuleConfig.typeWhitelist cfg with
  | [] => true
  | whitelist => includesType whitelist type
  end.

(** The gates of [prepareSwap] on present inputs, as one decision list. *)
Lemma prepareSwap_gates (a b : Shift.t) (ctx : Context.t) :
  match prepareSwap (Some a) (Some b) (Some ctx) with
  | inl failure =>
      if String.eqb (Shift.id a) (Shift.id b) then kindOf failure = "identical-shift"
      else if String.eqb (Shift.residentId a) (Shift.residentId b)
      then kindOf failure = "same-resident"
      else
        match Context.residentsById ctx !! Shift.residentId a,
              Context.residentsById ctx !! Shift.residentId b with
        | Some rA, Some rB =>
            if tiersClash a b then kindOf failure = "moses-tier-mismatch"
            else if negb (Bool.eqb (isWeekendOrHoliday a) (isWeekendOrHoliday b))
            then kindOf failure = "weekend-mismatch"
            else if negb (whitelisted (Context.ruleConfig ctx) (Shift.type a)
                          && whitelisted (Context.ruleConfig ctx) (Shift.type b))
            then kindOf failure = "type-whitelist"
            else if negb (includesType (Resident.eligibleShiftTypes rA) (Shift.type b))
            then kindOf failure = "eligibility-a"
            else includesType (Resident.eligibleShiftTypes rB) (Shift.type a) = false
                 /\ kindOf failure = "eligibility-b"
        | _, _ => kindOf failure = "resident-missing"
        end
  | inr prep =>
      String.eqb (Shift.id a) (Shift.id b) = false
      /\ String.eqb (Shift.residentId a) (Shift.residentId b) = false
      /\ Context.residentsById ctx !! Shift.residentId a = Some (PreparedSwap.residentA prep)
      /\ Context.residentsById ctx !! Shift.residentId b = Some (PreparedSwap.residentB prep)
      /\ tiersClash a b = false
      /\ isWeekendOrHoliday a = isWeekendOrHoliday b
      /\ whitelisted (Context.ruleConfig ctx) (Shift.type a) = true
      /\ whitelisted (Context.ruleConfig ctx) (Shift.type b) = true
      /\ includesType (Resident.eligibleShiftTypes (PreparedSwap.residentA prep))
           (Shift.type b) = true
      /\ includesType (Resident.eligibleShiftTypes (PreparedSwap.residentB prep))
           (Shift.type a) = true
      /\ prep = PreparedSwap.mk ctx a b (PreparedSwap.residentA prep)
                  (PreparedSwap.residentB prep)
  end.
Proof.
  unfold prepareSwap, tiersClash, whitelisted.
  destruct (String.eqb (Shift.id a) (Shift.id b)); [reflexivity|].
  destruct (String.eqb (Shift.residentId a) (Shift.residentId b)); [reflexivity|].
  destruct (Context.residentsById ctx !! Shift.residentId a) as [rA|]; [|reflexivity].
  destruct (Context.residentsById ctx !! Shift.residentId b) as [rB|]; [|reflexivity].
  cbv zeta.
  assert (Htier :
    match getMosesTier a, getMosesTier b with
    | Some tA, Some tB => if negb (bool_decide (tA = tB)) then Some (tA, tB) else None
    | _, _ => None
    end = None
    <-> match getMosesTier a, getMosesTier b with
        | Some tA, Some tB => negb (bool_decide (tA = tB))
        | _, _ => false
        end = false).
  { destruct (getMosesTier a), (getMosesTier b); try tauto.
    destruct (negb _); split; congruence. }
  destruct (match getMosesTier a, getMosesTier b with
            | Some tA, Some tB => if negb (bool_decide (tA = tB)) then Some (tA, tB) else None
            | _, _ => None
            end) as [[tA tB]|] eqn:Hm.
  - destruct (match getMosesTier a, getMosesTier b with
              | Some tA, Some tB => negb (bool_decide (tA = tB))
              | _, _ => false
              end) eqn:Hc; [reflexivity|].
    pose proof (proj2 Htier eq_refl) as Hno. discriminate.
  - rewrite (proj1 Htier eq_refl).
    destruct (Bool.eqb (isWeekendOrHoliday a) (isWeekendOrHoliday b)) eqn:Hw; simpl;
      [|reflexivity].
    apply Bool.eqb_prop in Hw.
    destruct (RuleConfig.typeWhitelist (Context.ruleConfig ctx)) as [|t whitelist] eqn:Hwl.
    + simpl.
      destruct (includesType (Resident.eligibleShiftTypes rA) (Shift.type b)) eqn:HeA; simpl;
        [|reflexivity].
      destruct (includesType (Resident.eligibleShiftTypes rB) (Shift.type a)) eqn:HeB; simpl;
        [|split; reflexivity].
      repeat split; auto.
    + change (0 <? Z.of_nat (length (t :: whitelist))) with true.
      destruct (includesType (t :: whitelist) (Shift.type a)) eqn:HwA; simpl; [|reflexivity].
      destruct (includesType (t :: whitelist) (Shift.type b)) eqn:HwB; simpl; [|reflexivity].
      destruct (includesType (Resident.eligibleShiftTypes rA) (Shift.type b)) eqn:HeA; simpl;
        [|reflexivity].
      destruct (includesType (Resident.eligibleShiftTypes rB) (Shift.type a)) eqn:HeB; simpl;
        [|split; reflexivity].
      repeat split; auto.
Qed.


(** A rejection of a kind that only [prepareSwap] produces comes from
    [prepareSwap]. *)
Lemma rejectedAs_gate a b ctx kind :
  kind <> "shabbos-restriction" -> kind <> "vacation-conflict" ->
  kind <> "rotation-block" -> kind <> "rule-violation" -> kind <> "unexpected-error" ->
  (rejectedAs (evaluateSwap a b ctx) kind <->
   exists failure, prepareSwap a b ctx = inl failure /\ kindOf failure = kind).
Proof.
  intros N1 N2 N3 N4 N5. split.
  - intros (reason & advisories & Heval & Hkind).
    destruct (prepareSwap a b ctx) as [failure|prep] eqn:Hprep.
    + rewrite evaluateSwap_phases, Hprep in Heval. inversion Heval; subst. eauto.
    + destruct (evaluateSwap_prepared_kind a b ctx prep reason advisories Hprep Heval)
        as [K|[K|[K|[K|K]]]]; congruence.
  - intros (failure & Hprep & Hkind). exists failure, None.
    rewrite evaluateSwap_phases, Hprep. auto.
Qed.

Local Ltac gate_kinds := intros; discriminate.

(** Case analysis along the decision list of [prepareSwap]. *)
Local Ltac walk_gates Hg :=
  repeat match type of Hg with
         | (if ?c then _ else _) => destruct c eqn:?
         | match ?x with Some _ => _ | None => _ end => destruct x eqn:?
         | _ /\ _ => destruct Hg as [? Hg]
         end.

Local Ltac gates a b ctx :=
  let Hg := fresh "Hg" in
  pose proof (prepareSwap_gates a b ctx) as Hg;
  let Heq := fresh "Hgate" in
  let f := fresh "failure" in
  let p := fresh "prep" in
  destruct (prepareSwap (Some a) (Some b) (Some ctx)) as [f|p] eqn:Heq;
  walk_gates Hg.

(** X1.  The first gates of [evaluate], in their order.  The answer is
    [missing-input] exactly when a shift or the context is absent;
    [identical-shift] exactly when the two ids are equal; [same-resident]
    exactly when the ids differ and the owner is the same;
    [resident-missing] exactly when ids and owners differ and one owner is
    not in the index.  So no shift can be swapped with itself, and no two
    shifts of one person can be swapped. *)
Theorem early_gates_exact :
  (forall a b ctx,
      rejectedAs (evaluateSwap a b ctx) "missing-input"
      <-> a = None \/ b = None \/ ctx = None)
  /\ (forall a b ctx,
         rejectedAs (evaluateSwap (Some a) (Some b) (Some ctx)) "identical-shift"
         <-> Shift.id a = Shift.id b)
  /\ (forall a b ctx,
         rejectedAs (evaluateSwap (Some a) (Some b) (Some ctx)) "same-resident"
         <-> Shift.id a <> Shift.id b /\ Shift.residentId a = Shift.residentId b)
  /\ (forall a b ctx,
         rejectedAs (evaluateSwap (Some a) (Some b) (Some ctx)) "resident-missing"
         <-> Shift.id a <> Shift.id b /\ Shift.residentId a <> Shift.residentId b
             /\ (Context.residentsById ctx !! Shift.residentId a = None
                 \/ Context.residentsById ctx !! Shift.residentId b = None))
  /\ (forall a ctx, isFeasibleSwap a a ctx = Returns false)
  /\ (forall a b ctx,
         Shift.residentId a = Shift.residentId b -> isFeasibleSwap a b ctx = Returns false).
Proof.
  split; [|split; [|split; [|split; [|split]]]].
  - intros a b ctx. rewrite rejectedAs_gate by gate_kinds. split.
    + intros (failure & Hprep & Hkind).
      destruct a as [a|]; [|auto]. destruct b as [b|]; [|auto].
      destruct ctx as [ctx|]; [|auto]. exfalso.
      gates a b ctx; inversion Hprep; subst; congruence.
    + intros Hmissing.
      exists (missing_input (option_map Shift.id a) (option_map Shift.id b)).
      split; [|reflexivity].
      destruct Hmissing as [-> | [-> | ->]]; unfold prepareSwap;
        repeat match goal with |- context [match ?x with Some _ => _ | None => _ end] =>
                 destruct x end; reflexivity.
  - intros a b ctx. rewrite rejectedAs_gate by gate_kinds. split.
    + intros (failure & Hprep & Hkind). apply String.eqb_eq.
      gates a b ctx; inversion Hprep; subst; congruence.
    + intros Hid. apply String.eqb_eq in Hid.
      gates a b ctx; try congruence; eauto.
  - intros a b ctx. rewrite rejectedAs_gate by gate_kinds.
    rewrite <- String.eqb_neq, <- String.eqb_eq. split.
    + intros (failure & Hprep & Hkind).
      gates a b ctx; inversion Hprep; subst; try congruence; auto.
    + intros [Hid Hres]. gates a b ctx; try congruence; eauto.
  - intros a b ctx. rewrite rejectedAs_gate by gate_kinds.
    rewrite <- !String.eqb_neq. split.
    + intros (failure & Hprep & Hkind).
      gates a b ctx; inversion Hprep; subst; try congruence; auto.
    + intros (Hid & Hres & Hmiss).
      gates a b ctx; try congruence; eauto; destruct Hmiss; congruence.
  - intros a ctx. unfold isFeasibleSwap.
    assert (Hid : String.eqb (Shift.id a) (Shift.id a) = true) by apply String.eqb_refl.
    rewrite evaluateSwap_phases. gates a a ctx; try congruence; reflexivity.
  - intros a b ctx Hres. apply String.eqb_eq in Hres. unfold isFeasibleSwap.
    rewrite evaluateSwap_phases. gates a b ctx; try congruence; reflexivity.
Qed.


(** A pair gets past the first gates: distinct ids, distinct owners, both
    owners in the index, no clash of tiers. *)
Definition reachesCalendarGate (a b : Shift.t) (ctx : Context.t)
    (residentA residentB : Resident.t) : Prop :=
  Shift.id a <> Shift.id b /\ Shift.residentId a <> Shift.residentId b
  /\ Context.residentsById ctx !! Shift.residentId a = Some residentA
  /\ Context.residentsById ctx !! Shift.residentId b = Some residentB
  /\ tiersClash a b = false.

(** X2.  The later gates of [prepareSwap], in their order, for a pair
    that got past the earlier ones: [weekend-mismatch] exactly when one
    shift is on a weekend or holiday and the other is not; [type-whitelist]
    exactly when, that being equal, the whitelist is not empty and misses
    one of the two types; [eligibility-a] exactly when, the whitelist
    passed, the first owner is not eligible for the second shift's type;
    [eligibility-b] exactly when, the first owner being eligible, the
    second owner is not eligible for the first shift's type. *)
Theorem late_gates_exact :
  forall (a b : Shift.t) (ctx : Context.t),
    let result := evaluateSwap (Some a) (Some b) (Some ctx) in
    let cfg := Context.ruleConfig ctx in
    (rejectedAs result "weekend-mismatch" <->
     exists rA rB, reachesCalendarGate a b ctx rA rB
                   /\ isWeekendOrHoliday a <> isWeekendOrHoliday b)
    /\ (rejectedAs result "type-whitelist" <->
        exists rA rB, reachesCalendarGate a b ctx rA rB
                      /\ isWeekendOrHoliday a = isWeekendOrHoliday b
                      /\ (whitelisted cfg (Shift.type a) = false
                          \/ whitelisted cfg (Shift.type b) = false))
    /\ (rejectedAs result "eligibility-a" <->
        exists rA rB, reachesCalendarGate a b ctx rA rB
                      /\ isWeekendOrHoliday a = isWeekendOrHoliday b
                      /\ whitelisted cfg (Shift.type a) = true
                      /\ whitelisted cfg (Shift.type b) = true
                      /\ includesType (Resident.eligibleShiftTypes rA) (Shift.type b) = false)
    /\ (rejectedAs result "eligibility-b" <->
        exists rA rB, reachesCalendarGate a b ctx rA rB
                      /\ isWeekendOrHoliday a = isWeekendOrHoliday b
                      /\ whitelisted cfg (Shift.type a) = true
                      /\ whitelisted cfg (Shift.type b) = true
                      /\ includesType (Resident.eligibleShiftTypes rA) (Shift.type b) = true
                      /\ includesType (Resident.eligibleShiftTypes rB) (Shift.type a) = false).
Proof.
  intros a b ctx result cfg. subst result cfg. unfold reachesCalendarGate.
  rewrite !rejectedAs_gate by gate_kinds.
  repeat split.
  all: try (intros (failure & Hprep & Hkind);
            gates a b ctx; inversion Hprep; subst; try congruence;
            repeat match goal with
                   | Hx : String.eqb _ _ = false |- _ => apply String.eqb_neq in Hx
                   | Hx : negb _ = true |- _ => apply negb_true_iff in Hx
                   | Hx : negb _ = false |- _ => apply negb_false_iff in Hx
                   | Hx : _ && _ = true |- _ => apply andb_true_iff in Hx; destruct Hx
                   | Hx : _ && _ = false |- _ => apply andb_false_iff in Hx
                   | Hx : Bool.eqb _ _ = true |- _ => apply Bool.eqb_prop in Hx
                   | Hx : Bool.eqb _ _ = false |- _ => apply Bool.eqb_false_iff in Hx
                   end;
            do 2 eexists; repeat split; eauto; fail).
  all: intros (rA & rB & (Hid & Hres & HrA & HrB & Htier) & Hrest);
    apply String.eqb_neq in Hid; apply String.eqb_neq in Hres;
    gates a b ctx;
    repeat match goal with
           | Hx : _ /\ _ |- _ => destruct Hx
           | Hx : negb _ = true |- _ => apply negb_true_iff in Hx
           | Hx : negb _ = false |- _ => apply negb_false_iff in Hx
           | Hx : _ && _ = true |- _ => apply andb_true_iff in Hx; destruct Hx
           | Hx : _ && _ = false |- _ => apply andb_false_iff in Hx
           | Hx : Bool.eqb _ _ = true |- _ => apply Bool.eqb_prop in Hx
           | Hx : Bool.eqb _ _ = false |- _ => apply Bool.eqb_false_iff in Hx
           | Hx : _ \/ _ |- _ => destruct Hx
           end;
    try congruence; eauto.
Qed.


(** X3.  What acceptance means.  [evaluate] accepts a pair exactly when
    the pair passes every gate (distinct ids and owners, both owners in
    the index, no clash of tiers, the same weekend-or-holiday status, both
    types whitelisted, each owner eligible for the other's type), the
    Shabbos check refuses neither incoming assignment, the vacation and
    rotation checks of both persons find nothing, and the re-validation of
    both timelines throws nothing. *)
Theorem acceptance_exact :
  forall (a b : Shift.t) (ctx : Context.t),
    (exists advisories,
        evaluateSwap (Some a) (Some b) (Some ctx) = Returns (Feasible advisories))
    <->
    exists rA rB,
      reachesCalendarGate a b ctx rA rB
      /\ isWeekendOrHoliday a = isWeekendOrHoliday b
      /\ whitelisted (Context.ruleConfig ctx) (Shift.type a) = true
      /\ whitelisted (Context.ruleConfig ctx) (Shift.type b) = true
      /\ includesType (Resident.eligibleShiftTypes rA) (Shift.type b) = true
      /\ includesType (Resident.eligibleShiftTypes rB) (Shift.type a) = true
      /\ (let incomingA := Shift.withResidentId b (Resident.id rA) in
          let incomingB := Shift.withResidentId a (Resident.id rB) in
          evaluateShabbosRestriction rA incomingA (Context.shabbosObservers ctx) = None
          /\ evaluateShabbosRestriction rB incomingB (Context.shabbosObservers ctx) = None
          /\ calendarCheck incomingA rA = Returns None
          /\ calendarCheck incomingB rB = Returns None
          /\ (exists found, revalidate ctx rA a incomingA = Ok found)
          /\ (exists found, revalidate ctx rB b incomingB = Ok found)).
Proof.
  intros a b ctx.
  assert (Hacc : (exists advisories,
                     evaluateSwap (Some a) (Some b) (Some ctx) = Returns (Feasible advisories))
                 <-> accepted (evaluateSwap (Some a) (Some b) (Some ctx)) = true).
  { unfold accepted. destruct (evaluateSwap _ _ _) as [[adv|r adv]|]; split;
      try discriminate; eauto; intros [x Hx]; discriminate. }
  rewrite Hacc, evaluateSwap_phases. unfold reachesCalendarGate.
  pose proof (prepareSwap_gates a b ctx) as Hg.
  destruct (prepareSwap (Some a) (Some b) (Some ctx)) as [failure|prep] eqn:Hprep.
  - split; [discriminate|].
    intros (rA & rB & (Hid & Hres & HrA & HrB & Htier) & Hw & HwA & HwB & HeA & HeB & _).
    apply String.eqb_neq in Hid. apply String.eqb_neq in Hres.
    rewrite Hid, Hres, HrA, HrB, Htier, Hw, Bool.eqb_reflx, HwA, HwB, HeA in Hg.
    simpl in Hg. destruct Hg as [Hg _]. congruence.
  - destruct Hg as (Hid & Hres & HrA & HrB & Htier & Hw & HwA & HwB & HeA & HeB & Heq).
    rewrite Heq. simpl PreparedSwap.ctx. simpl PreparedSwap.residentA.
    simpl PreparedSwap.residentB. simpl PreparedSwap.shiftA. simpl PreparedSwap.shiftB.
    rewrite afterPrepare_accepted. cbv zeta.
    set (rA := PreparedSwap.residentA prep) in *.
    set (rB := PreparedSwap.residentB prep) in *.
    split.
    + intros Hall.
      repeat match type of Hall with _ && _ = true =>
               apply andb_true_iff in Hall; destruct Hall as [Hall ?] end.
      exists rA, rB. apply String.eqb_neq in Hid. apply String.eqb_neq in Hres.
      repeat match goal with
             | Hx : negb (refuses ?x) = true |- _ =>
                 destruct x eqn:?; [discriminate Hx|]; clear Hx
             | Hx : passes ?x = true |- _ =>
                 destruct x as [[?|]|] eqn:?; try discriminate Hx; clear Hx
             | Hx : succeeds ?x = true |- _ =>
                 destruct x eqn:?; [|discriminate Hx]; clear Hx
             end.
      destruct (evaluateShabbosRestriction rA _ _) eqn:?; [discriminate|].
      repeat split; eauto.
    + intros (rA' & rB' & (_ & _ & HrA' & HrB' & _) & _ & _ & _ & _ & _ & Hchecks).
      assert (rA' = rA) by congruence. assert (rB' = rB) by congruence. subst rA' rB'.
      destruct Hchecks as (-> & -> & -> & -> & [fA ->] & [fB ->]). reflexivity.
Qed.

End GateProperties.


Section CalendarProperties.
Context {N : JsNumber} {H : Host}.

Lemma vacationDates_fold (dates : list string) (acc : gset string) (date : string) :
  date ∈ fold_left (fun dates date => {[date]} ∪ dates) dates acc
  <-> date ∈ dates \/ date ∈ acc.
Proof.
  revert acc. induction dates as [|d dates IH]; intros acc; simpl.
  - rewrite elem_of_nil. tauto.
  - rewrite IH, elem_of_cons, elem_of_union, elem_of_singleton. tauto.
Qed.

Lemma collectVacationDates_fold (assignments : list RotationAssignment.t)
    (acc : gset string) (date : string) :
  date ∈ fold_left
           (fun dates assignment =>
              fold_left (fun dates date => {[date]} ∪ dates)
                (RotationAssignment.vacationDates assignment) dates)
           assignments acc
  <-> (exists assignment,
          assignment ∈ assignments
          /\ date ∈ RotationAssignment.vacationDates assignment)
      \/ date ∈ acc.
Proof.
  revert acc. induction assignments as [|x assignments IH]; intros acc; simpl.
  - split; [auto|]. intros [(assignment & Hin & _)|Hacc]; [|exact Hacc].
    apply elem_of_nil in Hin. destruct Hin.
  - rewrite IH, vacationDates_fold. split.
    + intros [(assignment & Hin & Hdate)|[Hdate|Hacc]]; auto.
      * left. exists assignment. split; [apply elem_of_cons; auto | exact Hdate].
      * left. exists x. split; [apply elem_of_cons; auto | exact Hdate].
    + intros [(assignment & Hin & Hdate)|Hacc]; auto.
      apply elem_of_cons in Hin. destruct Hin as [->|Hin]; eauto.
Qed.

Lemma collectVacationDates_spec (resident : Resident.t) (date : string) :
  date ∈ collectVacationDates resident
  <-> exists assignment,
        assignment ∈ Resident.rotations resident
        /\ date ∈ RotationAssignment.vacationDates assignment.
Proof.
  unfold collectVacationDates. rewrite collectVacationDates_fold.
  split; [intros [Hx|Hx]; [exact Hx | apply elem_of_empty in Hx; destruct Hx] | auto].
Qed.

(** X4.  The vacation check.  The vacation dates of a person are the
    dates listed by the person's rotation assignments.  A person without
    vacation dates has no conflict, whatever the shift; otherwise the
    conflicts are the calendar days of the shift that are vacation dates,
    in order.  A pair that has passed the gates and the Shabbos check is
    rejected with [vacation-conflict], naming the person, the incoming
    shift and these days, exactly when the first person's incoming
    assignment has a conflict or, the first person's calendar checks
    having found nothing, the second person's has. *)
Theorem vacation_conflict_exact :
  (forall (resident : Resident.t) (date : string),
      date ∈ collectVacationDates resident
      <-> exists assignment,
            assignment ∈ Resident.rotations resident
            /\ date ∈ RotationAssignment.vacationDates assignment)
  /\ (forall (shift : Shift.t) (resident : Resident.t),
         collectVacationDates resident = ∅ ->
         shiftVacationConflicts shift resident = Returns [])
  /\ (forall (shift : Shift.t) (resident : Resident.t) (days : list string),
         enumerateShiftCalendarDays shift = Returns days ->
         shiftVacationConflicts shift resident
         = Returns (filter (fun date => date ∈ collectVacationDates resident) days))
  /\ (forall a b ctx prep,
         prepareSwap a b ctx = inr prep ->
         let residentA := PreparedSwap.residentA prep in
         let residentB := PreparedSwap.residentB prep in
         let swappedForA :=
           Shift.withResidentId (PreparedSwap.shiftB prep) (Resident.id residentA) in
         let swappedForB :=
           Shift.withResidentId (PreparedSwap.shiftA prep) (Resident.id residentB) in
         resolveShabbosRestrictionForSwap
           (Context.shabbosObservers (PreparedSwap.ctx prep))
           [(residentA, swappedForA); (residentB, swappedForB)] = None ->
         forall residentId shiftId conflictDates advisories,
           evaluateSwap a b ctx
           = Returns (Infeasible (vacation_conflict residentId shiftId conflictDates)
                        advisories)
           <->
           advisories = None /\ conflictDates <> []
           /\ ((shiftVacationConflicts swappedForA residentA = Returns conflictDates
                /\ residentId = Resident.id residentA /\ shiftId = Shift.id swappedForA)
               \/ (calendarCheck swappedForA residentA = Returns None
                   /\ shiftVacationConflicts swappedForB residentB = Returns conflictDates
                   /\ residentId = Resident.id residentB
                   /\ shiftId = Shift.id swappedForB))).
Proof.
  split; [exact collectVacationDates_spec|]. split; [|split].
  - intros shift resident Hempty. unfold shiftVacationConflicts. cbv zeta.
    rewrite bool_decide_eq_true_2 by exact Hempty. reflexivity.
  - intros shift resident days Hdays. unfold shiftVacationConflicts. cbv zeta.
    rewrite Hdays. simpl. destruct (bool_decide _) eqn:Hempty; [|reflexivity].
    apply bool_decide_eq_true_1 in Hempty. rewrite Hempty. f_equal.
    clear Hdays. induction days as [|d days IH]; [reflexivity|].
    rewrite filter_cons. destruct (decide (d ∈ (∅ : gset string))) as [Hin|_].
    + apply elem_of_empty in Hin. destruct Hin.
    + apply IH.
  - intros a b ctx prep Hprep residentA residentB swappedForA swappedForB Hshabbos
           residentId shiftId conflictDates advisories.
    rewrite evaluateSwap_phases, Hprep. unfold afterPrepare. cbv zeta.
    fold residentA residentB swappedForA swappedForB. rewrite Hshabbos.
    unfold calendarCheck at 1. unfold bindOutcome at 1 2.
    destruct (shiftVacationConflicts swappedForA residentA) as [[|d ds]|] eqn:HvA.
    + unfold calendarCheck at 2. rewrite HvA. unfold bindOutcome at 2.
      destruct (shiftRotationConflicts swappedForA residentA) as [[block|]|] eqn:HrA; simpl.
      * split; [intros Heq; discriminate|].
        intros (_ & Hne & [(Heq & _)|(Heq & _)]); [|discriminate].
        inversion Heq; subst. congruence.
      * unfold calendarCheck. unfold bindOutcome.
        destruct (shiftVacationConflicts swappedForB residentB) as [[|d ds]|] eqn:HvB.
        -- destruct (shiftRotationConflicts swappedForB residentB) as [[block|]|]; simpl.
           ++ split; [intros Heq; discriminate|].
              intros (_ & Hne & [(Heq & _)|(_ & Heq & _)]); inversion Heq; subst; congruence.
           ++ split.
              ** intros Heq. inversion Heq as [Hphase].
                 apply timelinePhase_kind in Hphase. destruct Hphase; discriminate.
              ** intros (_ & Hne & [(Heq & _)|(_ & Heq & _)]);
                   inversion Heq; subst; congruence.
           ++ split; [intros Heq; discriminate|].
              intros (_ & Hne & [(Heq & _)|(_ & Heq & _)]); inversion Heq; subst; congruence.
        -- split.
           ++ intros Heq. inversion Heq; subst.
              split; [reflexivity|]. split; [discriminate|]. right. auto.
           ++ intros (-> & Hne & [(Heq & _)|(_ & Heq & -> & ->)]).
              ** inversion Heq; subst. congruence.
              ** inversion Heq; subst. reflexivity.
        -- split; [intros Heq; discriminate|].
           intros (_ & Hne & [(Heq & _)|(_ & Heq & _)]); inversion Heq; subst; congruence.
      * split; [intros Heq; discriminate|].
        intros (_ & Hne & [(Heq & _)|(Heq & _)]); [|discriminate].
        inversion Heq; subst. congruence.
    + split.
      * intros Heq. inversion Heq; subst.
        split; [reflexivity|]. split; [discriminate|]. left. auto.
      * intros (-> & Hne & [(Heq & -> & ->)|(Hcheck & _)]).
        -- inversion Heq; subst. reflexivity.
        -- unfold calendarCheck in Hcheck. rewrite HvA in Hcheck. discriminate.
    + split; [intros Heq; discriminate|].
      intros (_ & Hne & [(Heq & _)|(Hcheck & _)]); [discriminate|].
      unfold calendarCheck in Hcheck. rewrite HvA in Hcheck. discriminate.
Qed.

End CalendarProperties.


Section RotationLookup.
Context {N : JsNumber} {H : Host}.

(** The week of the assignment (week start to week start plus 6 days)
    contains the day of the instant. *)
Definition weekCovers (assignment : RotationAssignment.t) (target : Z) : Prop :=
  exists weekStart,
    dayjs (RotationAssignment.weekStartISO assignment) = Some weekStart
    /\ localDay weekStart <= localDay target <= localDay weekStart + 6.

Lemma find_rev_last {A : Type} (p : A -> bool) (l : list A) (x : A) :
  find p (rev l) = Some x ->
  exists before after,
    l = before ++ x :: after /\ p x = true /\ Forall (fun y => p y = false) after.
Proof.
  induction l as [|y l IH] using rev_ind; [discriminate|].
  rewrite rev_app_distr. simpl. destruct (p y) eqn:Hy.
  - intros Heq. inversion Heq; subst. exists l, []. auto.
  - intros Hfind. destruct (IH Hfind) as (before & after & -> & Hx & Hafter).
    exists before, (after ++ [y]). rewrite <- app_assoc. simpl.
    split; [reflexivity|]. split; [exact Hx|].
    apply Forall_app. split; [exact Hafter|]. constructor; [exact Hy | constructor].
Qed.

Lemma find_rev_none {A : Type} (p : A -> bool) (l : list A) :
  find p (rev l) = None <-> Forall (fun y => p y = false) l.
Proof.
  split.
  - intros Hnone. apply Forall_forall. intros y Hy.
    apply (find_none p (rev l) Hnone y). apply in_rev. rewrite rev_involutive.
    apply list_elem_of_In. exact Hy.
  - intros Hall. destruct (find p (rev l)) as [x|] eqn:Hfind; [|reflexivity].
    apply find_some in Hfind. destruct Hfind as [Hin Hx].
    apply in_rev, list_elem_of_In in Hin.
    rewrite Forall_forall in Hall. rewrite (Hall x Hin) in Hx. discriminate.
Qed.

Lemma coversb_spec day assignment target :
  day = localDay target ->
  match dayjs (RotationAssignment.weekStartISO assignment) with
  | None => false
  | Some weekStart =>
      if day <? localDay weekStart then false
      else if localDay weekStart + 6 <? day then false
      else true
  end = true <-> weekCovers assignment target.
Proof.
  intros ->. unfold weekCovers.
  destruct (dayjs (RotationAssignment.weekStartISO assignment)) as [w|].
  - destruct (localDay target <? localDay w) eqn:H1;
      [apply Z.ltb_lt in H1 | apply Z.ltb_ge in H1].
    + split; [discriminate|]. intros (w' & Heq & Hr). inversion Heq; subst. lia.
    + destruct (localDay w + 6 <? localDay target) eqn:H2;
        [apply Z.ltb_lt in H2 | apply Z.ltb_ge in H2].
      * split; [discriminate|]. intros (w' & Heq & Hr). inversion Heq; subst. lia.
      * split; [|reflexivity]. intros _. exists w. split; [reflexivity | lia].
  - split; [discriminate|]. intros (w' & Heq & _). discriminate.
Qed.

Lemma findRotationForDate_found (assignments : list RotationAssignment.t) (isoDate : string)
    (found : RotationAssignment.t) :
  findRotationForDate assignments isoDate = Some found ->
  exists target before after,
    dayjs isoDate = Some target
    /\ assignments = before ++ found :: after
    /\ weekCovers found target
    /\ forall later, later ∈ after -> ~ weekCovers later target.
Proof.
  unfold findRotationForDate. destruct assignments as [|x assignments]; [discriminate|].
  set (l := x :: assignments). clearbody l.
  destruct (dayjs isoDate) as [target|]; [|discriminate].
  intros Hfind. apply find_rev_last in Hfind.
  destruct Hfind as (before & after & -> & Hx & Hafter).
  exists target, before, after. split; [reflexivity|]. split; [reflexivity|].
  split; [apply (coversb_spec (localDay target)); [reflexivity | exact Hx]|].
  intros later Hin Hcov. rewrite Forall_forall in Hafter.
  specialize (Hafter later Hin).
  apply (coversb_spec (localDay target) later target eq_refl) in Hcov. congruence.
Qed.

(** X5.  [findRotationForDate] returns an assignment of the list whose
    week (the day of its week start and the six days after) contains the
    day of the date, and among several such assignments the last of the
    list; it returns nothing exactly when the date does not parse or no
    assignment's week contains the day (an assignment whose week start
    does not parse contains no day). *)
Theorem findRotationForDate_spec :
  forall (assignments : list RotationAssignment.t) (isoDate : string),
    (forall found,
        findRotationForDate assignments isoDate = Some found ->
        exists target before after,
          dayjs isoDate = Some target
          /\ assignments = before ++ found :: after
          /\ weekCovers found target
          /\ forall later, later ∈ after -> ~ weekCovers later target)
    /\ (findRotationForDate assignments isoDate = None <->
        match dayjs isoDate with
        | None => True
        | Some target =>
            forall assignment, assignment ∈ assignments -> ~ weekCovers assignment target
        end).
Proof.
  intros assignments isoDate.
  split; [intros found; apply findRotationForDate_found|].
  unfold findRotationForDate.
  destruct assignments as [|x assignments].
  - split; [|reflexivity]. intros _.
    destruct (dayjs isoDate); [|exact I]. intros assignment Hin.
    apply elem_of_nil in Hin. destruct Hin.
  - set (l := x :: assignments). clearbody l.
    destruct (dayjs isoDate) as [target|]; [|tauto].
    rewrite find_rev_none, Forall_forall. split.
    + intros Hall assignment Hin Hcov.
      apply (coversb_spec (localDay target) assignment target eq_refl) in Hcov.
      specialize (Hall assignment Hin). simpl in Hall. congruence.
    + intros Hall assignment Hin.
      destruct (match dayjs (RotationAssignment.weekStartISO assignment) with
                | Some weekStart => _ | None => _ end) eqn:Hc; [|reflexivity].
      apply (coversb_spec (localDay target) assignment target eq_refl) in Hc.
      destruct (Hall assignment Hin Hc).
Qed.

(** X6.  The rotation check agrees with the rotation lookup: when the
    start of a shift falls in the week of a rotation assignment of the
    person (as [findRotationForDate] finds it), the assignment blocks
    calls for the person, and the shift does not end on an earlier day
    than it starts, the rotation check reports a conflict. *)
Theorem rotation_week_blocks_incoming :
  forall (shift : Shift.t) (resident : Resident.t) (assignment : RotationAssignment.t)
         (s e : Z),
    dayjs (Shift.startISO shift) = Some s ->
    dayjs (Shift.endISO shift) = Some e ->
    localDay s <= localDay e ->
    findRotationForDate (Resident.rotations resident) (Shift.startISO shift)
    = Some assignment ->
    isRotationBlockedForResident assignment resident shift = true ->
    exists conflict, shiftRotationConflicts shift resident = Returns (Some conflict).
Proof.
  intros shift resident assignment s e Hs He Hle Hfind Hblocked.
  destruct (findRotationForDate_found _ _ _ Hfind)
    as (target & before & after & Ht & Hl & Hcov & _).
  assert (target = s) by congruence. subst target.
  destruct Hcov as (w & Hw & Hrange).
  assert (Hdays : enumerateShiftCalendarDays shift
                  = Returns (formatYMD <$> seqZ (localDay s) (localDay e - localDay s + 1))).
  { unfold enumerateShiftCalendarDays. rewrite Hs, He. reflexivity. }
  destruct (shiftRotationConflicts_spec shift resident _ Hdays) as (found & Hfound & Hiff).
  assert (Hsome' : is_Some found).
  { apply Hiff. exists assignment. split.
    - rewrite Hl. apply elem_of_app. right. apply elem_of_cons. left. reflexivity.
    - split; [exact Hblocked|]. exists (formatYMD (localDay s)). split.
      + apply list_elem_of_fmap. exists (localDay s). split; [reflexivity|].
        apply elem_of_seqZ. lia.
      + apply (collectRotationBlockedDates_spec assignment w _ Hw).
        exists (localDay s - localDay w). split.
        * left. lia.
        * f_equal. lia. }
  destruct Hsome' as [conflict ->]. eauto.
Qed.

End RotationLookup.


Section ShabbosLabels.
Context {N : JsNumber} {H : Host}.

Lemma saturdayDaytimeCall_facts (incoming : Shift.t) :
  isSaturdayDaytimeCall incoming = true ->
  Shift.type incoming <> NIGHT_FLOAT /\ isFridayCall incoming = false.
Proof.
  unfold isSaturdayDaytimeCall, isFridayCall, includesType, SATURDAY_DAYTIME_TYPES.
  destruct (bool_decide (Shift.type incoming ∈ [MOSES; WEILER])) eqn:Htype; simpl;
    [|discriminate].
  apply bool_decide_eq_true_1 in Htype.
  destruct (dayjs (Shift.startISO incoming)) as [t|]; [|discriminate].
  destruct (weekday (localDay t) =? SATURDAY) eqn:Hday; simpl; [|discriminate].
  intros _. split.
  - intros Heq. rewrite Heq in Htype.
    apply elem_of_cons in Htype. destruct Htype as [Hx|Htype]; [discriminate|].
    apply elem_of_cons in Htype. destruct Htype as [Hx|Htype]; [discriminate|].
    apply elem_of_nil in Htype. destruct Htype.
  - apply Z.eqb_eq in Hday. apply Z.eqb_neq. unfold SATURDAY, FRIDAY in *. lia.
Qed.

Lemma isNightFloat_type (incoming : Shift.t) :
  isNightFloat incoming = true <-> Shift.type incoming = NIGHT_FLOAT.
Proof.
  unfold isNightFloat. split; [apply bool_decide_eq_true_1 | apply bool_decide_eq_true_2].
Qed.

Lemma fridayCall_not_saturdayNightFloat (incoming : Shift.t) :
  isFridayCall incoming = true -> isSaturdayNightFloat incoming = false.
Proof.
  unfold isFridayCall, isSaturdayNightFloat.
  destruct (negb (isNightFloat incoming)); [reflexivity|].
  destruct (dayjs (Shift.startISO incoming)) as [t|]; [|reflexivity].
  intros Hday. apply Z.eqb_eq in Hday. apply Z.eqb_neq. unfold SATURDAY, FRIDAY in *. lia.
Qed.

Lemma saturdayNightFloat_isNightFloat (incoming : Shift.t) :
  isSaturdayNightFloat incoming = true -> isNightFloat incoming = true.
Proof.
  unfold isSaturdayNightFloat. destruct (isNightFloat incoming); [reflexivity | discriminate].
Qed.

(** X7.  Which clause of the Shabbos check fires.  The check answers
    with the person, the id, type and start of the incoming assignment and
    a label: [observer-night-float] for an observer and a night float that
    does not start on a Saturday; [observer-friday-call] for an observer
    and an assignment that starts on a Friday and is not a night float;
    [observer-saturday-daytime] for an observer and a Saturday daytime
    call; [nonobserver-night-float] for a non-observer and a night float
    that does not start on a Saturday.  A night float that starts on a
    Friday is reported as a night float, not as a Friday call. *)
Theorem shabbos_restriction_label :
  forall (resident : Resident.t) (incoming : Shift.t) (observers : gset string)
         (reason : SwapRejectionReason),
    evaluateShabbosRestriction resident incoming observers = Some reason <->
    exists label,
      reason = shabbos_restriction (Resident.id resident) (Shift.id incoming)
                 (Shift.type incoming) (Shift.startISO incoming) label
      /\ match label with
         | observer_night_float =>
             Resident.id resident ∈ observers
             /\ Shift.type incoming = NIGHT_FLOAT /\ isSaturdayNightFloat incoming = false
         | observer_friday_call =>
             Resident.id resident ∈ observers
             /\ Shift.type incoming <> NIGHT_FLOAT /\ isFridayCall incoming = true
         | observer_saturday_daytime =>
             Resident.id resident ∈ observers /\ isSaturdayDaytimeCall incoming = true
         | nonobserver_night_float =>
             (Resident.id resident ∉ observers)
             /\ Shift.type incoming = NIGHT_FLOAT /\ isSaturdayNightFloat incoming = false
         end.
Proof.
  intros resident incoming observers reason.
  unfold evaluateShabbosRestriction, buildShabbosRestriction. cbv zeta.
  destruct (bool_decide (Resident.id resident ∈ observers)) eqn:Hobs;
    [apply bool_decide_eq_true_1 in Hobs | apply bool_decide_eq_false_1 in Hobs];
    destruct (isNightFloat incoming) eqn:Hn;
    destruct (isSaturdayNightFloat incoming) eqn:Hs;
    destruct (isFridayCall incoming) eqn:Hf;
    destruct (isSaturdayDaytimeCall incoming) eqn:Hd; simpl;
    pose proof (saturdayDaytimeCall_facts incoming) as Hsat;
    pose proof (isNightFloat_type incoming) as Hnf;
    pose proof (fridayCall_not_saturdayNightFloat incoming) as Hfri;
    pose proof (saturdayNightFloat_isNightFloat incoming) as Hsnf;
    rewrite ?Hn, ?Hs, ?Hf, ?Hd in Hsat, Hnf, Hfri, Hsnf;
    (split;
     [ intros Heq; try discriminate Heq; inversion Heq; subst;
       eexists; (split; [reflexivity|]); intuition congruence
     | intros (label & Hr & Hlabel); destruct label; subst reason;
       try reflexivity; exfalso; intuition congruence ]).
Qed.

End ShabbosLabels.

Section TimelineProperties.
Context {N : JsNumber} {H : Host}.

(** The order in which [validateResidentTimeline] sorts: by the start
    string, under [localeCompare]. *)
Definition byStart (shifts : list Shift.t) : list Shift.t :=
  stableSort (fun a b => 0 <? localeCompare (Shift.startISO a) (Shift.startISO b)) shifts.

(** [assertShiftAllowed] lets the shift through. *)
Definition allowedShift (cfg : RuleConfig.t) (resident : Resident.t) (shift : Shift.t)
  : Prop :=
  whitelisted cfg (Shift.type shift) = true
  /\ includesType (Resident.eligibleShiftTypes resident) (Shift.type shift) = true.

(** A hard pair check lets the pair through: no overlap and, when the
    minimum is positive, no rest below it. *)
Definition pairPasses (cfg : RuleConfig.t) (prev current : Shift.t) : Prop :=
  overlaps prev current = false
  /\ (gtb (RuleConfig.restHoursMin cfg) (ofZ 0) = true ->
      restBelow (restHoursBetween prev current) (RuleConfig.restHoursMin cfg) = None).

Lemma assertShiftAllowed_ok shift cfg resident :
  assertShiftAllowed shift cfg resident = Ok tt <-> allowedShift cfg resident shift.
Proof.
  unfold assertShiftAllowed, allowedShift, whitelisted.
  destruct (RuleConfig.typeWhitelist cfg) as [|t whitelist]; simpl.
  - destruct (includesType (Resident.eligibleShiftTypes resident) (Shift.type shift));
      simpl; split; try tauto; try discriminate. intros [_ Hx]. discriminate.
  - change (0 <? Z.pos (Pos.of_succ_nat (length whitelist))) with true. simpl.
    destruct (includesType (t :: whitelist) (Shift.type shift)); simpl.
    + destruct (includesType (Resident.eligibleShiftTypes resident) (Shift.type shift));
        simpl; split; try tauto; try discriminate. intros [_ Hx]. discriminate.
    + split; [discriminate|]. intros [Hx _]. discriminate.
Qed.

Lemma assertShiftsAllowed_all sorted cfg resident :
  assertShiftsAllowed sorted cfg resident None = Ok tt
  <-> Forall (allowedShift cfg resident) sorted.
Proof.
  induction sorted as [|shift rest IH]; simpl.
  - split; [constructor | reflexivity].
  - destruct (assertShiftAllowed shift cfg resident) as [[]|e] eqn:Hone; simpl.
    + rewrite IH. split.
      * intros Hrest. constructor; [apply assertShiftAllowed_ok; exact Hone | exact Hrest].
      * intros Hall. inversion Hall; assumption.
    + split; [discriminate|]. intros Hall. inversion Hall as [|x l Hx Hl]; subst.
      apply assertShiftAllowed_ok in Hx. congruence.
Qed.

Lemma evaluatePair_hard_ok prev current cfg resident softTypes :
  involvesSoft softTypes prev current = false ->
  (exists found, evaluatePair prev current cfg resident softTypes = Ok found)
  <-> pairPasses cfg prev current.
Proof.
  intros Hsoft. rewrite (evaluatePair_hard _ _ _ _ _ Hsoft). unfold pairPasses.
  destruct (overlaps prev current).
  - split; [intros [found Hx]; discriminate | intros [Hx _]; discriminate].
  - destruct (gtb (RuleConfig.restHoursMin cfg) (ofZ 0)).
    + destruct (restBelow _ _) as [h|].
      * split; [intros [found Hx]; discriminate|]. intros [_ Hx].
        specialize (Hx eq_refl). discriminate.
      * split; [auto | eauto].
    + split; [|eauto]. intros _. split; [reflexivity | discriminate].
Qed.

Lemma evaluatePair_hard_advisories prev current cfg resident softTypes found :
  involvesSoft softTypes prev current = false ->
  evaluatePair prev current cfg resident softTypes = Ok found -> found = [].
Proof.
  intros Hsoft. rewrite (evaluatePair_hard _ _ _ _ _ Hsoft).
  destruct (overlaps prev current); [discriminate|].
  destruct (gtb _ _); [destruct (restBelow _ _); [discriminate|]|]; congruence.
Qed.

Lemma evaluateAdjacentPairs_all sorted cfg resident advisories :
  evaluateAdjacentPairs sorted cfg resident None [] = Ok advisories
  <-> advisories = []
      /\ forall before prev current after,
           sorted = before ++ prev :: current :: after -> pairPasses cfg prev current.
Proof.
  assert (Hsoft : forall prev current, involvesSoft [] prev current = false).
  { intros prev current. unfold involvesSoft, includesType.
    rewrite !bool_decide_eq_false_2 by apply not_elem_of_nil. reflexivity. }
  revert advisories. induction sorted as [|prev rest IH]; intros advisories.
  - simpl. split.
    + intros Heq. inversion Heq. split; [reflexivity|].
      intros before prev current after Hx. destruct before; discriminate.
    + intros [-> _]. reflexivity.
  - destruct rest as [|current rest].
    + simpl. split.
      * intros Heq. inversion Heq. split; [reflexivity|].
        intros before p c after Hx. destruct before as [|x [|y before]]; discriminate.
      * intros [-> _]. reflexivity.
    + rewrite evaluateAdjacentPairs_step. simpl shouldEvaluatePair. simpl negb. cbv iota.
      destruct (evaluatePair prev current cfg resident []) as [found|e] eqn:Hpair;
        cbn [bindAttempt].
      * pose proof (evaluatePair_hard_advisories _ _ _ _ _ _ (Hsoft prev current) Hpair).
        subst found.
        pose proof (proj1 (evaluatePair_hard_ok prev current cfg resident []
                             (Hsoft prev current)) (ex_intro _ _ Hpair)) as Hpass.
        destruct (evaluateAdjacentPairs (current :: rest) cfg resident None [])
          as [more|e] eqn:Hrest; cbn [bindAttempt app].
        -- destruct (proj1 (IH more) eq_refl) as [-> Hall]. split.
           ++ intros Heq. inversion Heq. split; [reflexivity|].
              intros before p c after Hx. destruct before as [|x before].
              ** inversion Hx; subst. exact Hpass.
              ** inversion Hx; subst. eapply Hall. eassumption.
           ++ intros [-> _]. reflexivity.
        -- split; [discriminate|]. intros [_ Hall].
           assert (Hok : (Throw e : attempt (list SwapAdvisory.t)) = Ok []).
           { apply IH. split; [reflexivity|]. intros before p c after Hx.
             apply (Hall (prev :: before) p c after). rewrite Hx. reflexivity. }
           discriminate.
      * split; [discriminate|]. intros [_ Hall].
        assert (Hpass : pairPasses cfg prev current)
          by (apply (Hall [] prev current rest); reflexivity).
        apply (evaluatePair_hard_ok prev current cfg resident [] (Hsoft prev current))
          in Hpass. destruct Hpass as [found Hfound]. congruence.
Qed.

(** X8.  [validateResidentTimeline] without options (every shift in
    focus, no soft type) returns exactly when every shift of the timeline
    passes the whitelist and the person's eligibility and every two
    neighbours of the timeline sorted by start neither overlap nor, under
    a positive minimum, rest less than the minimum; it then returns no
    advisory.  Otherwise it throws. *)
Theorem timeline_validation_exact :
  forall (shifts : list Shift.t) (cfg : RuleConfig.t) (resident : Resident.t)
         (advisories : list SwapAdvisory.t),
    validateResidentTimeline shifts cfg resident None = Ok advisories
    <-> advisories = []
        /\ Forall (allowedShift cfg resident) shifts
        /\ forall before prev current after,
             byStart shifts = before ++ prev :: current :: after ->
             pairPasses cfg prev current.
Proof.
  intros shifts cfg resident advisories.
  unfold validateResidentTimeline, byStart. cbv zeta. simpl.
  set (sorted := stableSort _ shifts).
  assert (Hperm : Permutation sorted shifts) by apply stableSort_Permutation.
  destruct (assertShiftsAllowed sorted cfg resident None) as [[]|e] eqn:Hallowed; simpl.
  - apply assertShiftsAllowed_all in Hallowed. rewrite Hperm in Hallowed.
    rewrite evaluateAdjacentPairs_all. tauto.
  - split; [discriminate|]. intros (_ & Hall & _).
    rewrite <- Hperm in Hall. apply assertShiftsAllowed_all in Hall. congruence.
Qed.


(** What one advisory of a pair check says. *)
Definition advisoryOf (advisory : SwapAdvisory.t) (resident : Resident.t)
    (softTypes : list ShiftType) (prev current : Shift.t) : Prop :=
  SwapAdvisory.residentId advisory = Resident.id resident
  /\ exists backup other,
       ((backup = prev /\ other = current) \/ (backup = current /\ other = prev))
       /\ includesType softTypes (Shift.type backup) = true
       /\ SwapAdvisory.backupShiftId advisory = Shift.id backup
       /\ SwapAdvisory.otherShiftId advisory = Shift.id other.

Lemma selectBackupPair_soft first second softTypes :
  involvesSoft softTypes first second = true ->
  let '(backup, other) := selectBackupPair first second softTypes in
  ((backup = first /\ other = second) \/ (backup = second /\ other = first))
  /\ includesType softTypes (Shift.type backup) = true.
Proof.
  unfold involvesSoft, selectBackupPair. cbv zeta.
  destruct (includesType softTypes (Shift.type first)) eqn:H1;
    destruct (includesType softTypes (Shift.type second)) eqn:H2; simpl;
    intros Hsoft; try discriminate; auto.
Qed.

Lemma evaluatePair_advisory prev current cfg resident softTypes found advisory :
  evaluatePair prev current cfg resident softTypes = Ok found ->
  advisory ∈ found ->
  advisoryOf advisory resident softTypes prev current.
Proof.
  unfold evaluatePair. cbv zeta. fold (involvesSoft softTypes prev current).
  destruct (involvesSoft softTypes prev current) eqn:Hsoft.
  - pose proof (selectBackupPair_soft prev current softTypes Hsoft) as Hsel.
    assert (Hover : advisoryOf (buildOverlapAdvisory prev current resident softTypes)
                      resident softTypes prev current).
    { unfold buildOverlapAdvisory, advisoryOf.
      destruct (selectBackupPair prev current softTypes) as [backup other].
      simpl. destruct Hsel as [Hwho Htype]. split; [reflexivity|].
      exists backup, other. auto. }
    assert (Hrest : forall h m,
               advisoryOf (buildRestAdvisory prev current resident softTypes h m)
                 resident softTypes prev current).
    { intros h m. unfold buildRestAdvisory, advisoryOf.
      destruct (selectBackupPair prev current softTypes) as [backup other].
      simpl. destruct Hsel as [Hwho Htype]. split; [reflexivity|].
      exists backup, other. auto. }
    destruct (hasOverlap _ _ _ _); simpl;
      destruct (gtb _ _); try destruct (restBelow _ _) as [h|];
      intros Heq Hin; inversion Heq; subst; clear Heq;
      repeat (apply elem_of_cons in Hin; destruct Hin as [->|Hin]); auto;
      try (apply elem_of_nil in Hin; destruct Hin).
  - intros Hok Hin.
    assert (Hhard : involvesSoft softTypes prev current = false) by exact Hsoft.
    assert (found = []).
    { apply (evaluatePair_hard_advisories prev current cfg resident softTypes found Hhard).
      unfold evaluatePair. cbv zeta. fold (involvesSoft softTypes prev current).
      rewrite Hsoft. exact Hok. }
    subst found. apply elem_of_nil in Hin. destruct Hin.
Qed.

Lemma evaluateAdjacentPairs_advisory sorted cfg resident focus softTypes advisories advisory :
  evaluateAdjacentPairs sorted cfg resident focus softTypes = Ok advisories ->
  advisory ∈ advisories ->
  exists before prev current after,
    sorted = before ++ prev :: current :: after
    /\ shouldEvaluatePair prev current focus = true
    /\ advisoryOf advisory resident softTypes prev current.
Proof.
  revert advisories. induction sorted as [|prev rest IH]; intros advisories.
  - simpl. intros Heq Hin. inversion Heq; subst. apply elem_of_nil in Hin. destruct Hin.
  - destruct rest as [|current rest].
    + simpl. intros Heq Hin. inversion Heq; subst. apply elem_of_nil in Hin. destruct Hin.
    + rewrite evaluateAdjacentPairs_step.
      destruct (shouldEvaluatePair prev current focus) eqn:Hfocus; simpl negb; cbv iota.
      * destruct (evaluatePair prev current cfg resident softTypes) as [found|e] eqn:Hpair;
          cbn [bindAttempt]; [|discriminate].
        destruct (evaluateAdjacentPairs (current :: rest) cfg resident focus softTypes)
          as [more|e] eqn:Hrest; cbn [bindAttempt]; [|discriminate].
        intros Heq Hin. inversion Heq; subst. apply elem_of_app in Hin.
        destruct Hin as [Hin|Hin].
        -- exists [], prev, current, rest. split; [reflexivity|]. split; [exact Hfocus|].
           eapply evaluatePair_advisory; eauto.
        -- destruct (IH more eq_refl Hin) as (before & p & c & after & Hx & Hf & Hadv).
           exists (prev :: before), p, c, after. rewrite Hx. auto.
      * intros Hok Hin.
        destruct (IH advisories Hok Hin) as (before & p & c & after & Hx & Hf & Hadv).
        exists (prev :: before), p, c, after. rewrite Hx. auto.
Qed.

Lemma revalidate_advisory ctx resident given incoming found advisory :
  revalidate ctx resident given incoming = Ok found ->
  advisory ∈ found ->
  SwapAdvisory.residentId advisory = Resident.id resident
  /\ exists backup other,
       backup ∈ swappedTimeline ctx given incoming
       /\ other ∈ swappedTimeline ctx given incoming
       /\ Shift.type backup = BACKUP
       /\ SwapAdvisory.backupShiftId advisory = Shift.id backup
       /\ SwapAdvisory.otherShiftId advisory = Shift.id other
       /\ (Shift.id backup = Shift.id incoming \/ Shift.id other = Shift.id incoming).
Proof.
  unfold revalidate, validateResidentTimeline. cbv zeta. simpl.
  set (sorted := stableSort _ _).
  assert (Hperm : Permutation sorted (swappedTimeline ctx given incoming))
    by apply stableSort_Permutation.
  destruct (assertShiftsAllowed sorted _ resident _) as [[]|e]; simpl; [|discriminate].
  intros Hok Hin.
  destruct (evaluateAdjacentPairs_advisory _ _ _ _ _ _ _ Hok Hin)
    as (before & prev & current & after & Hsorted & Hfocus & Hres & Hadv).
  split; [exact Hres|].
  destruct Hadv as (backup & other & Hwho & Htype & Hb & Ho).
  assert (Hprev : prev ∈ swappedTimeline ctx given incoming).
  { rewrite <- Hperm, Hsorted. apply elem_of_app. right. apply elem_of_cons. auto. }
  assert (Hcur : current ∈ swappedTimeline ctx given incoming).
  { rewrite <- Hperm, Hsorted. apply elem_of_app. right.
    apply elem_of_cons. right. apply elem_of_cons. auto. }
  assert (Hids : Shift.id prev = Shift.id incoming \/ Shift.id current = Shift.id incoming).
  { unfold shouldEvaluatePair in Hfocus. apply orb_true_iff in Hfocus.
    destruct Hfocus as [Hf|Hf]; apply bool_decide_eq_true_1, elem_of_singleton in Hf; auto. }
  assert (Hbackup : Shift.type backup = BACKUP).
  { unfold includesType, BACKUP_SOFT_TYPES in Htype. apply bool_decide_eq_true_1 in Htype.
    apply elem_of_cons in Htype. destruct Htype as [Hx|Hx]; [exact Hx|].
    apply elem_of_nil in Hx. destruct Hx. }
  exists backup, other.
  destruct Hwho as [[-> ->]|[-> ->]]; repeat split; auto; tauto.
Qed.

(** X9.  Advisories are only about backup shifts.  Every advisory that
    [evaluate] attaches to its answer (to an acceptance or to a
    rejection) names the person whose timeline was re-validated, a shift
    of type BACKUP of that timeline as the backup shift and another
    shift of it as the other one; and one of the two is the incoming
    assignment. *)
Theorem advisories_concern_backups :
  forall (a b : Shift.t) (ctx : Context.t) (result : SwapEvaluation)
         (advisory : SwapAdvisory.t),
    evaluateSwap (Some a) (Some b) (Some ctx) = Returns result ->
    advisory ∈ advisoriesOf result ->
    exists resident given incoming backup other,
      ((Context.residentsById ctx !! Shift.residentId a = Some resident
        /\ given = a /\ incoming = Shift.withResidentId b (Resident.id resident))
       \/ (Context.residentsById ctx !! Shift.residentId b = Some resident
           /\ given = b /\ incoming = Shift.withResidentId a (Resident.id resident)))
      /\ SwapAdvisory.residentId advisory = Resident.id resident
      /\ backup ∈ swappedTimeline ctx given incoming
      /\ other ∈ swappedTimeline ctx given incoming
      /\ Shift.type backup = BACKUP
      /\ SwapAdvisory.backupShiftId advisory = Shift.id backup
      /\ SwapAdvisory.otherShiftId advisory = Shift.id other
      /\ (Shift.id backup = Shift.id incoming \/ Shift.id other = Shift.id incoming).
Proof.
  intros a b ctx result advisory. rewrite evaluateSwap_phases.
  pose proof (prepareSwap_gates a b ctx) as Hg.
  destruct (prepareSwap (Some a) (Some b) (Some ctx)) as [failure|prep].
  { intros Heq Hin. inversion Heq; subst. apply elem_of_nil in Hin. destruct Hin. }
  destruct Hg as (_ & _ & HrA & HrB & _ & _ & _ & _ & _ & _ & ->). simpl.
  set (rA := PreparedSwap.residentA prep) in *.
  set (rB := PreparedSwap.residentB prep) in *.
  unfold afterPrepare. cbv zeta.
  destruct (resolveShabbosRestrictionForSwap _ _).
  { intros Heq Hin. inversion Heq; subst. apply elem_of_nil in Hin. destruct Hin. }
  destruct (calendarCheck _ rA) as [[reason|]|]; simpl; try discriminate.
  { intros Heq Hin. inversion Heq; subst. apply elem_of_nil in Hin. destruct Hin. }
  destruct (calendarCheck _ rB) as [[reason|]|]; simpl; try discriminate.
  { intros Heq Hin. inversion Heq; subst. apply elem_of_nil in Hin. destruct Hin. }
  unfold timelinePhase. cbv zeta.
  assert (HA : forall found, revalidate ctx rA a (Shift.withResidentId b (Resident.id rA))
                             = Ok found -> advisory ∈ found ->
               exists resident given incoming backup other,
                 ((Context.residentsById ctx !! Shift.residentId a = Some resident
                   /\ given = a /\ incoming = Shift.withResidentId b (Resident.id resident))
                  \/ (Context.residentsById ctx !! Shift.residentId b = Some resident
                      /\ given = b
                      /\ incoming = Shift.withResidentId a (Resident.id resident)))
                 /\ SwapAdvisory.residentId advisory = Resident.id resident
                 /\ backup ∈ swappedTimeline ctx given incoming
                 /\ other ∈ swappedTimeline ctx given incoming
                 /\ Shift.type backup = BACKUP
                 /\ SwapAdvisory.backupShiftId advisory = Shift.id backup
                 /\ SwapAdvisory.otherShiftId advisory = Shift.id other
                 /\ (Shift.id backup = Shift.id incoming
                     \/ Shift.id other = Shift.id incoming)).
  { intros found Hok Hin.
    destruct (revalidate_advisory _ _ _ _ _ _ Hok Hin) as (Hres & backup & other & Hrest).
    exists rA, a, (Shift.withResidentId b (Resident.id rA)), backup, other.
    split; [left; auto|]. split; [exact Hres | exact Hrest]. }
  assert (HB : forall found, revalidate ctx rB b (Shift.withResidentId a (Resident.id rB))
                             = Ok found -> advisory ∈ found ->
               exists resident given incoming backup other,
                 ((Context.residentsById ctx !! Shift.residentId a = Some resident
                   /\ given = a /\ incoming = Shift.withResidentId b (Resident.id resident))
                  \/ (Context.residentsById ctx !! Shift.residentId b = Some resident
                      /\ given = b
                      /\ incoming = Shift.withResidentId a (Resident.id resident)))
                 /\ SwapAdvisory.residentId advisory = Resident.id resident
                 /\ backup ∈ swappedTimeline ctx given incoming
                 /\ other ∈ swappedTimeline ctx given incoming
                 /\ Shift.type backup = BACKUP
                 /\ SwapAdvisory.backupShiftId advisory = Shift.id backup
                 /\ SwapAdvisory.otherShiftId advisory = Shift.id other
                 /\ (Shift.id backup = Shift.id incoming
                     \/ Shift.id other = Shift.id incoming)).
  { intros found Hok Hin.
    destruct (revalidate_advisory _ _ _ _ _ _ Hok Hin) as (Hres & backup & other & Hrest).
    exists rB, b, (Shift.withResidentId a (Resident.id rB)), backup, other.
    split; [right; auto|]. split; [exact Hres | exact Hrest]. }
  destruct (revalidate ctx rA a _) as [foundA|eA] eqn:HvA.
  - destruct (revalidate ctx rB b _) as [foundB|eB] eqn:HvB.
    + intros Heq Hin. inversion Heq; subst; clear Heq.
      assert (Hin' : advisory ∈ foundA ++ foundB).
      { destruct (foundA ++ foundB); [apply elem_of_nil in Hin; destruct Hin | exact Hin]. }
      apply elem_of_app in Hin'. destruct Hin' as [Hx|Hx]; eauto.
    + intros Heq Hin. inversion Heq; subst; clear Heq.
      assert (Hin' : advisory ∈ foundA).
      { destruct eB; simpl in Hin; rewrite nonEmpty_default in Hin; exact Hin. }
      eauto.
  - intros Heq Hin. inversion Heq; subst; clear Heq.
    destruct eA; simpl in Hin; apply elem_of_nil in Hin; destruct Hin.
Qed.


Lemma revalidate_neighbours ctx resident given incoming found before prev current after :
  revalidate ctx resident given incoming = Ok found ->
  byStart (swappedTimeline ctx given incoming) = before ++ prev :: current :: after ->
  Shift.id prev = Shift.id incoming \/ Shift.id current = Shift.id incoming ->
  Shift.type prev <> BACKUP -> Shift.type current <> BACKUP ->
  pairPasses (Context.ruleConfig ctx) prev current.
Proof.
  unfold revalidate, validateResidentTimeline, byStart. cbv zeta. simpl.
  intros Hok Hsorted Hids Hp Hc. rewrite Hsorted in Hok.
  destruct (assertShiftsAllowed _ _ resident _) as [[]|e]; simpl in Hok; [|discriminate].
  assert (Hsoft : involvesSoft BACKUP_SOFT_TYPES prev current = false).
  { unfold involvesSoft, includesType, BACKUP_SOFT_TYPES.
    rewrite !bool_decide_eq_false_2; [reflexivity| |];
      intros Hin; apply elem_of_cons in Hin; destruct Hin as [Hx|Hx];
      try contradiction; apply elem_of_nil in Hx; destruct Hx. }
  apply (evaluatePair_hard_ok prev current (Context.ruleConfig ctx) resident
           BACKUP_SOFT_TYPES Hsoft).
  eapply evaluateAdjacentPairs_examined; [exact Hok|].
  unfold shouldEvaluatePair. apply orb_true_iff.
  destruct Hids as [Hx|Hx]; [left | right]; apply bool_decide_eq_true_2;
    apply elem_of_singleton; exact Hx.
Qed.

(** X10.  What an accepted swap guarantees about each person's new
    timeline.  After the swap, in the timeline sorted by start, the
    incoming assignment and each of its two neighbours, when neither is a
    BACKUP shift, do not overlap and, under a positive minimum, are at
    least the minimum rest apart. *)
Theorem accepted_swap_neighbours :
  forall (a b : Shift.t) (ctx : Context.t) (advisories : option (list SwapAdvisory.t))
         (resident : Resident.t) (given incoming : Shift.t),
    evaluateSwap (Some a) (Some b) (Some ctx) = Returns (Feasible advisories) ->
    (Context.residentsById ctx !! Shift.residentId a = Some resident
     /\ given = a /\ incoming = Shift.withResidentId b (Resident.id resident))
    \/ (Context.residentsById ctx !! Shift.residentId b = Some resident
        /\ given = b /\ incoming = Shift.withResidentId a (Resident.id resident)) ->
    forall before prev current after,
      byStart (swappedTimeline ctx given incoming) = before ++ prev :: current :: after ->
      Shift.id prev = Shift.id incoming \/ Shift.id current = Shift.id incoming ->
      Shift.type prev <> BACKUP -> Shift.type current <> BACKUP ->
      overlaps prev current = false
      /\ (gtb (RuleConfig.restHoursMin (Context.ruleConfig ctx)) (ofZ 0) = true ->
          forall restHours,
            restHoursBetween prev current = Some restHours ->
            ltb restHours (RuleConfig.restHoursMin (Context.ruleConfig ctx)) = false).
Proof.
  intros a b ctx advisories resident given incoming Heval Hwho
         before prev current after Hsorted Hids Hp Hc.
  assert (Hpass : pairPasses (Context.ruleConfig ctx) prev current).
  { rewrite evaluateSwap_phases in Heval.
    pose proof (prepareSwap_gates a b ctx) as Hg.
    destruct (prepareSwap (Some a) (Some b) (Some ctx)) as [failure|prep]; [discriminate|].
    destruct Hg as (_ & _ & HrA & HrB & _ & _ & _ & _ & _ & _ & Hprep).
    rewrite Hprep in Heval. simpl in Heval.
    set (rA := PreparedSwap.residentA prep) in *.
    set (rB := PreparedSwap.residentB prep) in *.
    assert (Hacc : accepted (afterPrepare ctx rA rB a b) = true)
      by (rewrite Heval; reflexivity).
    rewrite afterPrepare_accepted in Hacc. cbv zeta in Hacc.
    repeat match type of Hacc with _ && _ = true =>
             apply andb_true_iff in Hacc; destruct Hacc as [Hacc ?] end.
    destruct Hwho as [(Hres & -> & ->)|(Hres & -> & ->)].
    - assert (resident = rA) by congruence. subst resident.
      destruct (revalidate ctx rA a _) as [found|e] eqn:Hv; [|discriminate].
      eapply revalidate_neighbours; eauto.
    - assert (resident = rB) by congruence. subst resident.
      destruct (revalidate ctx rB b _) as [found|e] eqn:Hv; [|discriminate].
      eapply revalidate_neighbours; eauto. }
  destruct Hpass as [Hover Hrest]. split; [exact Hover|].
  intros Hmin restHours Hh. specialize (Hrest Hmin). rewrite Hh in Hrest.
  unfold restBelow in Hrest.
  destruct (ltb restHours _); [discriminate | reflexivity].
Qed.

End TimelineProperties.


(** ** Further properties of the pressure score *)

Section PressureSymmetry.
Context {H : Host}.

Local Existing Instance Exact.number.
Local Open Scope Qc_scope.

Local Ltac exact_arith :=
  cbn [add sub mul div opp ofZ num Exact.number] in *;
  change (Exact.of_int 0) with 0%Qc in *;
  change (Exact.of_int 1) with 1%Qc in *.

Local Ltac as_rationals :=
  exact_arith;
  repeat match goal with
         | |- context [?f ?x] =>
             match type of (f x) with
             | @num _ => let q := fresh "q" in generalize (f x : Qc); intro q
             end
         end.

Local Ltac exact_ring := as_rationals; ring.

(** The breakdown with its two sections exchanged. *)
Definition mirror (breakdown : SwapPressureBreakdown.t) : SwapPressureBreakdown.t :=
  SwapPressureBreakdown.mk
    (SwapPressureBreakdown.score breakdown)
    (SwapPressureBreakdown.baselineScore breakdown)
    (SwapPressureBreakdown.swappedScore breakdown)
    (SwapPressureBreakdown.counterpart breakdown)
    (SwapPressureBreakdown.original breakdown).

Definition otherKey (key : SectionKey) : SectionKey :=
  match key with original => counterpart | counterpart => original end.

Lemma scaleBreakdown_mirror breakdown factor :
  scaleBreakdown (mirror breakdown) factor = mirror (scaleBreakdown breakdown factor).
Proof. unfold scaleBreakdown. destruct (_ || _); reflexivity. Qed.

Lemma applyIpConsultPenalty_mirror breakdown penalty a b :
  applyIpConsultPenalty (mirror breakdown) penalty b a
  = mirror (applyIpConsultPenalty breakdown penalty a b).
Proof. unfold applyIpConsultPenalty. destruct (_ || _); reflexivity. Qed.

Lemma appendRotationPressureCall_mirror breakdown key shift resident mode bonus :
  appendRotationPressureCall (mirror breakdown) (otherKey key) shift resident mode bonus
  = mirror (appendRotationPressureCall breakdown key shift resident mode bonus).
Proof. destruct key; reflexivity. Qed.

Lemma appendRotationPressureCall_commute breakdown s1 r1 m1 b1 s2 r2 m2 b2 :
  appendRotationPressureCall
    (appendRotationPressureCall breakdown counterpart s2 r2 m2 b2) original s1 r1 m1 b1
  = appendRotationPressureCall
      (appendRotationPressureCall breakdown original s1 r1 m1 b1) counterpart s2 r2 m2 b2.
Proof.
  unfold appendRotationPressureCall. cbv zeta. cbn.
  f_equal; destruct m1, m2; exact_ring.
Qed.

Lemma applyRotationPressure_mirror breakdown a b residentA residentB :
  applyRotationPressure (mirror breakdown) b a residentB residentA
  = mirror (applyRotationPressure breakdown a b residentA residentB).
Proof.
  pose proof (fun x => appendRotationPressureCall_mirror x original) as Hc.
  pose proof (fun x => appendRotationPressureCall_mirror x counterpart) as Ho.
  simpl otherKey in Hc, Ho.
  unfold applyRotationPressure. cbv zeta.
  destruct (gtb (RotationPressureBonus.value (resolveRotationPressureBonus residentA a)) _);
    destruct (gtb (RotationPressureBonus.value (resolveRotationPressureBonus residentA b)) _);
    destruct (gtb (RotationPressureBonus.value (resolveRotationPressureBonus residentB b)) _);
    destruct (gtb (RotationPressureBonus.value (resolveRotationPressureBonus residentB a)) _);
    repeat (rewrite Hc || rewrite Ho);
    rewrite ?appendRotationPressureCall_commute; reflexivity.
Qed.


Lemma resolveIpConsultPenalty_symmetric a b ctx :
  resolveIpConsultPenalty b a ctx = resolveIpConsultPenalty a b ctx.
Proof.
  unfold resolveIpConsultPenalty. cbv zeta.
  destruct (isMosesSenior a), (isMosesSenior b); simpl; try reflexivity.
  destruct (hasAssociatedIpConsult a ctx), (hasAssociatedIpConsult b ctx); reflexivity.
Qed.

Lemma scaledSwapPressure_mirror a b ctx :
  scaledSwapPressure b a ctx
  = option_map (fun '(scaled, residentA, residentB) => (mirror scaled, residentB, residentA))
      (scaledSwapPressure a b ctx).
Proof.
  unfold scaledSwapPressure.
  rewrite (String.eqb_sym (Shift.id b)), (String.eqb_sym (Shift.residentId b)).
  destruct (_ || _); [reflexivity|].
  destruct (Context.residentsById ctx !! Shift.residentId a) as [residentA|];
    destruct (Context.residentsById ctx !! Shift.residentId b) as [residentB|];
    try reflexivity.
  destruct (includesType (Resident.eligibleShiftTypes residentA) (Shift.type b));
    destruct (includesType (Resident.eligibleShiftTypes residentB) (Shift.type a));
    simpl; try reflexivity.
  f_equal. f_equal. f_equal.
  rewrite <- scaleBreakdown_mirror. unfold mirror. simpl.
  f_equal; [f_equal|]; exact_ring.
Qed.

(** X11.  The pressure of a swap does not depend on which of the two
    shifts is named first, in exact arithmetic: [calculateSwapPressure(b,
    a)] is [calculateSwapPressure(a, b)] with the sections [original] and
    [counterpart] exchanged, and the score is the same. *)
Theorem pressure_mirror_exact :
  forall (a b : Shift.t) (ctx : Context.t),
    calculateSwapPressure b a ctx = mirror (calculateSwapPressure a b ctx)
    /\ proximityPressure b a ctx = proximityPressure a b ctx.
Proof.
  intros a b ctx.
  assert (Hmirror : calculateSwapPressure b a ctx = mirror (calculateSwapPressure a b ctx)).
  { unfold calculateSwapPressure. cbv zeta. rewrite scaledSwapPressure_mirror.
    destruct (scaledSwapPressure a b ctx) as [[[scaled residentA] residentB]|]; simpl.
    - rewrite resolveIpConsultPenalty_symmetric, applyIpConsultPenalty_mirror.
      apply applyRotationPressure_mirror.
    - reflexivity. }
  split; [exact Hmirror|]. unfold proximityPressure. rewrite Hmirror. reflexivity.
Qed.

End PressureSymmetry.


(** ** Bounds of the score, in exact arithmetic *)

Section PressureBounds.
Context {H : Host}.

Local Existing Instance Exact.number.
Local Open Scope Qc_scope.

Lemma Qc_eq_Qeq (x y : Qc) : x = y -> (this x == this y)%Q.
Proof. intros ->. reflexivity. Qed.

(** Statements about exact numbers are read over [Q]. *)
Local Ltac over_Q :=
  cbn [add sub mul div opp ofZ num Exact.number] in *;
  unfold Exact.of_int in *;
  unfold Qcle, Qclt, Qcminus, Qcdiv in *;
  repeat match goal with
         | |- @eq Qc _ _ => apply Qc_is_canon
         | Hx : @eq Qc ?x ?y |- _ => apply Qc_eq_Qeq in Hx
         end;
  cbn [this Qcplus Qcmult Qcopp Qcinv Q2Qc] in *;
  rewrite ?Qred_correct in *;
  repeat match goal with x : Qc |- _ => destruct x as [x ?] end;
  cbn [this] in *;
  repeat match goal with
         | |- context [inject_Z ?z] =>
             let q := eval cbv in (inject_Z z) in change (inject_Z z) with q
         | Hx : context [inject_Z ?z] |- _ =>
             let q := eval cbv in (inject_Z z) in change (inject_Z z) with q in Hx
         end.

Lemma lt_spec (a b : Qc) : Exact.lt a b = true <-> a < b.
Proof.
  unfold Exact.lt. destruct (Qccompare a b) eqn:Hc.
  - apply Qceq_alt in Hc. subst. split; [discriminate|]. intros Hx.
    apply Qclt_not_eq in Hx. congruence.
  - apply Qclt_alt in Hc. tauto.
  - apply Qcgt_alt in Hc. split; [discriminate|]. intros Hx.
    exfalso. apply (Qclt_not_le _ _ Hc). apply Qclt_le_weak. exact Hx.
Qed.

Lemma le_spec (a b : Qc) : Exact.le a b = true <-> a <= b.
Proof.
  unfold Exact.le. destruct (Qccompare a b) eqn:Hc.
  - apply Qceq_alt in Hc. subst. split; [intros _; apply Qcle_refl | reflexivity].
  - apply Qclt_alt in Hc. split; [intros _; apply Qclt_le_weak; exact Hc | reflexivity].
  - apply Qcgt_alt in Hc. split; [discriminate|]. intros Hx.
    exfalso. apply (Qclt_not_le _ _ Hc). exact Hx.
Qed.

Lemma lt_false (a b : Qc) : Exact.lt a b = false <-> b <= a.
Proof.
  split.
  - intros Hx. apply Qcnot_lt_le. intros Hlt. apply lt_spec in Hlt. congruence.
  - intros Hle. destruct (Exact.lt a b) eqn:Hx; [|reflexivity].
    apply lt_spec in Hx. exfalso. apply (Qclt_not_le _ _ Hx). exact Hle.
Qed.

Lemma le_false (a b : Qc) : Exact.le a b = false <-> b < a.
Proof.
  split.
  - intros Hx. apply Qcnot_le_lt. intros Hle. apply le_spec in Hle. congruence.
  - intros Hlt. destruct (Exact.le a b) eqn:Hx; [|reflexivity].
    apply le_spec in Hx. exfalso. apply (Qclt_not_le _ _ Hlt). exact Hx.
Qed.

(** A value between 0 and 1, and a penalty between -1 and 0. *)
Definition inUnit (x : Qc) : Prop := 0 <= x /\ x <= 1.
Definition isPenalty (p : Qc) : Prop := ofZ (-1) <= p /\ p <= 0.

Lemma normaliseGap_inUnit (value restMin comfortable : Qc) :
  inUnit (normaliseGap value restMin comfortable).
Proof.
  unfold normaliseGap, inUnit, geb.
  cbn [isFinite leb ofZ Exact.number negb].
  destruct (Exact.le value restMin) eqn:H1.
  - split; over_Q; lra.
  - destruct (Exact.le comfortable value) eqn:H2.
    + split; over_Q; lra.
    + apply le_false in H1, H2. over_Q.
      assert (Hd : (0 < comfortable - restMin)%Q) by lra.
      split.
      * apply Qle_shift_div_l; [exact Hd | lra].
      * apply Qle_shift_div_r; [exact Hd | lra].
Qed.


Lemma mapSet_Forall {V : Type} (P : V -> Prop) (k : string) (v : V) (m : list (string * V)) :
  Forall (fun e => P (snd e)) m -> P v -> Forall (fun e => P (snd e)) (mapSet k v m).
Proof.
  intros Hall Hv. induction m as [|[k' v'] m IH]; simpl.
  - constructor; [exact Hv | constructor].
  - inversion Hall as [|x l Hx Hl]; subst.
    destruct (String.eqb k' k); constructor; auto.
Qed.

Lemma mapGet_Forall {V : Type} (P : V -> Prop) (k : string) (v : V) (m : list (string * V)) :
  Forall (fun e => P (snd e)) m -> mapGet k m = Some v -> P v.
Proof.
  intros Hall. unfold mapGet.
  destruct (find (fun e => String.eqb (fst e) k) m) as [[k' v']|] eqn:Hfind; [|discriminate].
  intros Heq. inversion Heq; subst.
  apply find_some in Hfind. destruct Hfind as [Hin _].
  rewrite Forall_forall in Hall. apply (Hall (k', v)). apply list_elem_of_In. exact Hin.
Qed.

(** A contribution of a scenario: a positive closeness and a penalty
    between -1 and 0. *)
Definition contributionOk (c : ScenarioContribution.t) : Prop :=
  0 < ScenarioContribution.closeness c /\ isPenalty (ScenarioContribution.penalty c).

Lemma collectScenario_ok focusShift otherShifts restMin :
  Forall (fun e => contributionOk (snd e))
    (ScenarioSummary.contributions (collectScenario focusShift otherShifts restMin)).
Proof.
  unfold collectScenario. cbv zeta.
  set (step := fun (summary : ScenarioSummary.t) (other : Shift.t) => _).
  assert (Hgen : forall summary,
             Forall (fun e => contributionOk (snd e)) (ScenarioSummary.contributions summary) ->
             Forall (fun e => contributionOk (snd e))
               (ScenarioSummary.contributions (fold_left step otherShifts summary))).
  { induction otherShifts as [|other rest IH]; intros summary Hsum; simpl; [exact Hsum|].
    apply IH. unfold step at 1.
    destruct (bool_decide (Shift.type other = BACKUP)); [exact Hsum|].
    destruct (match option_map abs (diffHours _ _) with
              | Some d => gtb d CALL_WINDOW_HOURS | None => false end); [exact Hsum|].
    cbn [ScenarioSummary.contributions].
    apply mapSet_Forall; [exact Hsum|].
    split; cbn [ScenarioContribution.closeness ScenarioContribution.penalty].
    - destruct (option_map abs (diffHours _ _)) as [d|].
      + unfold gtb. cbn [ltb Exact.number].
        destruct (Exact.lt _ _) eqn:Hpos.
        * apply lt_spec in Hpos. exact Hpos.
        * unfold MIN_CLOSENESS. over_Q. reflexivity.
      + unfold MIN_CLOSENESS. over_Q. reflexivity.
    - pose proof (normaliseGap_inUnit
                    (computeGapHours (dayjs (Shift.startISO focusShift))
                       (dayjs (Shift.endISO focusShift)) (dayjs (Shift.startISO other))
                       (dayjs (Shift.endISO other)))
                    restMin
                    (max (restMin + COMFORTABLE_REST_BUFFER_HOURS)%num CALL_WINDOW_HOURS))
        as [Hlo Hhi].
      unfold isPenalty.
      set (v := normaliseGap _ _ _) in *. clearbody v. clear -Hlo Hhi.
      split; over_Q; lra. }
  apply Hgen. constructor.
Qed.


(** The arithmetic of one step of the weighted sum. *)
Lemma weighted_step (P w W total p : Qc) :
  0 < W -> 0 < w -> isPenalty p ->
  - (P / W) <= total -> total <= 0 ->
  - ((P + w) / W) <= total + p * (w / W) /\ total + p * (w / W) <= 0.
Proof.
  unfold isPenalty. intros HW Hw [Hlo Hhi] Ht1 Ht2. over_Q.
  assert (HiW : (0 < / W)%Q) by (apply Qinv_lt_0_compat; exact HW).
  set (iW := (/ W)%Q) in *. clearbody iW.
  assert (Hnw : (0 <= w * iW)%Q) by (apply Qmult_le_0_compat; lra).
  assert (H1 : (0 <= (p + 1) * (w * iW))%Q) by (apply Qmult_le_0_compat; lra).
  assert (H2 : (0 <= (- p) * (w * iW))%Q) by (apply Qmult_le_0_compat; lra).
  split; lra.
Qed.

Lemma weighted_skip (P w W total : Qc) :
  0 < W -> 0 < w ->
  - (P / W) <= total -> total <= 0 ->
  - ((P + w) / W) <= total + 0 /\ total + 0 <= 0.
Proof.
  intros HW Hw Ht1 Ht2. over_Q.
  assert (HiW : (0 < / W)%Q) by (apply Qinv_lt_0_compat; exact HW).
  set (iW := (/ W)%Q) in *. clearbody iW.
  assert (Hnw : (0 <= w * iW)%Q) by (apply Qmult_le_0_compat; lra).
  split; lra.
Qed.

Lemma weighted_end (W total : Qc) :
  0 < W -> - ((0 + W) / W) <= total -> ofZ (-1) <= total.
Proof.
  intros HW Ht. over_Q.
  assert (Hone : (W * / W == 1)%Q) by (apply Qmult_inv_r; lra).
  set (iW := (/ W)%Q) in *. clearbody iW. lra.
Qed.


Definition entryOk (entry : Entry.t) : Prop :=
  0 < Entry.weight entry
  /\ (forall c, Entry.before entry = Some c -> contributionOk c)
  /\ (forall c, Entry.after entry = Some c -> contributionOk c).

Definition sumWeights (entries : list Entry.t) : Qc :=
  fold_left (fun sum entry => (sum + Entry.weight entry)%num) entries (ofZ 0).

Lemma sumWeights_acc (entries : list Entry.t) (acc : Qc) :
  fold_left (fun sum entry => (sum + Entry.weight entry)%num) entries acc
  = acc + sumWeights entries.
Proof.
  unfold sumWeights. revert acc.
  induction entries as [|e entries IH]; intros acc; cbn [fold_left].
  - over_Q. lra.
  - rewrite IH, (IH (ofZ 0 + Entry.weight e)%num).
    generalize (fold_left (fun sum entry => (sum + Entry.weight entry)%num) entries (ofZ 0)).
    generalize (Entry.weight e). intros w r. over_Q. lra.
Qed.

Lemma sumWeights_pos (entries : list Entry.t) :
  Forall entryOk entries -> entries <> [] -> 0 < sumWeights entries.
Proof.
  intros Hall. induction Hall as [|e entries [Hw _] Hrest IH]; [congruence|]. intros _.
  unfold sumWeights. cbn [fold_left]. rewrite sumWeights_acc.
  destruct entries as [|e' entries'].
  - unfold sumWeights. cbn [fold_left]. generalize dependent (Entry.weight e). intros w Hw. over_Q. lra.
  - assert (Hpos : 0 < sumWeights (e' :: entries')) by (apply IH; discriminate).
    generalize dependent (sumWeights (e' :: entries')).
    generalize dependent (Entry.weight e). intros w Hw s Hs. over_Q. lra.
Qed.

(** The totals of a section before scaling: both between -1 and 0. *)
Definition sectionBounded (section : SwapPressureSection.t) : Prop :=
  isPenalty (SwapPressureSection.baselineTotal section)
  /\ isPenalty (SwapPressureSection.swappedTotal section)
  /\ SwapPressureSection.deltaTotal section
     = SwapPressureSection.swappedTotal section - SwapPressureSection.baselineTotal section.

Lemma buildSection_bounded baselineShift swappedShift otherShifts restMin :
  sectionBounded (buildSection baselineShift swappedShift otherShifts restMin).
Proof.
  unfold buildSection. cbv zeta.
  pose proof (collectScenario_ok baselineShift otherShifts restMin) as Hb.
  pose proof (collectScenario_ok swappedShift otherShifts restMin) as Hs.
  set (bc := ScenarioSummary.contributions (collectScenario baselineShift otherShifts restMin))
    in *.
  set (sc := ScenarioSummary.contributions (collectScenario swappedShift otherShifts restMin))
    in *.
  match goal with
  | |- context [fold_left ?stepE ?ids (@nil Entry.t)] => set (g := stepE); set (ids0 := ids)
  end.
  assert (Hentries : Forall entryOk (fold_left g ids0 [])).
  { assert (Hgen : forall ids acc, Forall entryOk acc -> Forall entryOk (fold_left g ids acc)).
    { induction ids as [|shiftId ids IH]; intros acc Hacc; simpl; [exact Hacc|].
      apply IH. unfold g at 1.
      destruct (mapGet shiftId bc) as [cb|] eqn:Hgb;
        destruct (mapGet shiftId sc) as [cs|] eqn:Hgs; simpl; try exact Hacc.
      all: match goal with
           | |- context [if ?c then _ else _] => destruct c eqn:Hw
           end; [exact Hacc|].
      all: apply Forall_app; split; [exact Hacc|]; constructor; [|constructor].
      all: split; [apply le_false in Hw; exact Hw|]; cbn [Entry.before Entry.after].
      all: split; intros c Hc; inversion Hc; subst;
        first [ exact (mapGet_Forall _ _ _ _ Hb Hgb) | exact (mapGet_Forall _ _ _ _ Hs Hgs) ]. }
    apply Hgen. constructor. }
  destruct (fold_left g ids0 []) as [|entry entries] eqn:Hes.
  { unfold sectionBounded, isPenalty. cbn.
    repeat split; try (over_Q; lra). }
  set (es := entry :: entries) in *.
  assert (HW : 0 < sumWeights es) by (apply sumWeights_pos; [exact Hentries | discriminate]).
  fold (sumWeights es).
  set (W := sumWeights es) in *.
  assert (Hgt : gtb W (ofZ 0) = true) by (apply lt_spec; exact HW).
  match goal with
  | |- context [fold_left ?step es ([], ofZ 0, ofZ 0)] => set (f := step)
  end.
  assert (Hinv : forall es' acc P,
             Forall entryOk es' ->
             (- (P / W) <= acc.1.2 /\ acc.1.2 <= 0) ->
             (- (P / W) <= acc.2 /\ acc.2 <= 0) ->
             (- ((P + sumWeights es') / W) <= (fold_left f es' acc).1.2
              /\ (fold_left f es' acc).1.2 <= 0)
             /\ (- ((P + sumWeights es') / W) <= (fold_left f es' acc).2
                 /\ (fold_left f es' acc).2 <= 0)).
  { intros es'. induction es' as [|e es' IH]; intros [[calls bT] sT] P Hall HbT HsT.
    - cbn [fold_left]. assert (HP : P + sumWeights [] = P)
        by (unfold sumWeights; cbn [fold_left]; over_Q; lra).
      rewrite HP. auto.
    - inversion Hall as [|x l [Hw [Hbefore Hafter]] Hl]; subst.
      cbn [fold_left].
      assert (Hsum : P + sumWeights (e :: es') = (P + Entry.weight e) + sumWeights es').
      { unfold sumWeights at 1. cbn [fold_left]. rewrite sumWeights_acc.
        generalize (sumWeights es'), (Entry.weight e). intros s w. over_Q. lra. }
      rewrite Hsum. apply IH; [exact Hl| |].
      + unfold f. cbn [fst snd]. rewrite Hgt.
        destruct (Entry.before e) as [c|].
        * apply weighted_step; try tauto. apply (Hbefore c eq_refl).
        * apply weighted_skip; tauto.
      + unfold f. cbn [fst snd]. rewrite Hgt.
        destruct (Entry.after e) as [c|].
        * apply weighted_step; try tauto. apply (Hafter c eq_refl).
        * apply weighted_skip; tauto. }
  assert (Hzero : - (0 / W) <= 0 /\ (0 : Qc) <= 0).
  { clear -HW. generalize dependent W. intros W HW. split; over_Q; lra. }
  match goal with
  | |- context [fold_left f es ?acc0] =>
      destruct (Hinv es acc0 0 Hentries Hzero Hzero) as [[Hb1 Hb2] [Hs1 Hs2]];
      destruct (fold_left f es acc0) as [[calls bT] sT]
  end.
  cbn [fst snd] in *. unfold sectionBounded, isPenalty.
  cbn [SwapPressureSection.baselineTotal SwapPressureSection.swappedTotal
       SwapPressureSection.deltaTotal].
  split; [split; [apply (weighted_end W); assumption | exact Hb2]|].
  split; [split; [apply (weighted_end W); assumption | exact Hs2]|].
  reflexivity.
Qed.


Lemma resolveShiftMultiplier_values (shift : Shift.t) :
  resolveShiftMultiplier shift = ofZ 1 \/ resolveShiftMultiplier shift = ofZ 2
  \/ resolveShiftMultiplier shift = ofZ 4.
Proof.
  unfold resolveShiftMultiplier. cbv zeta.
  destruct (bool_decide _); [auto|].
  destruct (isWeekendOrHoliday shift), (bool_decide (Shift.type shift = NIGHT_FLOAT));
    simpl; auto.
Qed.

Lemma multiplier_range (a b : Shift.t) :
  let multiplier := (SCORE_SCALE * resolveShiftMultiplier a * resolveShiftMultiplier b)%num in
  ofZ 100 <= multiplier /\ multiplier <= ofZ 1600.
Proof.
  cbv zeta. unfold SCORE_SCALE.
  destruct (resolveShiftMultiplier_values a) as [Ha | [Ha | Ha]];
    destruct (resolveShiftMultiplier_values b) as [Hb | [Hb | Hb]];
    rewrite Ha, Hb; split; vm_compute; discriminate.
Qed.

Lemma scaled_range (x factor : Qc) (bound : Z) :
  - ofZ bound <= x -> x <= ofZ bound -> (0 <= bound)%Z ->
  ofZ 100 <= factor -> factor <= ofZ 1600 ->
  ofZ (- (bound * 1600)) <= x * factor /\ x * factor <= ofZ (bound * 1600).
Proof.
  intros Hlo Hhi Hb Hf1 Hf2.
  assert (Hinj : (inject_Z (- (bound * 1600))%Z == - (inject_Z bound * 1600)
                  /\ inject_Z (bound * 1600)%Z == inject_Z bound * 1600)%Q).
  { rewrite inject_Z_opp, inject_Z_mult. split; reflexivity. }
  assert (HB : (0 <= inject_Z bound)%Q) by (rewrite Zle_Qle in Hb; exact Hb).
  destruct Hinj as [Hn Hp].
  cbn [ofZ Exact.number] in *. unfold Exact.of_int in *.
  unfold Qcle in *. cbn [this Qcplus Qcmult Qcopp Q2Qc] in *.
  rewrite ?Qred_correct in *. rewrite Hn, Hp.
  set (B := inject_Z bound) in *. clearbody B.
  destruct x as [x ?], factor as [f ?]. cbn [this] in *.
  change (inject_Z 100) with 100%Q in *. change (inject_Z 1600) with 1600%Q in *.
  assert (H1 : (0 <= (x + B) * f)%Q) by (apply Qmult_le_0_compat; lra).
  assert (H2 : (0 <= (B - x) * f)%Q) by (apply Qmult_le_0_compat; lra).
  assert (H3 : (0 <= B * (1600 - f))%Q) by (apply Qmult_le_0_compat; lra).
  split; lra.
Qed.

Lemma scaleBreakdown_fields breakdown factor :
  ofZ 100 <= factor ->
  scaleBreakdown breakdown factor = breakdown /\ factor = ofZ 1
  \/ SwapPressureBreakdown.score (scaleBreakdown breakdown factor)
     = SwapPressureBreakdown.score breakdown * factor
     /\ SwapPressureSection.deltaTotal
          (SwapPressureBreakdown.original (scaleBreakdown breakdown factor))
        = SwapPressureSection.deltaTotal (SwapPressureBreakdown.original breakdown) * factor
     /\ SwapPressureSection.deltaTotal
          (SwapPressureBreakdown.counterpart (scaleBreakdown breakdown factor))
        = SwapPressureSection.deltaTotal (SwapPressureBreakdown.counterpart breakdown)
          * factor.
Proof.
  intros Hf. unfold scaleBreakdown. cbn [isFinite eqb Exact.number negb orb].
  destruct (Qc_eq_bool factor _) eqn:Hone.
  - left. split; [reflexivity|]. apply Qc_eq_bool_correct. exact Hone.
  - right. cbn. auto.
Qed.

Lemma scaled_breakdown_bounds (sectionA sectionB : SwapPressureSection.t) (factor : Qc) :
  sectionBounded sectionA -> sectionBounded sectionB ->
  ofZ 100 <= factor -> factor <= ofZ 1600 ->
  let baselineScore :=
    (SwapPressureSection.baselineTotal sectionA
     + SwapPressureSection.baselineTotal sectionB)%num in
  let swappedScore :=
    (SwapPressureSection.swappedTotal sectionA
     + SwapPressureSection.swappedTotal sectionB)%num in
  let scaled :=
    scaleBreakdown
      (SwapPressureBreakdown.mk (swappedScore - baselineScore)%num baselineScore swappedScore
         sectionA sectionB) factor in
  (ofZ (-3200) <= SwapPressureBreakdown.score scaled
   /\ SwapPressureBreakdown.score scaled <= ofZ 3200)
  /\ (ofZ (-1600)
      <= SwapPressureSection.deltaTotal (SwapPressureBreakdown.original scaled)
      /\ SwapPressureSection.deltaTotal (SwapPressureBreakdown.original scaled)
         <= ofZ 1600)
  /\ (ofZ (-1600)
      <= SwapPressureSection.deltaTotal (SwapPressureBreakdown.counterpart scaled)
      /\ SwapPressureSection.deltaTotal (SwapPressureBreakdown.counterpart scaled)
         <= ofZ 1600).
Proof.
  intros HA HB Hf1 Hf2. cbv zeta.
  destruct HA as ([A1 A2] & [A3 A4] & A5). destruct HB as ([B1 B2] & [B3 B4] & B5).
  set (breakdown := SwapPressureBreakdown.mk _ _ _ sectionA sectionB).
  assert (Hscore : - ofZ 2 <= SwapPressureBreakdown.score breakdown
                   /\ SwapPressureBreakdown.score breakdown <= ofZ 2).
  { unfold breakdown. cbn [SwapPressureBreakdown.score].
    set (bA := SwapPressureSection.baselineTotal sectionA) in *.
    set (sA := SwapPressureSection.swappedTotal sectionA) in *.
    set (bB := SwapPressureSection.baselineTotal sectionB) in *.
    set (sB := SwapPressureSection.swappedTotal sectionB) in *.
    clearbody bA sA bB sB. clear A5 B5. split; over_Q; lra. }
  assert (HdA : - ofZ 1 <= SwapPressureSection.deltaTotal sectionA
                /\ SwapPressureSection.deltaTotal sectionA <= ofZ 1).
  { rewrite A5.
    set (bA := SwapPressureSection.baselineTotal sectionA) in *.
    set (sA := SwapPressureSection.swappedTotal sectionA) in *.
    clearbody bA sA. clear -A1 A2 A3 A4. split; over_Q; lra. }
  assert (HdB : - ofZ 1 <= SwapPressureSection.deltaTotal sectionB
                /\ SwapPressureSection.deltaTotal sectionB <= ofZ 1).
  { rewrite B5.
    set (bB := SwapPressureSection.baselineTotal sectionB) in *.
    set (sB := SwapPressureSection.swappedTotal sectionB) in *.
    clearbody bB sB. clear -B1 B2 B3 B4. split; over_Q; lra. }
  destruct (scaleBreakdown_fields breakdown factor Hf1) as [[_ Hone]|(-> & -> & ->)].
  - exfalso. rewrite Hone in Hf1. vm_compute in Hf1. apply Hf1. reflexivity.
  - change (SwapPressureBreakdown.original breakdown) with sectionA.
    change (SwapPressureBreakdown.counterpart breakdown) with sectionB.
    destruct Hscore as [S1 S2]. destruct HdA as [D1 D2]. destruct HdB as [D3 D4].
    split; [|split].
    + apply (scaled_range _ factor 2 S1 S2); [lia | exact Hf1 | exact Hf2].
    + apply (scaled_range _ factor 1 D1 D2); [lia | exact Hf1 | exact Hf2].
    + apply (scaled_range _ factor 1 D3 D4); [lia | exact Hf1 | exact Hf2].
Qed.

Lemma scaledSwapPressure_bounds a b ctx scaled residentA residentB :
  scaledSwapPressure a b ctx = Some (scaled, residentA, residentB) ->
  (ofZ (-3200) <= SwapPressureBreakdown.score scaled
   /\ SwapPressureBreakdown.score scaled <= ofZ 3200)
  /\ (ofZ (-1600)
      <= SwapPressureSection.deltaTotal (SwapPressureBreakdown.original scaled)
      /\ SwapPressureSection.deltaTotal (SwapPressureBreakdown.original scaled)
         <= ofZ 1600)
  /\ (ofZ (-1600)
      <= SwapPressureSection.deltaTotal (SwapPressureBreakdown.counterpart scaled)
      /\ SwapPressureSection.deltaTotal (SwapPressureBreakdown.counterpart scaled)
         <= ofZ 1600).
Proof.
  unfold scaledSwapPressure.
  destruct (_ || _); [discriminate|].
  destruct (Context.residentsById ctx !! Shift.residentId a) as [rA|]; [|discriminate].
  destruct (Context.residentsById ctx !! Shift.residentId b) as [rB|]; [|discriminate].
  destruct (negb (includesType (Resident.eligibleShiftTypes rA) _)); [discriminate|].
  destruct (negb (includesType (Resident.eligibleShiftTypes rB) _)); [discriminate|].
  cbv zeta. intros Heq. injection Heq as <- _ _.
  destruct (multiplier_range a b) as [Hf1 Hf2].
  apply scaled_breakdown_bounds;
    [apply buildSection_bounded | apply buildSection_bounded | exact Hf1 | exact Hf2].
Qed.

Lemma resolveIpConsultPenalty_values a b ctx :
  resolveIpConsultPenalty a b ctx = ofZ 0
  \/ resolveIpConsultPenalty a b ctx = IP_CONSULT_MISMATCH_PENALTY.
Proof.
  unfold resolveIpConsultPenalty.
  destruct (_ || _); [left; reflexivity|].
  cbv zeta. destruct (Bool.eqb _ _); [left|right]; reflexivity.
Qed.

Lemma applyIpConsultPenalty_score breakdown penalty a b :
  SwapPressureBreakdown.score (applyIpConsultPenalty breakdown penalty a b)
  = SwapPressureBreakdown.score breakdown + penalty.
Proof.
  unfold applyIpConsultPenalty.
  destruct (_ || _) eqn:Hzero; [|reflexivity].
  cbn [isFinite Exact.number negb orb] in Hzero.
  change (Qc_eq_bool penalty (ofZ 0) = true) in Hzero.
  apply Qc_eq_bool_correct in Hzero. subst penalty.
  generalize (SwapPressureBreakdown.score breakdown). intros score.
  over_Q. lra.
Qed.

Lemma resolveRotationPressureBonus_values resident shift :
  RotationPressureBonus.value (resolveRotationPressureBonus resident shift) = ofZ 0
  \/ RotationPressureBonus.value (resolveRotationPressureBonus resident shift)
     = ROTATION_PRESSURE_BONUS.
Proof.
  unfold resolveRotationPressureBonus.
  destruct (Resident.rotations resident); [left; reflexivity|].
  destruct (findRotationForDate _ _); [|left; reflexivity].
  destruct (find _ _); [right|left]; reflexivity.
Qed.

Lemma applyRotationPressure_score breakdown a b residentA residentB :
  SwapPressureBreakdown.score breakdown - ofZ 200
  <= SwapPressureBreakdown.score (applyRotationPressure breakdown a b residentA residentB)
  /\ SwapPressureBreakdown.score (applyRotationPressure breakdown a b residentA residentB)
     <= SwapPressureBreakdown.score breakdown + ofZ 200.
Proof.
  unfold applyRotationPressure. cbv zeta.
  pose proof (resolveRotationPressureBonus_values residentA a) as H1.
  pose proof (resolveRotationPressureBonus_values residentA b) as H2.
  pose proof (resolveRotationPressureBonus_values residentB b) as H3.
  pose proof (resolveRotationPressureBonus_values residentB a) as H4.
  set (b1 := resolveRotationPressureBonus residentA a) in *.
  set (b2 := resolveRotationPressureBonus residentA b) in *.
  set (b3 := resolveRotationPressureBonus residentB b) in *.
  set (b4 := resolveRotationPressureBonus residentB a) in *.
  clearbody b1 b2 b3 b4.
  assert (Hno : gtb (ofZ 0) (ofZ 0) = false) by (vm_compute; reflexivity).
  assert (Hyes : gtb ROTATION_PRESSURE_BONUS (ofZ 0) = true) by (vm_compute; reflexivity).
  unfold appendRotationPressureCall. cbv zeta.
  destruct H1 as [E1|E1], H2 as [E2|E2], H3 as [E3|E3], H4 as [E4|E4];
    rewrite ?E1, ?E2, ?E3, ?E4, ?Hno, ?Hyes;
    cbn [SwapPressureBreakdown.score];
    rewrite ?E1, ?E2, ?E3, ?E4;
    generalize (SwapPressureBreakdown.score breakdown); intros score;
    unfold ROTATION_PRESSURE_BONUS; split; over_Q; lra.
Qed.

(** X12. In exact arithmetic the score of a swap is bounded: the scaled
    comparison of the two residents' call spacing lies in [-3200, 3200],
    each resident's share of it in [-1600, 1600], and after the consult
    penalty and the four rotation adjustments the final score lies in
    [-3450, 3400]. *)
Theorem pressure_bounds_exact a b ctx :
  (ofZ (-3450) <= proximityPressure a b ctx /\ proximityPressure a b ctx <= ofZ 3400)
  /\ (forall scaled residentA residentB,
        scaledSwapPressure a b ctx = Some (scaled, residentA, residentB) ->
        (ofZ (-3200) <= SwapPressureBreakdown.score scaled
         /\ SwapPressureBreakdown.score scaled <= ofZ 3200)
        /\ (ofZ (-1600)
            <= SwapPressureSection.deltaTotal (SwapPressureBreakdown.original scaled)
            /\ SwapPressureSection.deltaTotal (SwapPressureBreakdown.original scaled)
               <= ofZ 1600)
        /\ (ofZ (-1600)
            <= SwapPressureSection.deltaTotal (SwapPressureBreakdown.counterpart scaled)
            /\ SwapPressureSection.deltaTotal (SwapPressureBreakdown.counterpart scaled)
               <= ofZ 1600)).
Proof.
  split; [|intros scaled residentA residentB; apply scaledSwapPressure_bounds].
  unfold proximityPressure, calculateSwapPressure. cbv zeta.
  destruct (scaledSwapPressure a b ctx) as [[[scaled residentA] residentB]|] eqn:Hscaled.
  - destruct (scaledSwapPressure_bounds _ _ _ _ _ _ Hscaled) as [[S1 S2] _].
    pose proof (applyRotationPressure_score
                  (applyIpConsultPenalty scaled (resolveIpConsultPenalty a b ctx) a b)
                  a b residentA residentB) as [R1 R2].
    rewrite applyIpConsultPenalty_score in R1, R2.
    set (final := SwapPressureBreakdown.score (applyRotationPressure _ _ _ _ _)) in *.
    set (base := SwapPressureBreakdown.score scaled) in *.
    clearbody final base.
    destruct (resolveIpConsultPenalty_values a b ctx) as [E|E];
      rewrite E in R1, R2; unfold IP_CONSULT_MISMATCH_PENALTY in *;
      clear E Hscaled; split; over_Q; lra.
  - split; vm_compute; discriminate.
Qed.

End PressureBounds.


(** ** Further properties of the batch evaluation *)

Section BatchProperties.
Context {N : JsNumber} {H : Host}.

(** The pair of a candidate. *)
Definition pairOf (candidate : SwapCandidate.t) : ShiftPair.t :=
  ShiftPair.mk (SwapCandidate.a candidate) (SwapCandidate.b candidate).

(** [isFeasibleSwap] returns [true] for the pair. *)
Definition feasiblePair (ctx : Context.t) (pr : ShiftPair.t) : bool :=
  match isFeasibleSwap (ShiftPair.a pr) (ShiftPair.b pr) ctx with
  | Returns true => true
  | _ => false
  end.

(** The candidate carries what the rule engine and the scoring engine say
    of its pair. *)
Definition candidateSound (ctx : Context.t) (candidate : SwapCandidate.t) : Prop :=
  explainSwap (SwapCandidate.a candidate) (SwapCandidate.b candidate) ctx
    = Returns (Feasible (SwapCandidate.advisories candidate))
  /\ SwapCandidate.pressure candidate
     = calculateSwapPressure (SwapCandidate.a candidate) (SwapCandidate.b candidate) ctx
  /\ SwapCandidate.score candidate
     = proximityPressure (SwapCandidate.a candidate) (SwapCandidate.b candidate) ctx.

Lemma candidatesOf_returns pairs ctx :
  Forall (fun pr => exists evaluation,
            explainSwap (ShiftPair.a pr) (ShiftPair.b pr) ctx = Returns evaluation) pairs
  <-> exists candidates, candidatesOf pairs ctx = Returns candidates.
Proof.
  induction pairs as [|pr rest IH]; cbn [candidatesOf].
  - split; [intros _; eexists; reflexivity | constructor].
  - split.
    + intros Hall. inversion Hall as [|? ? [evaluation Hev] Hrest]; subst.
      apply IH in Hrest. destruct Hrest as [candidates Hc].
      rewrite Hev, Hc. cbn [bindOutcome]. eexists; reflexivity.
    + intros [candidates Hc].
      destruct (explainSwap (ShiftPair.a pr) (ShiftPair.b pr) ctx) as [evaluation|] eqn:Hev;
        [|discriminate].
      cbn [bindOutcome] in Hc.
      destruct (candidatesOf rest ctx) as [tail|] eqn:Ht; [|discriminate].
      constructor; [exists evaluation; exact Hev|]. apply IH. eexists; reflexivity.
Qed.

Lemma candidatesOf_exact pairs ctx candidates :
  candidatesOf pairs ctx = Returns candidates ->
  map pairOf candidates = List.filter (feasiblePair ctx) pairs
  /\ Forall (candidateSound ctx) candidates.
Proof.
  revert candidates. induction pairs as [|pr rest IH]; cbn [candidatesOf List.filter];
    intros candidates Hc.
  - inversion Hc; subst. split; [reflexivity | constructor].
  - assert (Hfeasible : feasiblePair ctx pr
                        = match explainSwap (ShiftPair.a pr) (ShiftPair.b pr) ctx with
                          | Returns (Feasible _) => true
                          | _ => false
                          end).
    { unfold feasiblePair, isFeasibleSwap, explainSwap.
      destruct (evaluateSwap _ _ _) as [[?|? ?]|]; reflexivity. }
    rewrite Hfeasible. clear Hfeasible.
    destruct (explainSwap (ShiftPair.a pr) (ShiftPair.b pr) ctx) as [evaluation|] eqn:Hev;
      [|discriminate].
    cbn [bindOutcome] in Hc.
    destruct (candidatesOf rest ctx) as [tail|] eqn:Ht; [|discriminate].
    cbn [bindOutcome] in Hc. inversion Hc; subst; clear Hc.
    destruct (IH tail eq_refl) as [Hmap Hall].
    destruct evaluation as [advisories|reason advisories].
    + split.
      * cbn [map]. rewrite Hmap. unfold pairOf at 1. cbn [SwapCandidate.a SwapCandidate.b].
        destruct pr. reflexivity.
      * constructor; [|exact Hall].
        unfold candidateSound, proximityPressure.
        cbn [SwapCandidate.a SwapCandidate.b SwapCandidate.advisories
             SwapCandidate.pressure SwapCandidate.score].
        repeat split. exact Hev.
    + split; assumption.
Qed.

(** X13.  The serial batch evaluation returns as soon as the rule engine
    returns for every pair, and its candidates are then exactly the
    pairs of the batch that the rule engine accepts, in the order of
    the batch, each with the advisories of its evaluation, the
    breakdown of the scoring engine and the score of that breakdown. *)
Theorem serial_candidates_exact (pairs : list ShiftPair.t) (ctx : Context.t) :
  (Forall (fun pr => exists evaluation,
             explainSwap (ShiftPair.a pr) (ShiftPair.b pr) ctx = Returns evaluation) pairs
   <-> exists candidates, evaluatePairsSync pairs ctx = Returns candidates)
  /\ (forall candidates,
        evaluatePairsSync pairs ctx = Returns candidates ->
        map pairOf candidates = List.filter (feasiblePair ctx) pairs
        /\ Forall (candidateSound ctx) candidates).
Proof.
  rewrite evaluatePairsSync_candidates. split.
  - apply candidatesOf_returns.
  - intros candidates Hc. apply candidatesOf_exact. exact Hc.
Qed.

(** The sum of the counts of a table of rejection reasons. *)
Definition sumCounts (reasons : list (string * nat)) : nat :=
  fold_right (fun entry sum => (snd entry + sum)%nat) 0%nat reasons.

Lemma sumCounts_cons key count reasons :
  sumCounts ((key, count) :: reasons) = (count + sumCounts reasons)%nat.
Proof. reflexivity. Qed.

Lemma sumCounts_increment key reasons :
  sumCounts (mapSet key (default 0%nat (mapGet key reasons) + 1)%nat reasons)
  = S (sumCounts reasons).
Proof.
  induction reasons as [|[k v] rest IH]; [reflexivity|].
  unfold mapGet in *. cbn [mapSet find fst].
  destruct (String.eqb k key).
  - cbn [option_map snd]. rewrite !sumCounts_cons. simpl. lia.
  - rewrite !sumCounts_cons, IH. lia.
Qed.

(** What the loop over the pairs keeps: the samples are the first ten
    rejections. *)
Definition samplesKept (state : LoopState) : Prop :=
  length (loopSamples state) = Nat.min 10 (sumCounts (loopReasons state)).

Lemma evaluateLoop_counts pairs ctx state state' :
  evaluateLoop pairs ctx state = Returns state' ->
  samplesKept state ->
  samplesKept state'
  /\ (sumCounts (loopReasons state') + length (loopCandidates state')
      = sumCounts (loopReasons state) + length (loopCandidates state) + length pairs)%nat.
Proof.
  revert state. induction pairs as [|pr rest IH]; intros state Hloop Hkept.
  - inversion Hloop; subst. split; [exact Hkept | simpl; lia].
  - cbn [evaluateLoop] in Hloop. unfold evaluateOnePair in Hloop.
    destruct (explainSwap (ShiftPair.a pr) (ShiftPair.b pr) ctx) as [evaluation|];
      [|discriminate].
    destruct evaluation as [advisories|reason advisories]; cbn [bindOutcome] in Hloop.
    + apply IH in Hloop; [|exact Hkept].
      destruct Hloop as [Hk Hsum]. split; [exact Hk|].
      rewrite Hsum. cbn [loopReasons loopCandidates]. rewrite length_app. simpl. lia.
    + apply IH in Hloop.
      * destruct Hloop as [Hk Hsum]. split; [exact Hk|].
        rewrite Hsum. cbn [loopReasons loopCandidates]. rewrite sumCounts_increment.
        simpl. lia.
      * unfold samplesKept in *. cbn [loopReasons loopSamples].
        rewrite sumCounts_increment.
        destruct (length (loopSamples state) <? 10)%nat eqn:Hlt.
        -- apply Nat.ltb_lt in Hlt. rewrite length_app. cbn [length]. lia.
        -- apply Nat.ltb_ge in Hlt. lia.
Qed.

(** X14.  The diagnostics a worker posts with its answer add up: the
    accepted pairs are the candidates of the answer, every other pair of
    the chunk is counted under exactly one rejection reason, and the
    samples are the first ten rejections. *)
Theorem worker_diagnostics_add_up (message : WorkerIn.t) (response : WorkerOut.t) :
  onmessage message = Returns response ->
  exists diagnostics,
    WorkerOut.diagnostics response = Some diagnostics
    /\ WorkerOut.chunkSize response = length (WorkerIn.pairs message)
    /\ EvaluationDiagnostics.totalPairs diagnostics = length (WorkerIn.pairs message)
    /\ EvaluationDiagnostics.accepted diagnostics
       = length (WorkerOut.candidates response)
    /\ (EvaluationDiagnostics.accepted diagnostics
        + sumCounts (EvaluationDiagnostics.rejectionReasons diagnostics)
        = EvaluationDiagnostics.totalPairs diagnostics)%nat
    /\ length (default [] (EvaluationDiagnostics.samples diagnostics))
       = Nat.min 10 (sumCounts (EvaluationDiagnostics.rejectionReasons diagnostics)).
Proof.
  unfold onmessage. intros Hmsg.
  destruct (evaluateLoop _ _ _) as [state|] eqn:Hloop; [|discriminate].
  cbn [bindOutcome] in Hmsg. inversion Hmsg; subst; clear Hmsg.
  apply evaluateLoop_counts in Hloop; [|reflexivity].
  destruct Hloop as [Hkept Hsum]. cbn [loopReasons loopCandidates length] in Hsum.
  eexists. split; [reflexivity|].
  cbn [WorkerOut.chunkSize WorkerOut.candidates EvaluationDiagnostics.totalPairs
       EvaluationDiagnostics.accepted EvaluationDiagnostics.rejectionReasons
       EvaluationDiagnostics.samples].
  assert (Hsamples : length (default [] (nonEmpty (loopSamples state)))
                     = length (loopSamples state))
    by (destruct (loopSamples state); reflexivity).
  unfold samplesKept in Hkept.
  change (sumCounts []) with 0%nat in Hsum.
  repeat split; lia.
Qed.



(** The messages [evaluatePairs] posts when it uses workers: one for
    every slice of the pairs. *)
Definition workerMessages (pool : SwapWorkerPool.t) (pairs : list ShiftPair.t)
    (ctx : Context.t) : list WorkerIn.t :=
  let adapters := ensureAdapters pool in
  let chunkSize := Nat.max 1 ((length pairs + adapters - 1) / adapters) in
  map (fun chunk => WorkerIn.mk chunk (serializeContext ctx))
    (sliceChunks (length pairs) chunkSize pairs).

Lemma evaluatePairs_posts pool pairs ctx :
  SwapWorkerPool.terminated pool = false ->
  shouldUseWorkers pool (length pairs) = true ->
  (ensureAdapters pool =? 0)%nat = false ->
  evaluatePairs pool pairs ctx
  = match mapOutcome onmessage (workerMessages pool pairs ctx) with
    | Diverges => Pending
    | Returns results =>
        let flattened := flat_map WorkerOut.candidates results in
        let diagnostics := mergeDiagnostics (map WorkerOut.diagnostics results) in
        let diagnosticsMismatch :=
          match diagnostics with
          | None => true
          | Some d => negb (EvaluationDiagnostics.accepted d =? length flattened)%nat
          end in
        if (0 <? length pairs)%nat && diagnosticsMismatch
        then promiseOf (evaluatePairsSync pairs ctx)
        else Resolved flattened
    end.
Proof.
  intros Hlive Huse Hadapters. unfold evaluatePairs, workerMessages.
  rewrite Hlive, Huse, Hadapters. reflexivity.
Qed.

Lemma shouldUseWorkers_adapters pool count :
  shouldUseWorkers pool count = true ->
  (0 < ensureAdapters pool)%nat /\ (SwapWorkerPool.threshold pool <= count)%nat.
Proof.
  unfold shouldUseWorkers, ensureAdapters.
  destruct (SwapWorkerPool.spawnable pool); cbn [negb]; [|discriminate].
  destruct (SwapWorkerPool.size pool <=? 1)%nat eqn:Hsize; [discriminate|].
  apply Nat.leb_gt in Hsize. intros Hcount. apply Nat.leb_le in Hcount.
  rewrite orb_false_r.
  destruct (0 <? SwapWorkerPool.adapters pool)%nat eqn:Hlive.
  - apply Nat.ltb_lt in Hlive. lia.
  - lia.
Qed.

Lemma sliceChunks_sizes {A : Type} (fuel chunkSize : nat) (pairs : list A) :
  (1 <= chunkSize)%nat -> (length pairs <= fuel)%nat ->
  Forall (fun chunk => (1 <= length chunk <= chunkSize)%nat)
    (sliceChunks fuel chunkSize pairs)
  /\ (length (sliceChunks fuel chunkSize pairs) * chunkSize < length pairs + chunkSize)%nat.
Proof.
  intros Hsize. revert pairs. induction fuel as [|fuel IH]; intros pairs Hlen.
  - destruct pairs; [|simpl in Hlen; lia]. split; [constructor | simpl; lia].
  - destruct pairs as [|x rest]; [split; [constructor | simpl; lia]|].
    cbn [sliceChunks].
    destruct (IH (drop chunkSize (x :: rest))) as [Hall Hcount].
    { rewrite length_drop. simpl in *. lia. }
    split.
    + constructor; [|exact Hall]. rewrite length_take. simpl. lia.
    + cbn [length]. rewrite length_drop in Hcount. cbn [length] in Hcount.
      set (chunks := length (sliceChunks fuel chunkSize (drop chunkSize (x :: rest)))) in *.
      clearbody chunks. clear -Hcount Hsize.
      destruct (Nat.le_gt_cases chunkSize (S (length rest))) as [Hle|Hgt]; [nia|].
      assert (chunks = 0)%nat by nia. subst chunks. lia.
Qed.

(** X15.  When a batch goes to the workers, the messages cut it into
    consecutive chunks: the chunks put together are the batch, no chunk
    is empty, there are no more chunks than workers (so that every
    worker gets at most one), and every message carries the serialized
    context. *)
Theorem worker_chunks_partition (pool : SwapWorkerPool.t) (pairs : list ShiftPair.t)
    (ctx : Context.t) :
  shouldUseWorkers pool (length pairs) = true ->
  concat (map WorkerIn.pairs (workerMessages pool pairs ctx)) = pairs
  /\ Forall (fun message =>
               WorkerIn.pairs message <> []
               /\ WorkerIn.ctx message = serializeContext ctx)
       (workerMessages pool pairs ctx)
  /\ (length (workerMessages pool pairs ctx) <= ensureAdapters pool)%nat.
Proof.
  intros Huse. apply shouldUseWorkers_adapters in Huse. destruct Huse as [Hadapters _].
  unfold workerMessages. cbv zeta.
  set (adapters := ensureAdapters pool) in *.
  set (chunkSize := Nat.max 1 ((length pairs + adapters - 1) / adapters)).
  assert (Hsize : (1 <= chunkSize)%nat) by (unfold chunkSize; lia).
  destruct (sliceChunks_sizes (length pairs) chunkSize pairs Hsize (le_n _))
    as [Hall Hcount].
  split; [|split].
  - rewrite map_map. cbn [WorkerIn.pairs]. rewrite map_id.
    apply sliceChunks_concat; [exact Hsize | lia].
  - rewrite Forall_map. eapply Forall_impl; [exact Hall|].
    intros chunk Hchunk. cbn [WorkerIn.pairs WorkerIn.ctx]. split; [|reflexivity].
    intros ->. simpl in Hchunk. lia.
  - rewrite length_map.
    assert (Hcover : (length pairs <= chunkSize * adapters)%nat).
    { unfold chunkSize.
      pose proof (Nat.div_mod_eq (length pairs + adapters - 1) adapters) as Hdiv.
      pose proof (Nat.mod_upper_bound (length pairs + adapters - 1) adapters) as Hmod.
      nia. }
    nia.
Qed.

End BatchProperties.


(** ** The score of pairs the rule engine rejects *)

Section PressureGates.
Context {N : JsNumber} {H : Host}.

Lemma prepareSwap_early_zero a b ctx failure :
  prepareSwap (Some a) (Some b) (Some ctx) = inl failure ->
  kindOf failure = "identical-shift" \/ kindOf failure = "same-resident"
  \/ kindOf failure = "resident-missing" \/ kindOf failure = "eligibility-a"
  \/ kindOf failure = "eligibility-b" ->
  scaledSwapPressure a b ctx = None.
Proof.
  intros Hprep Hkind. pose proof (prepareSwap_gates a b ctx) as Hg.
  rewrite Hprep in Hg. unfold scaledSwapPressure.
  destruct (String.eqb (Shift.id a) (Shift.id b)); [reflexivity|].
  destruct (String.eqb (Shift.residentId a) (Shift.residentId b)); [reflexivity|].
  cbn [orb].
  destruct (Context.residentsById ctx !! Shift.residentId a) as [rA|]; [|reflexivity].
  destruct (Context.residentsById ctx !! Shift.residentId b) as [rB|]; [|reflexivity].
  destruct (tiersClash a b);
    [rewrite Hg in Hkind; decompose [or] Hkind; discriminate|].
  destruct (negb (Bool.eqb _ _));
    [rewrite Hg in Hkind; decompose [or] Hkind; discriminate|].
  destruct (negb (whitelisted _ _ && whitelisted _ _));
    [rewrite Hg in Hkind; decompose [or] Hkind; discriminate|].
  destruct (negb (includesType (Resident.eligibleShiftTypes rA) (Shift.type b)));
    [reflexivity|].
  destruct Hg as [Hb _]. rewrite Hb. reflexivity.
Qed.

(** X16.  A pair that the rule engine rejects because the two shifts are
    the same, have the same owner, have an owner missing from the index,
    or have an owner not eligible for the other's type, gets the zero
    breakdown from the scoring engine: score 0 and no calls. *)
Theorem rejected_pairs_score_zero (a b : Shift.t) (ctx : Context.t) (kind : string) :
  rejectedAs (evaluateSwap (Some a) (Some b) (Some ctx)) kind ->
  kind = "identical-shift" \/ kind = "same-resident" \/ kind = "resident-missing"
  \/ kind = "eligibility-a" \/ kind = "eligibility-b" ->
  calculateSwapPressure a b ctx = buildZeroBreakdown (Some a) (Some b)
  /\ proximityPressure a b ctx = ofZ 0.
Proof.
  intros Hrejected Hkind.
  assert (Hgate : exists failure,
             prepareSwap (Some a) (Some b) (Some ctx) = inl failure
             /\ kindOf failure = kind).
  { apply rejectedAs_gate; [..|exact Hrejected];
      intros ->; decompose [or] Hkind; discriminate. }
  destruct Hgate as (failure & Hprep & Hfailure).
  assert (Hzero : scaledSwapPressure a b ctx = None).
  { apply (prepareSwap_early_zero a b ctx failure Hprep). rewrite Hfailure. exact Hkind. }
  unfold proximityPressure, calculateSwapPressure. rewrite Hzero. split; reflexivity.
Qed.

Lemma scaleBreakdown_names breakdown factor :
  let scaled := scaleBreakdown breakdown factor in
  SwapPressureSection.residentId (SwapPressureBreakdown.original scaled)
  = SwapPressureSection.residentId (SwapPressureBreakdown.original breakdown)
  /\ SwapPressureSection.focusShiftId (SwapPressureBreakdown.original scaled)
     = SwapPressureSection.focusShiftId (SwapPressureBreakdown.original breakdown)
  /\ SwapPressureSection.residentId (SwapPressureBreakdown.counterpart scaled)
     = SwapPressureSection.residentId (SwapPressureBreakdown.counterpart breakdown)
  /\ SwapPressureSection.focusShiftId (SwapPressureBreakdown.counterpart scaled)
     = SwapPressureSection.focusShiftId (SwapPressureBreakdown.counterpart breakdown).
Proof.
  cbv zeta. unfold scaleBreakdown. destruct (_ || _); repeat split; reflexivity.
Qed.

Lemma applyIpConsultPenalty_names breakdown penalty a b :
  let updated := applyIpConsultPenalty breakdown penalty a b in
  SwapPressureSection.residentId (SwapPressureBreakdown.original updated)
  = SwapPressureSection.residentId (SwapPressureBreakdown.original breakdown)
  /\ SwapPressureSection.focusShiftId (SwapPressureBreakdown.original updated)
     = SwapPressureSection.focusShiftId (SwapPressureBreakdown.original breakdown)
  /\ SwapPressureSection.residentId (SwapPressureBreakdown.counterpart updated)
     = SwapPressureSection.residentId (SwapPressureBreakdown.counterpart breakdown)
  /\ SwapPressureSection.focusShiftId (SwapPressureBreakdown.counterpart updated)
     = SwapPressureSection.focusShiftId (SwapPressureBreakdown.counterpart breakdown).
Proof.
  cbv zeta. unfold applyIpConsultPenalty. destruct (_ || _); repeat split; reflexivity.
Qed.

Lemma appendRotationPressureCall_names breakdown key shift resident mode bonus :
  let updated := appendRotationPressureCall breakdown key shift resident mode bonus in
  SwapPressureSection.residentId (SwapPressureBreakdown.original updated)
  = SwapPressureSection.residentId (SwapPressureBreakdown.original breakdown)
  /\ SwapPressureSection.focusShiftId (SwapPressureBreakdown.original updated)
     = SwapPressureSection.focusShiftId (SwapPressureBreakdown.original breakdown)
  /\ SwapPressureSection.residentId (SwapPressureBreakdown.counterpart updated)
     = SwapPressureSection.residentId (SwapPressureBreakdown.counterpart breakdown)
  /\ SwapPressureSection.focusShiftId (SwapPressureBreakdown.counterpart updated)
     = SwapPressureSection.focusShiftId (SwapPressureBreakdown.counterpart breakdown).
Proof.
  cbv zeta. unfold appendRotationPressureCall. destruct key; repeat split; reflexivity.
Qed.

Lemma buildSection_names baselineShift swappedShift otherShifts restMin :
  SwapPressureSection.residentId
    (buildSection baselineShift swappedShift otherShifts restMin)
  = Shift.residentId baselineShift
  /\ SwapPressureSection.focusShiftId
       (buildSection baselineShift swappedShift otherShifts restMin)
     = Shift.id baselineShift.
Proof.
  unfold buildSection. cbv zeta.
  destruct (fold_left _ (setOfList _) []) as [|entry entries]; [split; reflexivity|].
  destruct (fold_left _ (entry :: entries) _) as [[calls baselineTotal] swappedTotal].
  split; reflexivity.
Qed.


(** The two sections name the given owners and shifts. *)
Definition namesPair (breakdown : SwapPressureBreakdown.t)
    (residentA shiftA residentB shiftB : string) : Prop :=
  SwapPressureSection.residentId (SwapPressureBreakdown.original breakdown) = residentA
  /\ SwapPressureSection.focusShiftId (SwapPressureBreakdown.original breakdown) = shiftA
  /\ SwapPressureSection.residentId (SwapPressureBreakdown.counterpart breakdown) = residentB
  /\ SwapPressureSection.focusShiftId (SwapPressureBreakdown.counterpart breakdown) = shiftB.

Lemma namesPair_step (breakdown updated : SwapPressureBreakdown.t) rA sA rB sB :
  namesPair breakdown rA sA rB sB ->
  (SwapPressureSection.residentId (SwapPressureBreakdown.original updated)
   = SwapPressureSection.residentId (SwapPressureBreakdown.original breakdown)
   /\ SwapPressureSection.focusShiftId (SwapPressureBreakdown.original updated)
      = SwapPressureSection.focusShiftId (SwapPressureBreakdown.original breakdown)
   /\ SwapPressureSection.residentId (SwapPressureBreakdown.counterpart updated)
      = SwapPressureSection.residentId (SwapPressureBreakdown.counterpart breakdown)
   /\ SwapPressureSection.focusShiftId (SwapPressureBreakdown.counterpart updated)
      = SwapPressureSection.focusShiftId (SwapPressureBreakdown.counterpart breakdown)) ->
  namesPair updated rA sA rB sB.
Proof.
  unfold namesPair. intros (H1 & H2 & H3 & H4) (E1 & E2 & E3 & E4).
  rewrite E1, E2, E3, E4. auto.
Qed.

Lemma applyRotationPressure_names breakdown a b residentA residentB rA sA rB sB :
  namesPair breakdown rA sA rB sB ->
  namesPair (applyRotationPressure breakdown a b residentA residentB) rA sA rB sB.
Proof.
  intros Hnames. unfold applyRotationPressure. cbv zeta.
  repeat match goal with
         | |- namesPair (if ?c then _ else _) _ _ _ _ => destruct c
         | |- namesPair (appendRotationPressureCall _ _ _ _ _ _) _ _ _ _ =>
             eapply namesPair_step; [|apply appendRotationPressureCall_names]
         end;
    exact Hnames.
Qed.

(** X17.  Whatever the pair, the breakdown of the scoring engine names
    it: the first section carries the first shift and its owner, the
    second section the second shift and its owner. *)
Theorem breakdown_names_the_pair (a b : Shift.t) (ctx : Context.t) :
  namesPair (calculateSwapPressure a b ctx)
    (Shift.residentId a) (Shift.id a) (Shift.residentId b) (Shift.id b).
Proof.
  unfold calculateSwapPressure. cbv zeta.
  destruct (scaledSwapPressure a b ctx) as [[[scaled residentA] residentB]|] eqn:Hscaled.
  - apply applyRotationPressure_names.
    eapply namesPair_step; [|apply applyIpConsultPenalty_names].
    unfold scaledSwapPressure in Hscaled.
    destruct (_ || _); [discriminate|].
    destruct (Context.residentsById ctx !! Shift.residentId a); [|discriminate].
    destruct (Context.residentsById ctx !! Shift.residentId b); [|discriminate].
    destruct (negb _); [discriminate|].
    destruct (negb _); [discriminate|].
    cbv zeta in Hscaled. injection Hscaled as <- _ _.
    eapply namesPair_step; [|apply scaleBreakdown_names].
    unfold namesPair. cbn [SwapPressureBreakdown.original SwapPressureBreakdown.counterpart].
    repeat split; apply buildSection_names.
  - repeat split.
Qed.

End PressureGates.


(** ** Properties of the search ([src/engine/swapEngine.ts]) *)

Section ContextProperties.
Context {N : JsNumber} {H : Host}.

(** The shifts of a person, in the order of the dataset. *)
Definition shiftsOf (residentId : string) (shifts : list Shift.t) : list Shift.t :=
  List.filter (fun s => String.eqb (Shift.residentId s) residentId) shifts.

Lemma groupShifts_fold shifts (m : gmap string (list Shift.t)) residentId :
  fold_left
    (fun shiftsByResident s =>
       let arr := default [] (shiftsByResident !! Shift.residentId s) in
       <[Shift.residentId s := arr ++ [s]]> shiftsByResident)
    shifts m !! residentId
  = match shiftsOf residentId shifts with
    | [] => m !! residentId
    | own => Some (default [] (m !! residentId) ++ own)
    end.
Proof.
  revert m. induction shifts as [|s rest IH]; intros m; [reflexivity|].
  cbn [fold_left]. rewrite IH. unfold shiftsOf. cbn [List.filter].
  destruct (String.eqb_spec (Shift.residentId s) residentId) as [Heq|Hne].
  - rewrite Heq, lookup_insert_eq. cbn [default].
    destruct (List.filter _ rest) as [|x own]; [reflexivity|].
    unfold id. rewrite <- app_assoc. reflexivity.
  - rewrite lookup_insert_ne by exact Hne. reflexivity.
Qed.

Lemma groupShifts_lookup shifts residentId :
  groupShifts shifts !! residentId
  = match shiftsOf residentId shifts with [] => None | own => Some own end.
Proof.
  unfold groupShifts. rewrite groupShifts_fold, lookup_empty.
  destruct (shiftsOf residentId shifts); reflexivity.
Qed.

Lemma distinctTypes_fold types acc t :
  t ∈ fold_left (fun acc t => if includesType acc t then acc else acc ++ [t]) types acc
  <-> t ∈ acc \/ t ∈ types.
Proof.
  revert acc. induction types as [|x rest IH]; intros acc; cbn [fold_left].
  - rewrite elem_of_nil. tauto.
  - rewrite IH, elem_of_cons. unfold includesType.
    destruct (bool_decide (x ∈ acc)) eqn:Hin.
    + apply bool_decide_eq_true in Hin. split; [tauto|].
      intros [Hacc|[->|Hrest]]; tauto.
    + rewrite elem_of_app, list_elem_of_singleton. tauto.
Qed.

Lemma distinctTypes_elem types t : t ∈ distinctTypes types <-> t ∈ types.
Proof.
  unfold distinctTypes. rewrite distinctTypes_fold, elem_of_nil. tauto.
Qed.

Lemma distinctTypes_NoDup types : NoDup (distinctTypes types).
Proof.
  unfold distinctTypes.
  assert (Hgen : forall acc, NoDup acc ->
             NoDup (fold_left (fun acc t => if includesType acc t then acc else acc ++ [t])
                      types acc)).
  { induction types as [|x rest IH]; intros acc Hacc; cbn [fold_left]; [exact Hacc|].
    apply IH. unfold includesType.
    destruct (bool_decide (x ∈ acc)) eqn:Hin; [exact Hacc|].
    apply bool_decide_eq_false in Hin.
    apply NoDup_app. split; [exact Hacc|]. split.
    - intros y Hy Hx. apply list_elem_of_singleton in Hx. subst. tauto.
    - apply NoDup_singleton. }
  apply Hgen. constructor.
Qed.

Lemma residentsById_lookup (residents : list Resident.t) (residentId : string) :
  mapOfEntries (map (fun r => (Resident.id r, r)) residents) !! residentId
  = find (fun r => String.eqb (Resident.id r) residentId) (rev residents).
Proof.
  rewrite mapOfEntries_list_to_map, <- map_rev.
  induction (rev residents) as [|r rest IH]; [reflexivity|].
  cbn [map list_to_map foldr fst snd find].
  destruct (String.eqb_spec (Resident.id r) residentId) as [Heq|Hne].
  - rewrite Heq. apply lookup_insert_eq.
  - rewrite lookup_insert_ne by exact Hne. exact IH.
Qed.

(** X18.  The context the search builds from a dataset: the minimum rest
    is 8 hours; the whitelist holds the types that occur among the
    shifts, each once; the index of persons gives, for an id, the last
    person of the dataset with that id; the timeline of a person is
    absent when the person has no shift and otherwise the person's
    shifts of the dataset, sorted by start with the order of the dataset
    kept among equal starts; the observers are the persons with a
    timeline that has no Saturday daytime call. *)
Theorem buildContext_exact (dataset : Dataset.t) :
  let ctx := buildContext dataset None in
  RuleConfig.restHoursMin (Context.ruleConfig ctx) = ofZ 8
  /\ (forall t, t ∈ RuleConfig.typeWhitelist (Context.ruleConfig ctx)
               <-> exists s, s ∈ Dataset.shifts dataset /\ Shift.type s = t)
  /\ NoDup (RuleConfig.typeWhitelist (Context.ruleConfig ctx))
  /\ (forall residentId,
        Context.residentsById ctx !! residentId
        = find (fun r => String.eqb (Resident.id r) residentId)
            (rev (Dataset.residents dataset)))
  /\ (forall residentId,
        Context.shiftsByResident ctx !! residentId
        = match shiftsOf residentId (Dataset.shifts dataset) with
          | [] => None
          | own =>
              Some (stableSort
                      (fun a b => 0 <? localeCompare (Shift.startISO a) (Shift.startISO b))
                      own)
          end)
  /\ (forall residentId,
        residentId ∈ Context.shabbosObservers ctx
        <-> exists timeline,
              Context.shiftsByResident ctx !! residentId = Some timeline
              /\ existsb isSaturdayDaytimeCall timeline = false).
Proof.
  cbv zeta. unfold buildContext. cbv zeta.
  cbn [Context.ruleConfig Context.residentsById Context.shiftsByResident
       Context.shabbosObservers RuleConfig.restHoursMin RuleConfig.typeWhitelist
       mbind option_bind default].
  split; [reflexivity|]. split; [|split; [|split; [|split]]].
  - intros t. rewrite distinctTypes_elem, list_elem_of_fmap.
    split; intros (s & H1 & H2); exists s; auto.
  - apply distinctTypes_NoDup.
  - intros residentId. apply residentsById_lookup.
  - intros residentId. rewrite lookup_fmap, groupShifts_lookup.
    destruct (shiftsOf residentId (Dataset.shifts dataset)); reflexivity.
  - intros residentId. apply resolveShabbosObservers_spec.
Qed.


Lemma buildContext_whitelisted (dataset : Dataset.t) (s : Shift.t) :
  s ∈ Dataset.shifts dataset ->
  whitelisted (Context.ruleConfig (buildContext dataset None)) (Shift.type s) = true.
Proof.
  intros Hs. unfold whitelisted, buildContext. cbv zeta.
  cbn [Context.ruleConfig RuleConfig.typeWhitelist mbind option_bind default].
  assert (Hin : Shift.type s ∈ distinctTypes (map Shift.type (Dataset.shifts dataset))).
  { apply distinctTypes_elem, list_elem_of_fmap. exists s. auto. }
  destruct (distinctTypes _) as [|t types]; [reflexivity|].
  unfold includesType. apply bool_decide_eq_true. exact Hin.
Qed.

Lemma buildContext_resident_absent (dataset : Dataset.t) (residentId : string) :
  Context.residentsById (buildContext dataset None) !! residentId = None
  <-> ~ exists r, r ∈ Dataset.residents dataset /\ Resident.id r = residentId.
Proof.
  unfold buildContext. cbv zeta. cbn [Context.residentsById].
  rewrite residentsById_lookup. split.
  - intros Hnone (r & Hr & Hid).
    assert (Hin : In r (rev (Dataset.residents dataset)))
      by (apply in_rev; rewrite rev_involutive; apply list_elem_of_In; exact Hr).
    pose proof (find_none _ _ Hnone r Hin) as Hf. cbv beta in Hf.
    apply String.eqb_neq in Hf. tauto.
  - intros Habsent.
    destruct (find _ _) as [r|] eqn:Hfind; [|reflexivity].
    exfalso. apply Habsent. apply find_some in Hfind. destruct Hfind as [Hin Hid].
    exists r. split; [|apply String.eqb_eq; exact Hid].
    apply list_elem_of_In, in_rev. exact Hin.
Qed.

(** X19.  In the context built from a dataset, a pair of shifts of the
    dataset is never rejected for the whitelist, and it is rejected for
    a missing person exactly when the shifts and their owners are
    distinct and the dataset has no person with the id of one of the
    owners. *)
Theorem dataset_pairs_gates (dataset : Dataset.t) (a b : Shift.t) :
  a ∈ Dataset.shifts dataset -> b ∈ Dataset.shifts dataset ->
  let result := evaluateSwap (Some a) (Some b) (Some (buildContext dataset None)) in
  ~ rejectedAs result "type-whitelist"
  /\ (rejectedAs result "resident-missing"
      <-> Shift.id a <> Shift.id b /\ Shift.residentId a <> Shift.residentId b
          /\ (~ (exists r, r ∈ Dataset.residents dataset
                           /\ Resident.id r = Shift.residentId a)
              \/ ~ (exists r, r ∈ Dataset.residents dataset
                              /\ Resident.id r = Shift.residentId b))).
Proof.
  intros Ha Hb. cbv zeta.
  set (ctx := buildContext dataset None).
  pose proof (buildContext_whitelisted dataset a Ha) as Hwa.
  pose proof (buildContext_whitelisted dataset b Hb) as Hwb.
  pose proof (buildContext_resident_absent dataset (Shift.residentId a)) as Habsent_a.
  pose proof (buildContext_resident_absent dataset (Shift.residentId b)) as Habsent_b.
  fold ctx in Hwa, Hwb, Habsent_a, Habsent_b.
  rewrite !rejectedAs_gate by discriminate.
  pose proof (prepareSwap_gates a b ctx) as Hg.
  rewrite <- Habsent_a, <- Habsent_b.
  destruct (prepareSwap (Some a) (Some b) (Some ctx)) as [failure|prep].
  - destruct (String.eqb_spec (Shift.id a) (Shift.id b)) as [Hid|Hid].
    { split; [intros (f & Hf & Hk) | split; [intros (f & Hf & Hk) | tauto]];
        inversion Hf; subst; congruence. }
    destruct (String.eqb_spec (Shift.residentId a) (Shift.residentId b)) as [Hrid|Hrid].
    { split; [intros (f & Hf & Hk) | split; [intros (f & Hf & Hk) | tauto]];
        inversion Hf; subst; congruence. }
    destruct (Context.residentsById ctx !! Shift.residentId a) as [rA|].
    + destruct (Context.residentsById ctx !! Shift.residentId b) as [rB|].
      * rewrite Hwa, Hwb in Hg. cbn [andb negb] in Hg.
        destruct (tiersClash a b);
          [split; [intros (f & Hf & Hk) | split; [intros (f & Hf & Hk) |]];
           [inversion Hf; subst; congruence ..|intros (_ & _ & [Hx|Hx]); discriminate]|].
        destruct (negb (Bool.eqb _ _));
          [split; [intros (f & Hf & Hk) | split; [intros (f & Hf & Hk) |]];
           [inversion Hf; subst; congruence ..|intros (_ & _ & [Hx|Hx]); discriminate]|].
        destruct (negb (includesType _ _));
          [split; [intros (f & Hf & Hk) | split; [intros (f & Hf & Hk) |]];
           [inversion Hf; subst; congruence ..|intros (_ & _ & [Hx|Hx]); discriminate]|].
        destruct Hg as [_ Hg].
        split; [intros (f & Hf & Hk) | split; [intros (f & Hf & Hk) |]];
          [inversion Hf; subst; congruence ..|intros (_ & _ & [Hx|Hx]); discriminate].
      * split; [intros (f & Hf & Hk); inversion Hf; subst; congruence|].
        split; [intros _; auto | intros _; exists failure; auto].
    + split; [intros (f & Hf & Hk); inversion Hf; subst; congruence|].
      split; [intros _; auto | intros _; exists failure; auto].
  - split; [intros (f & Hf & _); discriminate|].
    split; [intros (f & Hf & _); discriminate|].
    destruct Hg as (_ & _ & HrA & HrB & _). rewrite HrA, HrB.
    intros (_ & _ & [Hx|Hx]); discriminate.
Qed.

End ContextProperties.


Section SearchProperties.
Context {N : JsNumber} {H : Host}.

(** The rule engine returns for the pair. *)
Definition returnsFor (ctx : Context.t) (pr : ShiftPair.t) : Prop :=
  exists evaluation,
    explainSwap (ShiftPair.a pr) (ShiftPair.b pr) ctx = Returns evaluation.

(** What [collectRejectedSwaps] records of a pair that the rule engine
    rejects. *)
Definition rejectionOf (ctx : Context.t) (pr : ShiftPair.t)
  : option SwapRejectionDetail.t :=
  match explainSwap (ShiftPair.a pr) (ShiftPair.b pr) ctx with
  | Returns (Infeasible reason _) =>
      let pressure := calculateSwapPressure (ShiftPair.a pr) (ShiftPair.b pr) ctx in
      Some (SwapRejectionDetail.mk (ShiftPair.a pr) (ShiftPair.b pr)
              (SwapPressureBreakdown.score pressure) pressure reason
              (summarizeRejectionReason reason)
              (if String.eqb (kindOf reason) "shabbos-restriction" then shabbos
               else general))
  | _ => None
  end.

Definition rejectionsOf (pairs : list ShiftPair.t) (acceptedKeys : gset string)
    (ctx : Context.t) : list SwapRejectionDetail.t :=
  omap
    (fun pr =>
       if bool_decide (makePairKey (ShiftPair.a pr) (ShiftPair.b pr) ∈ acceptedKeys)
       then None
       else rejectionOf ctx pr)
    pairs.

(** The keys of the accepted candidates. *)
Definition acceptedKeysOf (accepted : list SwapCandidate.t) : gset string :=
  setOfEntries
    (map (fun candidate =>
            makePairKey (SwapCandidate.a candidate) (SwapCandidate.b candidate))
       accepted).

Definition byScore (x y : SwapCandidate.t) : bool :=
  gtb (SwapCandidate.score y - SwapCandidate.score x)%num (ofZ 0).

Definition byRejectedScore (left right : SwapRejectionDetail.t) : bool :=
  gtb (SwapRejectionDetail.score right - SwapRejectionDetail.score left)%num (ofZ 0).

Lemma evaluatePairs_live pool pairs ctx :
  SwapWorkerPool.terminated pool = false ->
  evaluatePairs pool pairs ctx = promiseOf (candidatesOf pairs ctx).
Proof.
  intros Hlive. rewrite <- evaluatePairsSync_candidates.
  destruct (shouldUseWorkers pool (length pairs)) eqn:Huse.
  - pose proof (shouldUseWorkers_adapters pool (length pairs) Huse) as [Hpos _].
    assert (Hadapters : (ensureAdapters pool =? 0)%nat = false)
      by (apply Nat.eqb_neq; lia).
    rewrite (evaluatePairs_posts pool pairs ctx Hlive Huse Hadapters).
    unfold workerMessages. cbv zeta.
    set (chunkSize := Nat.max 1 _).
    pose proof (workers_candidates (sliceChunks (length pairs) chunkSize pairs) ctx) as Hw.
    rewrite sliceChunks_concat in Hw by (unfold chunkSize; lia).
    rewrite <- evaluatePairsSync_candidates in Hw.
    destruct (mapOutcome onmessage _) as [results|]; cbn [bindOutcome] in Hw.
    + rewrite <- Hw. cbn [promiseOf].
      destruct ((0 <? length pairs)%nat && _); reflexivity.
    + rewrite <- Hw. reflexivity.
  - unfold evaluatePairs. rewrite Hlive, Huse. reflexivity.
Qed.

Lemma summarizeLoop_returns pairs ctx state :
  Forall (returnsFor ctx) pairs ->
  exists state', summarizeLoop pairs ctx state = Returns state'.
Proof.
  intros Hall. revert state.
  induction Hall as [|pr rest [evaluation Hev] _ IH]; intros state.
  - eexists; reflexivity.
  - cbn [summarizeLoop]. rewrite Hev. cbn [bindOutcome].
    destruct evaluation; apply IH.
Qed.

Lemma collectRejectedLoop_exact pairs acceptedKeys ctx rejected :
  Forall (returnsFor ctx) pairs ->
  collectRejectedLoop pairs acceptedKeys ctx rejected
  = Returns (rejected ++ rejectionsOf pairs acceptedKeys ctx).
Proof.
  intros Hall. revert rejected.
  induction Hall as [|pr rest [evaluation Hev] _ IH]; intros rejected.
  - cbn. rewrite app_nil_r. reflexivity.
  - cbn [collectRejectedLoop]. unfold rejectionsOf. cbn [omap list_omap].
    fold (rejectionsOf rest acceptedKeys ctx).
    destruct (bool_decide _); [apply IH|].
    unfold rejectionOf. rewrite Hev. cbn [bindOutcome].
    destruct evaluation as [advisories|reason advisories]; [apply IH|].
    rewrite IH, <- app_assoc. reflexivity.
Qed.

Lemma buildSearchResult_exact pairs ctx evaluated collectRejections :
  Forall (returnsFor ctx) pairs ->
  buildSearchResult pairs ctx evaluated collectRejections
  = Returns
      (SwapSearchResult.mk (stableSort byScore evaluated)
         (if collectRejections
          then stableSort byRejectedScore
                 (rejectionsOf pairs (acceptedKeysOf (stableSort byScore evaluated)) ctx)
          else [])).
Proof.
  intros Hall. unfold buildSearchResult. cbv zeta.
  fold byScore. fold (acceptedKeysOf (stableSort byScore evaluated)).
  assert (Hlog : (if (length (stableSort byScore evaluated) =? 0)%nat
                  then bindOutcome (summarizeRejections pairs ctx) (fun _ => Returns tt)
                  else Returns tt) = Returns tt).
  { destruct (_ =? _)%nat; [|reflexivity]. unfold summarizeRejections.
    destruct (summarizeLoop_returns pairs ctx (mkSummaryState [] [] 0%nat) Hall)
      as [state' ->].
    reflexivity. }
  rewrite Hlog. cbn [bindOutcome].
  destruct collectRejections; [|reflexivity].
  unfold collectRejectedSwaps. rewrite (collectRejectedLoop_exact _ _ _ _ Hall).
  reflexivity.
Qed.

(** The search over a batch of pairs: [evaluatePairs] followed by
    [buildSearchResult]. *)
Lemma search_exact pool pairs ctx collectRejections :
  SwapWorkerPool.terminated pool = false ->
  bindPromise (evaluatePairs pool pairs ctx) (fun evaluated =>
    promiseOf (buildSearchResult pairs ctx evaluated collectRejections))
  = match candidatesOf pairs ctx with
    | Returns candidates =>
        Resolved
          (SwapSearchResult.mk (stableSort byScore candidates)
             (if collectRejections
              then stableSort byRejectedScore
                     (rejectionsOf pairs (acceptedKeysOf (stableSort byScore candidates))
                        ctx)
              else []))
    | Diverges => Pending
    end.
Proof.
  intros Hlive. rewrite (evaluatePairs_live pool pairs ctx Hlive).
  destruct (candidatesOf pairs ctx) as [candidates|] eqn:Hc; [|reflexivity].
  cbn [promiseOf bindPromise].
  rewrite buildSearchResult_exact; [reflexivity|].
  apply candidatesOf_returns. eexists; exact Hc.
Qed.


(** The detail carries what the rule engine and the scoring engine say
    of its pair. *)
Definition rejectionSound (ctx : Context.t) (detail : SwapRejectionDetail.t) : Prop :=
  (exists advisories,
      explainSwap (SwapRejectionDetail.a detail) (SwapRejectionDetail.b detail) ctx
      = Returns (Infeasible (SwapRejectionDetail.reason detail) advisories))
  /\ SwapRejectionDetail.pressure detail
     = calculateSwapPressure (SwapRejectionDetail.a detail) (SwapRejectionDetail.b detail)
         ctx
  /\ SwapRejectionDetail.score detail
     = proximityPressure (SwapRejectionDetail.a detail) (SwapRejectionDetail.b detail) ctx
  /\ SwapRejectionDetail.reasonLabel detail
     = summarizeRejectionReason (SwapRejectionDetail.reason detail)
  /\ (SwapRejectionDetail.category detail = shabbos
      <-> kindOf (SwapRejectionDetail.reason detail) = "shabbos-restriction").

(** What a search over a batch of pairs answers. *)
Definition searchOutcome (ctx : Context.t) (pairs : list ShiftPair.t)
    (collectRejections : bool) (result : SwapSearchResult.t) : Prop :=
  map pairOf (SwapSearchResult.accepted result) ≡ₚ List.filter (feasiblePair ctx) pairs
  /\ Forall (candidateSound ctx) (SwapSearchResult.accepted result)
  /\ Forall (fun detail =>
               rejectionSound ctx detail
               /\ ShiftPair.mk (SwapRejectionDetail.a detail) (SwapRejectionDetail.b detail)
                  ∈ pairs)
       (SwapSearchResult.rejected result)
  /\ (collectRejections = false -> SwapSearchResult.rejected result = [])
  /\ (collectRejections = true ->
      forall pr,
        pr ∈ pairs -> feasiblePair ctx pr = false ->
        makePairKey (ShiftPair.a pr) (ShiftPair.b pr)
          ∉ acceptedKeysOf (SwapSearchResult.accepted result) ->
        exists detail,
          detail ∈ SwapSearchResult.rejected result
          /\ SwapRejectionDetail.a detail = ShiftPair.a pr
          /\ SwapRejectionDetail.b detail = ShiftPair.b pr).

Lemma rejectionOf_sound ctx pr detail :
  rejectionOf ctx pr = Some detail ->
  rejectionSound ctx detail
  /\ SwapRejectionDetail.a detail = ShiftPair.a pr
  /\ SwapRejectionDetail.b detail = ShiftPair.b pr.
Proof.
  unfold rejectionOf.
  destruct (explainSwap (ShiftPair.a pr) (ShiftPair.b pr) ctx)
    as [[advisories|reason advisories]|] eqn:Hev; try discriminate.
  cbv zeta. intros Hd. inversion Hd; subst; clear Hd.
  unfold rejectionSound, proximityPressure.
  cbn [SwapRejectionDetail.a SwapRejectionDetail.b SwapRejectionDetail.reason
       SwapRejectionDetail.pressure SwapRejectionDetail.score
       SwapRejectionDetail.reasonLabel SwapRejectionDetail.category].
  repeat split; try reflexivity.
  - exists advisories. exact Hev.
  - destruct (String.eqb_spec (kindOf reason) "shabbos-restriction"); congruence.
  - intros ->. reflexivity.
Qed.

Lemma searchOutcome_of ctx pairs collectRejections candidates :
  candidatesOf pairs ctx = Returns candidates ->
  searchOutcome ctx pairs collectRejections
    (SwapSearchResult.mk (stableSort byScore candidates)
       (if collectRejections
        then stableSort byRejectedScore
               (rejectionsOf pairs (acceptedKeysOf (stableSort byScore candidates)) ctx)
        else [])).
Proof.
  intros Hc. destruct (candidatesOf_exact pairs ctx candidates Hc) as [Hmap Hsound].
  assert (Hreturns : Forall (returnsFor ctx) pairs)
    by (apply candidatesOf_returns; eexists; exact Hc).
  unfold searchOutcome.
  cbn [SwapSearchResult.accepted SwapSearchResult.rejected].
  set (accepted := stableSort byScore candidates).
  assert (Hperm : accepted ≡ₚ candidates) by apply stableSort_Permutation.
  split; [|split; [|split; [|split]]].
  - rewrite <- Hmap. apply Permutation_map. exact Hperm.
  - rewrite Hperm. exact Hsound.
  - destruct collectRejections; [|constructor].
    apply Forall_forall. intros detail Hin.
    rewrite (stableSort_Permutation byRejectedScore) in Hin.
    apply list_elem_of_omap in Hin. destruct Hin as (pr & Hpr & Hdetail).
    destruct (bool_decide _); [discriminate|].
    apply rejectionOf_sound in Hdetail. destruct Hdetail as (Hd & Ha & Hb).
    split; [exact Hd|]. rewrite Ha, Hb. destruct pr. exact Hpr.
  - intros ->. reflexivity.
  - intros -> pr Hpr Hfeasible Hkey.
    rewrite Forall_forall in Hreturns. destruct (Hreturns pr Hpr) as [evaluation Hev].
    assert (Hrejection : exists detail, rejectionOf ctx pr = Some detail).
    { unfold rejectionOf. unfold feasiblePair, isFeasibleSwap in Hfeasible.
      unfold explainSwap in Hev |- *. rewrite Hev in Hfeasible |- *.
      destruct evaluation; [discriminate|]. eexists; reflexivity. }
    destruct Hrejection as [detail Hdetail]. exists detail.
    destruct (rejectionOf_sound ctx pr detail Hdetail) as (_ & Ha & Hb).
    split; [|split; assumption].
    rewrite (stableSort_Permutation byRejectedScore).
    apply list_elem_of_omap. exists pr. split; [exact Hpr|].
    rewrite bool_decide_eq_false_2 by exact Hkey. exact Hdetail.
Qed.

Lemma search_resolves pool pairs ctx collectRejections :
  SwapWorkerPool.terminated pool = false ->
  let search :=
    bindPromise (evaluatePairs pool pairs ctx) (fun evaluated =>
      promiseOf (buildSearchResult pairs ctx evaluated collectRejections)) in
  (Forall (returnsFor ctx) pairs <-> exists result, search = Resolved result)
  /\ (forall result,
        search = Resolved result -> searchOutcome ctx pairs collectRejections result).
Proof.
  intros Hlive. cbv zeta. rewrite (search_exact pool pairs ctx collectRejections Hlive).
  split.
  - unfold returnsFor. rewrite candidatesOf_returns.
    destruct (candidatesOf pairs ctx) as [candidates|]; split.
    + intros _. eexists; reflexivity.
    + intros _. eexists; reflexivity.
    + intros [candidates Hc]. discriminate.
    + intros [result Hr]. discriminate.
  - intros result Hr.
    destruct (candidatesOf pairs ctx) as [candidates|] eqn:Hc; [|discriminate].
    inversion Hr; subst. apply searchOutcome_of. exact Hc.
Qed.

(** X20.  The pairs [findBestSwaps] examines for a person: the first
    shift is a shift of the dataset owned by the person, not a backup
    and not in the past; the second is a shift of the dataset owned by
    somebody else, of the same type, with another id, and not in the
    past; and every such pair is examined. *)
Theorem best_swap_pairs_exact (dataset : Dataset.t) (residentId : string) (today : Dayjs)
    (a b : Shift.t) :
  ShiftPair.mk a b ∈ snd (collectBestSwapPairs dataset residentId today)
  <-> a ∈ Dataset.shifts dataset /\ b ∈ Dataset.shifts dataset
      /\ Shift.residentId a = residentId /\ Shift.type a <> BACKUP
      /\ isShiftInPast a today = false
      /\ Shift.residentId b <> residentId /\ Shift.type b = Shift.type a
      /\ Shift.id b <> Shift.id a /\ isShiftInPast b today = false.
Proof.
  unfold collectBestSwapPairs. cbv zeta. cbn [snd].
  rewrite list_elem_of_In, in_flat_map. split.
  - intros (target & Htarget & Hin).
    apply filter_In in Htarget. destruct Htarget as [Htarget Hown].
    apply andb_true_iff in Hown. destruct Hown as [Hown Hbackup].
    apply String.eqb_eq in Hown. apply negb_true_iff, bool_decide_eq_false in Hbackup.
    destruct (isShiftInPast target today) eqn:Hpast; [destruct Hin|].
    apply in_flat_map in Hin. destruct Hin as (candidate & Hcandidate & Hin).
    unfold isEligibleCounterpart in Hin.
    destruct (String.eqb_spec (Shift.residentId candidate) residentId); [destruct Hin|].
    destruct (bool_decide (Shift.type candidate = BACKUP)); [destruct Hin|].
    destruct (bool_decide (Shift.type target = Shift.type candidate)) eqn:Htype;
      [|destruct Hin].
    apply bool_decide_eq_true in Htype.
    destruct (String.eqb_spec (Shift.id target) (Shift.id candidate)); [destruct Hin|].
    destruct (isShiftInPast candidate today) eqn:Hpast'; [destruct Hin|].
    destruct Hin as [Hin|[]]. inversion Hin; subst.
    repeat split; try (apply list_elem_of_In); auto.
  - intros (Ha & Hb & Hown & Hbackup & Hpast & Hother & Htype & Hid & Hpast').
    exists a. split.
    + apply filter_In. split; [apply list_elem_of_In; exact Ha|].
      apply andb_true_iff. split; [apply String.eqb_eq; exact Hown|].
      apply negb_true_iff, bool_decide_eq_false. exact Hbackup.
    + rewrite Hpast. apply in_flat_map. exists b.
      split; [apply list_elem_of_In; exact Hb|].
      unfold isEligibleCounterpart.
      destruct (String.eqb_spec (Shift.residentId b) residentId); [contradiction|].
      rewrite bool_decide_eq_false_2 by congruence.
      rewrite bool_decide_eq_true_2 by congruence.
      destruct (String.eqb_spec (Shift.id a) (Shift.id b)); [congruence|].
      rewrite Hpast'. left. reflexivity.
Qed.

(** X21.  [findBestSwaps] with a live pool resolves exactly when the
    rule engine returns for every pair it examines.  The accepted
    candidates are then the pairs the rule engine accepts in the
    context built from the dataset, each once and with the advisories,
    breakdown and score of its evaluation; every rejected detail is a
    pair it examined and the rule engine rejects, with the reason, the
    label and category of that reason, and the breakdown and score of
    the scoring engine; without [collectRejections] nothing is listed as
    rejected, and with it every rejected pair whose key is not that of
    an accepted candidate is listed. *)
Theorem findBestSwaps_exact (pool : SwapWorkerPool.t) (now : Dayjs) (dataset : Dataset.t)
    (residentId : string) (options : option SwapEngineOptions.t) :
  SwapWorkerPool.terminated pool = false ->
  let ctx := buildContext dataset None in
  let pairs := snd (collectBestSwapPairs dataset residentId (resolveToday now options)) in
  let collectRejections := default false (options ≫= SwapEngineOptions.collectRejections) in
  (Forall (returnsFor ctx) pairs
   <-> exists result, findBestSwaps pool now dataset residentId options = Resolved result)
  /\ (forall result,
        findBestSwaps pool now dataset residentId options = Resolved result ->
        searchOutcome ctx pairs collectRejections result).
Proof.
  intros Hlive. unfold findBestSwaps, collectBestSwapPairs.
  cbv beta iota zeta. cbn [snd].
  set (today := resolveToday now options).
  destruct (length _ =? 0)%nat eqn:Hprimary.
  - apply Nat.eqb_eq, length_zero_iff_nil in Hprimary.
    rewrite Hprimary. cbn [flat_map].
    split.
    + split; [intros _; eexists; reflexivity | constructor].
    + intros result Hr. inversion Hr; subst.
      unfold searchOutcome. cbn [SwapSearchResult.accepted SwapSearchResult.rejected].
      split; [reflexivity|]. split; [constructor|]. split; [constructor|].
      split; [reflexivity|]. intros _ pr Hpr. apply elem_of_nil in Hpr. destruct Hpr.
  - exact (search_resolves pool _ _ _ Hlive).
Qed.

(** X22.  [findSwapsForShift] answers with empty lists when the target
    is in the past.  Otherwise it examines the target against every
    shift of the dataset that has another owner and the same type and
    is not in the past, and with a live pool it answers for these pairs
    as [findBestSwaps] does for its own. *)
Theorem findSwapsForShift_exact (pool : SwapWorkerPool.t) (now : Dayjs)
    (dataset : Dataset.t) (target : Shift.t) (options : option SwapEngineOptions.t) :
  SwapWorkerPool.terminated pool = false ->
  let today := resolveToday now options in
  let ctx := buildContext dataset None in
  let pairs :=
    map (fun b => ShiftPair.mk target b)
      (List.filter
         (fun s =>
            negb (String.eqb (Shift.residentId s) (Shift.residentId target))
            && bool_decide (Shift.type s = Shift.type target)
            && negb (isShiftInPast s today))
         (Dataset.shifts dataset)) in
  let collectRejections := default false (options ≫= SwapEngineOptions.collectRejections) in
  if isShiftInPast target today
  then findSwapsForShift pool now dataset target options
       = Resolved (SwapSearchResult.mk [] [])
  else
    (Forall (returnsFor ctx) pairs
     <-> exists result, findSwapsForShift pool now dataset target options = Resolved result)
    /\ (forall result,
          findSwapsForShift pool now dataset target options = Resolved result ->
          searchOutcome ctx pairs collectRejections result).
Proof.
  intros Hlive. cbv zeta. unfold findSwapsForShift. cbv zeta.
  unfold isShiftInPast at 1 2.
  destruct (isBeforeDay (dayjs (Shift.startISO target)) (resolveToday now options));
    [reflexivity|].
  apply search_resolves. exact Hlive.
Qed.

End SearchProperties.


Section SearchOrder.
Context {H : Host}.
Local Existing Instance Exact.number.
Local Open Scope Qc_scope.

Lemma insertSorted_sorted {A : Type} (gt : A -> A -> bool) :
  (forall x y, gt x y = true -> gt y x = false) ->
  (forall x y z, gt x y = false -> gt y z = false -> gt x z = false) ->
  forall x l,
    StronglySorted (fun a b => gt a b = false) l ->
    StronglySorted (fun a b => gt a b = false) (insertSorted gt x l).
Proof.
  intros Hasym Htrans x l Hsorted.
  induction Hsorted as [|y rest Hrest IH Hy]; cbn [insertSorted].
  - repeat constructor.
  - destruct (gt y x) eqn:Hgt.
    + constructor; [constructor; assumption|].
      constructor; [apply Hasym; exact Hgt|].
      eapply Forall_impl; [exact Hy|]. intros z Hz. cbv beta in Hz |- *.
      apply (Htrans x y z); [apply Hasym; exact Hgt | exact Hz].
    + constructor; [exact IH|].
      rewrite (insertSorted_Permutation gt x rest). constructor; assumption.
Qed.

Lemma stableSort_sorted {A : Type} (gt : A -> A -> bool) :
  (forall x y, gt x y = true -> gt y x = false) ->
  (forall x y z, gt x y = false -> gt y z = false -> gt x z = false) ->
  forall l, StronglySorted (fun a b => gt a b = false) (stableSort gt l).
Proof.
  intros Hasym Htrans l. unfold stableSort.
  assert (Hgen : forall acc,
             StronglySorted (fun a b => gt a b = false) acc ->
             StronglySorted (fun a b => gt a b = false)
               (fold_left (fun acc x => insertSorted gt x acc) l acc)).
  { induction l as [|x rest IH]; intros acc Hacc; cbn [fold_left]; [exact Hacc|].
    apply IH, insertSorted_sorted; assumption. }
  apply Hgen. constructor.
Qed.

Lemma StronglySorted_weaken {A : Type} (R R' : A -> A -> Prop) (l : list A) :
  (forall a b, R a b -> R' a b) -> StronglySorted R l -> StronglySorted R' l.
Proof.
  intros Himpl Hsorted. induction Hsorted as [|x rest Hrest IH Hx]; constructor.
  - exact IH.
  - eapply Forall_impl; [exact Hx|]. intros b. apply Himpl.
Qed.

(** The comparator [(x, y) => y - x] on exact scores. *)
Lemma descending_spec (x y : @num Exact.number) : gtb (y - x)%num (ofZ 0) = false <-> y <= x.
Proof.
  unfold gtb. cbn [ltb sub ofZ Exact.number]. rewrite lt_false.
  unfold Exact.of_int, Qcle, Qcminus. cbn [this Qcplus Qcopp Q2Qc].
  rewrite !Qred_correct. change (inject_Z 0) with 0%Q.
  destruct x as [x ?], y as [y ?]. cbn [this]. split; intros Hle; lra.
Qed.

Lemma descending_sorted {A : Type} (score : A -> @num Exact.number) (l : list A) :
  StronglySorted (fun a b => score b <= score a)
    (stableSort (fun a b => gtb (score b - score a)%num (ofZ 0)) l).
Proof.
  eapply StronglySorted_weaken;
    [|apply (stableSort_sorted (fun a b => gtb (score b - score a)%num (ofZ 0)))].
  - intros a b Hab. apply descending_spec. exact Hab.
  - intros x y Hxy. apply descending_spec.
    destruct (gtb (score x - score y)%num (ofZ 0)) eqn:Hyx; [|apply descending_spec; exact Hyx].
    exfalso.
    assert (Hle : ~ score y <= score x).
    { intros Hle. apply descending_spec in Hle. congruence. }
    assert (Hle' : ~ score x <= score y).
    { intros Hle'. apply descending_spec in Hle'. congruence. }
    destruct (Qclt_le_dec (score y) (score x)) as [Hlt|Hge];
      [apply Hle, Qclt_le_weak; exact Hlt | tauto].
  - intros x y z Hxy Hyz. apply descending_spec.
    apply descending_spec in Hxy, Hyz. eapply Qcle_trans; eassumption.
Qed.

(** The two lists of the result are in descending order of score. *)
Definition sortedByScore (result : SwapSearchResult.t) : Prop :=
  StronglySorted
    (fun x y => SwapCandidate.score y <= SwapCandidate.score x)
    (SwapSearchResult.accepted result)
  /\ StronglySorted
       (fun x y => SwapRejectionDetail.score y <= SwapRejectionDetail.score x)
       (SwapSearchResult.rejected result).

Lemma buildSearchResult_sorted pairs ctx evaluated collectRejections result :
  buildSearchResult pairs ctx evaluated collectRejections = Returns result ->
  sortedByScore result.
Proof.
  unfold buildSearchResult. cbv zeta.
  destruct (if (length _ =? 0)%nat then _ else _) as [[]|]; [|discriminate].
  cbn [bindOutcome].
  destruct collectRejections.
  - unfold collectRejectedSwaps.
    destruct (collectRejectedLoop _ _ _ _) as [rejected|]; [|discriminate].
    cbn [bindOutcome]. intros Hr. inversion Hr; subst. split.
    + apply (descending_sorted SwapCandidate.score).
    + apply (descending_sorted SwapRejectionDetail.score).
  - cbn [bindOutcome]. intros Hr. inversion Hr; subst. split.
    + apply (descending_sorted SwapCandidate.score).
    + constructor.
Qed.

Lemma search_sorted (evaluation : promise (list SwapCandidate.t)) pairs ctx
    collectRejections result :
  bindPromise evaluation (fun evaluated =>
    promiseOf (buildSearchResult pairs ctx evaluated collectRejections))
  = Resolved result ->
  sortedByScore result.
Proof.
  destruct evaluation as [evaluated| |]; cbn [bindPromise]; try discriminate.
  destruct (buildSearchResult _ _ _ _) as [found|] eqn:Hfound; [|discriminate].
  intros Hr. inversion Hr; subst. eapply buildSearchResult_sorted. exact Hfound.
Qed.

(** X23.  In exact arithmetic, both searches list the accepted
    candidates and the rejected pairs in descending order of score. *)
Theorem search_results_sorted (pool : SwapWorkerPool.t) (now : Dayjs) (dataset : Dataset.t)
    (residentId : string) (target : Shift.t) (options : option SwapEngineOptions.t)
    (result : SwapSearchResult.t) :
  findBestSwaps pool now dataset residentId options = Resolved result
  \/ findSwapsForShift pool now dataset target options = Resolved result ->
  sortedByScore result.
Proof.
  assert (Hempty : sortedByScore (SwapSearchResult.mk [] []))
    by (split; constructor).
  intros [Hbest|Hshift].
  - unfold findBestSwaps, collectBestSwapPairs in Hbest. cbv beta iota zeta in Hbest.
    destruct (length _ =? 0)%nat.
    + inversion Hbest; subst. exact Hempty.
    + eapply search_sorted. exact Hbest.
  - unfold findSwapsForShift in Hshift. cbv zeta in Hshift.
    destruct (isBeforeDay _ _).
    + inversion Hshift; subst. exact Hempty.
    + eapply search_sorted. exact Hshift.
Qed.

End SearchOrder.


(** ** Concrete schedules

    The engine run on IEEE-754 binary64 numbers and the UTC host. *)

Module Examples.

#[local] Existing Instance Float64.number.
#[local] Existing Instance UtcHost.host.

Definition shift (id residentId startISO endISO : string) (type : ShiftType) : Shift.t :=
  Shift.mk id residentId startISO endISO type None None.

Definition resident (id : string) (eligible : list ShiftType)
    (rotations : list RotationAssignment.t) : Resident.t :=
  Resident.mk id id eligible rotations [].

(** The context of a dataset: the index that the engine's callers build
    (residents by id, shifts by resident, observers derived from the
    shifts). *)
Definition context (restHoursMin : Z) (residents : list Resident.t)
    (timelines : list (string * list Shift.t)) : Context.t :=
  let shiftsByResident := mapOfEntries timelines in
  Context.mk (RuleConfig.mk (ofZ restHoursMin) [])
    (mapOfEntries (map (fun r => (Resident.id r, r)) residents))
    shiftsByResident (resolveShabbosObservers shiftsByResident).

(** *** Rounding in the breakdown (C2) *)

Module Rounding.
Definition r1 := resident "R1" [MOSES] [].
Definition r2 := resident "R2" [MOSES] [].
(* Monday, Tuesday and Thursday *)
Definition n1 := shift "N1" "R1" "2025-10-06T04:00:00Z" "2025-10-06T12:00:00Z" MOSES.
Definition sa := shift "SA" "R1" "2025-10-07T00:00:00Z" "2025-10-07T10:00:00Z" MOSES.
Definition sb := shift "SB" "R2" "2025-10-09T00:00:00Z" "2025-10-09T10:00:00Z" MOSES.
Definition ctx := context 10 [r1; r2] [("R1", [n1; sa]); ("R2", [sb])].
Definition breakdown := calculateSwapPressure sa sb ctx.
End Rounding.

(** C2, counterexample.  On binary64 numbers the difference of the totals
    of a section need not equal the sum of the deltas of its calls: for
    the swap of [SA] and [SB] (which is feasible) the section of the
    first person has [swappedTotal - baselineTotal =
    55.813953488372086] (0x1.be82fa0be82f9p+5) while its only call has
    [delta = 55.813953488372093] (0x1.be82fa0be82fap+5). *)
Lemma breakdown_rounding_counterexample :
  explainSwap Rounding.sa Rounding.sb Rounding.ctx = Returns (Feasible None)
  /\ (SwapPressureSection.swappedTotal (SwapPressureBreakdown.original Rounding.breakdown)
      - SwapPressureSection.baselineTotal (SwapPressureBreakdown.original Rounding.breakdown))%num
     = 0x1.be82fa0be82f9p+5%float
  /\ sumDelta (SwapPressureSection.calls (SwapPressureBreakdown.original Rounding.breakdown))
     = 0x1.be82fa0be82fap+5%float
  /\ ~ sectionConsistent (SwapPressureBreakdown.original Rounding.breakdown).
Proof.
  assert (Hleft :
    (SwapPressureSection.swappedTotal (SwapPressureBreakdown.original Rounding.breakdown)
     - SwapPressureSection.baselineTotal (SwapPressureBreakdown.original Rounding.breakdown))%num
    = 0x1.be82fa0be82f9p+5%float) by (vm_compute; reflexivity).
  assert (Hright :
    sumDelta (SwapPressureSection.calls (SwapPressureBreakdown.original Rounding.breakdown))
    = 0x1.be82fa0be82fap+5%float) by (vm_compute; reflexivity).
  split; [vm_compute; reflexivity|]. split; [exact Hleft|]. split; [exact Hright|].
  unfold sectionConsistent. rewrite Hleft, Hright. intros Heq.
  apply (f_equal (fun x => PrimFloat.eqb x 0x1.be82fa0be82fap+5%float)) in Heq.
  vm_compute in Heq. discriminate.
Qed.


(** *** A score above 1600 (C4) *)

Module Bound.
Definition r1 := resident "R1" [MOSES; NIGHT_FLOAT] [].
Definition r2 := resident "R2" [MOSES; NIGHT_FLOAT] [].
(* 2025-10-04 and 2025-10-18 are Saturdays *)
Definition n1 := shift "N1" "R1" "2025-10-04T08:00:00Z" "2025-10-04T20:00:00Z" MOSES.
Definition sa := shift "SA" "R1" "2025-10-04T20:00:00Z" "2025-10-05T06:00:00Z" NIGHT_FLOAT.
Definition n2 := shift "N2" "R2" "2025-10-18T08:00:00Z" "2025-10-18T20:00:00Z" MOSES.
Definition sb := shift "SB" "R2" "2025-10-18T20:00:00Z" "2025-10-19T06:00:00Z" NIGHT_FLOAT.
Definition ctx := context 8 [r1; r2] [("R1", [n1; sa]); ("R2", [n2; sb])].
End Bound.

(** C4, the failing input.  Two Saturday night floats, each directly
    after a day call of its owner and two weeks apart: the swap is
    feasible, each section has delta 1 (the neighbour weighs -1 before
    the swap and is out of the window after it), both multipliers are 4,
    and the score is 3200 = 100 * 4 * 4 * 2, before and after the
    additive adjustments (none applies). *)
Lemma score_exceeds_1600 :
  explainSwap Bound.sa Bound.sb Bound.ctx = Returns (Feasible None)
  /\ option_map (fun scaled => SwapPressureBreakdown.score scaled.1.1)
       (scaledSwapPressure Bound.sa Bound.sb Bound.ctx)
     = Some 3200%float
  /\ proximityPressure Bound.sa Bound.sb Bound.ctx = 3200%float
  /\ (ofZ 1600 <? proximityPressure Bound.sa Bound.sb Bound.ctx)%num = true.
Proof. repeat split; vm_compute; reflexivity. Qed.

(** *** Days after the rotation week (C6) *)

Module Reach.
(* 2025-10-06 is a Monday; the week of the rotation ends on 2025-10-12 *)
Definition vacation :=
  RotationAssignment.mk "2025-10-06T00:00:00.000Z" "Vacation" "Vacation" [].
Definition r1 := resident "R1" [MOSES] [vacation].
Definition r2 := resident "R2" [MOSES] [].
Definition sa := shift "S1" "R1" "2025-10-01T08:00:00Z" "2025-10-01T20:00:00Z" MOSES.
(* Monday 2025-10-13: the day after the week end *)
Definition monday := shift "S2" "R2" "2025-10-13T08:00:00Z" "2025-10-13T20:00:00Z" MOSES.
Definition ctx := context 8 [r1; r2] [("R1", [sa]); ("R2", [monday])].
(* Sunday 2025-10-19: thirteen days after the week start *)
Definition sunday0 := shift "S0" "R1" "2025-09-28T08:00:00Z" "2025-09-28T20:00:00Z" MOSES.
Definition sunday := shift "S3" "R2" "2025-10-19T08:00:00Z" "2025-10-19T20:00:00Z" MOSES.
Definition ctx' := context 8 [r1; r2] [("R1", [sunday0]); ("R2", [sunday])].
End Reach.


(** *** A short rest beside the swap (C7) *)

Module Rest.
Definition r1 := resident "R1" [MOSES] [].
Definition r2 := resident "R2" [MOSES] [].
(* Wednesdays; X ends two hours before Y starts *)
Definition x := shift "X" "R1" "2025-10-01T00:00:00Z" "2025-10-01T08:00:00Z" MOSES.
Definition y := shift "Y" "R1" "2025-10-01T10:00:00Z" "2025-10-01T18:00:00Z" MOSES.
Definition sa := shift "SA" "R1" "2025-10-08T08:00:00Z" "2025-10-08T18:00:00Z" MOSES.
Definition sb := shift "SB" "R2" "2025-10-15T08:00:00Z" "2025-10-15T18:00:00Z" MOSES.
Definition ctx := context 8 [r1; r2] [("R1", [x; y; sa]); ("R2", [sb])].
Definition incoming := Shift.withResidentId sb "R1".
(* W starts two hours before X ends *)
Definition w := shift "W" "R2" "2025-10-01T06:00:00Z" "2025-10-01T14:00:00Z" MOSES.
Definition ctx' := context 8 [r1; r2] [("R1", [x; sa]); ("R2", [w])].
End Rest.


(** *** A date that does not parse (C8) *)

Module Malformed.
Definition chest := RotationAssignment.mk "2025-10-06T00:00:00.000Z" "Chest" "Chest" [].
Definition r1 := resident "R1" [MOSES] [chest].
Definition r2 := resident "R2" [MOSES] [].
Definition sa := shift "SA" "R1" "2025-10-08T08:00:00Z" "2025-10-08T18:00:00Z" MOSES.
Definition sb := shift "SB" "R2" "not a date" "2025-10-15T18:00:00Z" MOSES.
Definition ctx := context 8 [r1; r2] [("R1", [sa]); ("R2", [sb])].
End Malformed.


(** *** The theorems at concrete schedules *)

Module Boundary.
(* the rest between X and Z is exactly eight hours *)
Definition z := shift "Z" "R1" "2025-10-01T16:00:00Z" "2025-10-02T00:00:00Z" MOSES.
Definition cfg : RuleConfig.t := Context.ruleConfig Rest.ctx.
End Boundary.


Module Negative.
Definition ctx :=
  context (-1) [Rest.r1; Rest.r2]
    [("R1", [Rest.x; Rest.y; Rest.sa]); ("R2", [Rest.sb])].
(* the swap that hands R1 the shift [mid], between X and Y *)
Definition mid := shift "M" "R2" "2025-10-01T08:30:00Z" "2025-10-01T09:30:00Z" MOSES.
Definition ctx' :=
  context (-1) [Rest.r1; Rest.r2]
    [("R1", [Rest.x; Rest.y; Rest.sa]); ("R2", [mid])].
End Negative.

(** C10 at a concrete schedule with a minimum of -1: the swap that puts
    an assignment half an hour after another one of the same person is
    accepted, and the score is the score for a minimum of 0. *)
Lemma nonpositive_minimum_witness :
  leb (RuleConfig.restHoursMin (Context.ruleConfig Negative.ctx')) (ofZ 0) = true
  /\ explainSwap Rest.sa Negative.mid Negative.ctx' = Returns (Feasible None)
  /\ violationCode (Feasible None) <> Some REST_WINDOW
  /\ calculateSwapPressure Rest.sa Negative.mid Negative.ctx'
     = calculateSwapPressure Rest.sa Negative.mid
         (withRestHoursMin Negative.ctx' (ofZ 0)).
Proof.
  assert (Hmin : leb (RuleConfig.restHoursMin (Context.ruleConfig Negative.ctx')) (ofZ 0)
                 = true) by (vm_compute; reflexivity).
  assert (Hswap : explainSwap Rest.sa Negative.mid Negative.ctx' = Returns (Feasible None))
    by (vm_compute; reflexivity).
  destruct (nonpositive_minimum_skips_rest_check Float64_laws Negative.ctx' Hmin)
    as (_ & Hresult & Hscore).
  split; [exact Hmin|]. split; [exact Hswap|]. split.
  - exact (proj1 (Hresult _ _ _ Hswap)).
  - apply Hscore.
Defined.



Module Friday.
(* 2025-10-03 is a Friday *)
Definition call := shift "F" "R2" "2025-10-03T08:00:00Z" "2025-10-03T20:00:00Z" MOSES.
End Friday.

(** C5 at a concrete schedule: R1 has no Saturday daytime call, so R1
    is an observer, and the check refuses R1 a Friday call. *)
Lemma shabbos_restriction_witness :
  (Resident.id Rest.r1 ∈ Context.shabbosObservers Rest.ctx)
  /\ isFridayCall Friday.call = true
  /\ is_Some (evaluateShabbosRestriction Rest.r1 Friday.call
                (Context.shabbosObservers Rest.ctx)).
Proof.
  assert (Hobserver : Resident.id Rest.r1 ∈ Context.shabbosObservers Rest.ctx)
    by (refine (bool_decide_eq_true_1 _ _); vm_compute; reflexivity).
  split; [exact Hobserver|]. split; [vm_compute; reflexivity|].
  destruct (shabbos_restriction_exact Rest.r1 Friday.call
              (Context.shabbosObservers Rest.ctx)) as (Hrefused & _).
  apply (Hrefused Hobserver). vm_compute. reflexivity.
Defined.

(** C1 at a concrete schedule: the swap of [SA] and [SB] is feasible in
    both orders. *)
Lemma feasibility_symmetric_witness :
  isFeasibleSwap Rest.sa Rest.sb Rest.ctx = Returns true
  /\ isFeasibleSwap Rest.sb Rest.sa Rest.ctx = Returns true.
Proof.
  assert (Hab : isFeasibleSwap Rest.sa Rest.sb Rest.ctx = Returns true)
    by (vm_compute; reflexivity).
  split; [exact Hab|].
  destruct (feasibility_symmetric (Some Rest.sa) (Some Rest.sb) (Some Rest.ctx))
    as [_ Hsym].
  apply (Hsym _ _ _ eq_refl eq_refl eq_refl). exact Hab.
Defined.



End Examples.
